(** * Inspo.ai backend: the result-aggregation pipeline

    A shallow embedding of the server variants of the repository
    ([server.js], [updatedserver.txt] and the two servers of
    [unnamed/part_000]) and the properties of their aggregation pipeline:
    suggestion extraction, query construction, adapter failure policy,
    fan-out and fan-in, deduplication and sorting.

    The first part holds the model, one module per component; the second
    and the third part hold the lemmas and the theorems.

    Conventions.  A JavaScript string is a [string], a sequence of code
    units below 256.  [undefined] (a missing property or query parameter)
    is [None].  A [Set] of strings is a [gset].  A promise is represented by
    the way it settles. *)

From Stdlib Require Import Ascii String List Bool Arith ZArith QArith Lia.
From Stdlib Require Import Sorting.Permutation Sorting.Sorted.
From stdpp Require Import base decidable option list sets gmap strings.

Local Open Scope string_scope.
Local Open Scope list_scope.
Local Open Scope nat_scope.

(** * Part I: the model *)

(** ** JavaScript strings and values *)

Module JS.

(** A property that holds a string when it is present. *)
Definition value := option string.

(** [!!v]: [undefined] and the empty string are falsy. *)
Definition truthy (v : value) : bool :=
  match v with
  | None => false
  | Some s => negb (String.eqb s "")
  end.

(** [a || b] *)
Definition or (a b : value) : value := if truthy a then a else b.

(** [a || b] where [b] is a string. *)
Definition or_else (a : value) (b : string) : string :=
  if truthy a then default "" a else b.

(** The code units in a class, by their codes. *)
Definition in_codes (codes : list nat) (c : ascii) : bool :=
  existsb (Nat.eqb (nat_of_ascii c)) codes.

Definition in_range (lo hi : ascii) (c : ascii) : bool :=
  (nat_of_ascii lo <=? nat_of_ascii c) && (nat_of_ascii c <=? nat_of_ascii hi).

(** [\s], and what [trim] removes: tab, line feed, vertical tab, form
    feed, carriage return, space, no-break space. *)
Definition is_space : ascii → bool := in_codes [9; 10; 11; 12; 13; 32; 160].

(** A line feed, the only character [[^\n]] excludes. *)
Definition is_lf : ascii → bool := in_codes [10].

(** What [.] excludes: the line terminators (line feed, carriage return). *)
Definition is_line_terminator : ascii → bool := in_codes [10; 13].

(** [\w]. *)
Definition is_word (c : ascii) : bool :=
  in_range "a" "z" c || in_range "A" "Z" c || in_range "0" "9" c
  || Ascii.eqb c "_".

(** [[A-Fa-f0-9]]. *)
Definition is_hex (c : ascii) : bool :=
  in_range "A" "F" c || in_range "a" "f" c || in_range "0" "9" c.

(** [String.prototype.toLowerCase], on the Latin-1 code units. *)
Definition lower (c : ascii) : ascii :=
  let n := nat_of_ascii c in
  if in_range "A" "Z" c
     || ((192 <=? n) && (n <=? 222) && negb (n =? 215))
  then ascii_of_nat (n + 32) else c.

Fixpoint toLowerCase (s : string) : string :=
  match s with
  | EmptyString => EmptyString
  | String c r => String (lower c) (toLowerCase r)
  end.

(** The line feed. *)
Definition LF : ascii := "010".

(** [s.startsWith(p)] *)
Definition startsWith (s p : string) : bool := String.prefix p s.

(** Every character of [s] is in the class [p]. *)
Fixpoint allChars (p : ascii → bool) (s : string) : bool :=
  match s with
  | EmptyString => true
  | String c r => p c && allChars p r
  end.

(** [String.prototype.trim]. *)
Fixpoint trimStart (s : string) : string :=
  match s with
  | EmptyString => EmptyString
  | String c r => if is_space c then trimStart r else s
  end.

Fixpoint trimEnd (s : string) : string :=
  match s with
  | EmptyString => EmptyString
  | String c r =>
      let r' := trimEnd r in
      if is_space c && String.eqb r' "" then "" else String c r'
  end.

Definition trim (s : string) : string := trimEnd (trimStart s).

(** [s.includes(sub)]. *)
Fixpoint includes (s sub : string) : bool :=
  String.prefix sub s
  || match s with
     | EmptyString => false
     | String _ r => includes r sub
     end.

(** A field does not bring the [word]: it is absent, or a string without
    the word. *)
Definition free (word : string) (v : value) : Prop :=
  match v with
  | Some s => includes s word = false
  | None => True
  end.

(** [s.replace(pattern, "")] for a string pattern: the first occurrence
    goes. *)
Fixpoint dropPrefix (p s : string) : option string :=
  match p with
  | EmptyString => Some s
  | String a p' =>
      match s with
      | String c r => if Ascii.eqb a c then dropPrefix p' r else None
      | EmptyString => None
      end
  end.

Fixpoint removeFirst (pattern s : string) : string :=
  match dropPrefix pattern s with
  | Some r => r
  | None =>
      match s with
      | EmptyString => EmptyString
      | String c r => String c (removeFirst pattern r)
      end
  end.

(** [s.split(sep)] for a separator of one character. *)
Fixpoint split (sep : ascii) (s : string) : list string :=
  match s with
  | EmptyString => [""]
  | String c r =>
      if Ascii.eqb c sep then "" :: split sep r
      else match split sep r with
           | w :: ws => String c w :: ws
           | [] => [String c ""]
           end
  end.

(** [parts.filter(Boolean).join(' ')] on parts that may be [undefined]. *)
Definition filterBoolean (parts : list value) : list string :=
  omap (λ v, if truthy v then v else None) parts.

Definition join (sep : string) (parts : list string) : string :=
  String.concat sep parts.

(** [l.slice(0, n)]. *)
Definition slice0 {A} (n : nat) (l : list A) : list A := take n l.

(** [l.indexOf(x)], [-1] when [x] is absent. *)
Fixpoint indexOf (l : list string) (x : value) : Z :=
  match l with
  | [] => (-1)%Z
  | y :: r =>
      if bool_decide (x = Some y) then 0%Z
      else let i := indexOf r x in if (i <? 0)%Z then (-1)%Z else (i + 1)%Z
  end.

End JS.

(** The string does not contain the literal "undefined". *)
Definition clean (s : string) : Prop := JS.includes s "undefined" = false.

(** ** Result items

    The objects the adapters build and the handlers pass on.  The handlers
    read [image], [title] and [source] and write [category] and [format];
    [link] is the [url] or [link] property; [other] holds the properties
    the handlers never look at (of a font pairing, say). *)

Record Item := mkItem {
  image : JS.value;
  title : JS.value;
  source : JS.value;
  link : JS.value;
  format : JS.value;
  category : JS.value;
  other : list (string * string)
}.

Global Instance Item_eq_dec : EqDecision Item.
Proof. solve_decision. Defined.

(** An item as an image adapter builds it. *)
Definition item (img ttl src : string) : Item :=
  mkItem (Some img) (Some ttl) (Some src) None None None [].

(** [{ ...img, category: c }] *)
Definition with_category (c : string) (img : Item) : Item :=
  mkItem (image img) (title img) (source img) (link img) (format img)
         (Some c) (other img).

(** [{ ...img, category: c, format: f }] *)
Definition with_category_format (c f : string) (img : Item) : Item :=
  mkItem (image img) (title img) (source img) (link img) (Some f)
         (Some c) (other img).

(** How a promise settles. *)
Inductive settled (A : Type) : Type :=
| fulfilled (value : A)
| rejected (reason : string).

Arguments fulfilled {A} value.
Arguments rejected {A} reason.

(** ** Deduplication *)

Module Dedup.

Section dedup.
Context {A K : Type} `{Countable K}.

(** [img.image], the deduplication key, and its truthiness. *)
Variable image : A → K.
Variable truthy : K → bool.

(** *** [updatedserver.txt], lines 619-628

<<
    const uniqueImages = [];
    const imageUrls = new Set();
    allImages.forEach(img => {
      if (!imageUrls.has(img.image)) {
        imageUrls.add(img.image);
        uniqueImages.push(img);
      }
    });
>>
    The state of the loop is the pair [(imageUrls, uniqueImages)]. *)

Definition uniqueStep (st : gset K * list A) (img : A) : gset K * list A :=
  let '(imageUrls, uniqueImages) := st in
  if bool_decide (image img ∈ imageUrls) then st
  else ({[ image img ]} ∪ imageUrls, uniqueImages ++ [img]).

Definition uniqueLoop (st : gset K * list A) (allImages : list A)
  : gset K * list A :=
  foldl uniqueStep st allImages.

Definition uniqueImages (allImages : list A) : list A :=
  (uniqueLoop (∅, []) allImages).2.

(** *** [unnamed/part_000], lines 992-1001

<<
    const seenUrls = new Set();
    const filterDuplicates = (images) => {
      return images.filter(img => {
        if (!img.image || seenUrls.has(img.image)) return false;
        seenUrls.add(img.image);
        return true;
      });
    };
>>
    [seenUrls] is shared by all the calls of one request: the function
    takes the set and returns it updated. *)

Fixpoint filterDuplicates (seenUrls : gset K) (images : list A)
  : list A * gset K :=
  match images with
  | [] => ([], seenUrls)
  | img :: rest =>
      if negb (truthy (image img)) || bool_decide (image img ∈ seenUrls)
      then filterDuplicates seenUrls rest
      else
        let '(kept, seen') :=
          filterDuplicates ({[ image img ]} ∪ seenUrls) rest in
        (img :: kept, seen')
  end.

(** The calls of one request, one list of images per call, in order. *)
Fixpoint filterDuplicatesAll (seenUrls : gset K) (batches : list (list A))
  : list (list A) * gset K :=
  match batches with
  | [] => ([], seenUrls)
  | images :: more =>
      let '(kept, seen1) := filterDuplicates seenUrls images in
      let '(kepts, seen2) := filterDuplicatesAll seen1 more in
      (kept :: kepts, seen2)
  end.

(** *** What the properties speak about *)

(** The items of [l] whose key is [k], in the order of [l]. *)
Definition with_key (k : K) (l : list A) : list A :=
  filter (λ img, image img = k) l.

(** The earliest item of [l] whose key is [k]. *)
Definition earliest (k : K) (l : list A) : option A := head (with_key k l).

(** "Exactly one item per distinct key, the earliest one": every key of
    the input is the key of exactly one output item, which is the first
    input item with that key. *)
Definition one_per_key_earliest (input output : list A) : Prop :=
  ∀ k, k ∈ image <$> input →
    ∃ img, with_key k output = [img] ∧ earliest k input = Some img.

(** The loop of [updatedserver.txt] read as a filter that threads the set
    of the keys seen. *)
Fixpoint fresh (seen : gset K) (l : list A) : list A :=
  match l with
  | [] => []
  | img :: rest =>
      if bool_decide (image img ∈ seen) then fresh seen rest
      else img :: fresh ({[ image img ]} ∪ seen) rest
  end.

End dedup.

(** [[...new Set(l)]]: the distinct elements in the order of their first
    insertion. *)
Definition setSpread (l : list string) : list string := uniqueImages id l.

End Dedup.

(** ** Suggestion extractor *)

Module Extract.

(** *** [hexCodeRegex = /#([A-Fa-f0-9]{6}|[A-Fa-f0-9]{3})/g] *)

(** [[A-Fa-f0-9]{n}] at the start of [s]. *)
Fixpoint hexDigits (n : nat) (s : string) : option string :=
  match n with
  | 0 => Some ""
  | S n' =>
      match s with
      | String c r =>
          if JS.is_hex c then String c <$> hexDigits n' r else None
      | EmptyString => None
      end
  end.

(** The match of the regex at the start of [s]: six digits are tried before
    three. *)
Definition hexCodeAt (s : string) : option string :=
  match s with
  | String c r =>
      if Ascii.eqb c "#" then
        match hexDigits 6 r with
        | Some h => Some (String "#" h)
        | None => String "#" <$> hexDigits 3 r
        end
      else None
  | EmptyString => None
  end.

(** [text.match(hexCodeRegex) || []]: the matches from left to right, the
    search resuming after each match ([skip] characters are still covered by
    the last match). *)
Fixpoint matchHexFrom (skip : nat) (s : string) : list string :=
  match s with
  | EmptyString => []
  | String _ r =>
      match skip with
      | S k => matchHexFrom k r
      | 0 =>
          match hexCodeAt s with
          | Some m => m :: matchHexFrom (String.length m - 1) r
          | None => matchHexFrom 0 r
          end
      end
  end.

Definition matchHexCodes (text : string) : list string := matchHexFrom 0 text.

(** *** [colorNameRegex =
        /\b(red|blue|green|yellow|purple|orange|pink|brown|gray|black|white)\b/gi] *)

Definition colorNameAlternatives : list string :=
  ["red"; "blue"; "green"; "yellow"; "purple"; "orange"; "pink"; "brown";
   "gray"; "black"; "white"].

(** [name], in any case, at the start of [s]; what follows it. *)
Fixpoint prefixIgnoreCase (name s : string) : option string :=
  match name with
  | EmptyString => Some s
  | String a name' =>
      match s with
      | String c r =>
          if Ascii.eqb (JS.lower c) a then prefixIgnoreCase name' r else None
      | EmptyString => None
      end
  end.

(** [\b] after a word character: the text ends or goes on with a character
    that is not a word character. *)
Definition boundaryBefore (s : string) : bool :=
  match s with
  | EmptyString => true
  | String c _ => negb (JS.is_word c)
  end.

(** The alternative that matches at the start of [s], lower-cased as
    [.map(c => c.toLowerCase())] leaves it. *)
Definition colorNameAt (s : string) : option string :=
  List.find (λ name,
    match prefixIgnoreCase name s with
    | Some after => boundaryBefore after
    | None => false
    end) colorNameAlternatives.

(** The matches from left to right; [prevWord] tells whether the character
    before is a word character, in which case no match starts here. *)
Fixpoint matchNamesFrom (prevWord : bool) (skip : nat) (s : string)
  : list string :=
  match s with
  | EmptyString => []
  | String c r =>
      match skip with
      | S k => matchNamesFrom (JS.is_word c) k r
      | 0 =>
          if prevWord then matchNamesFrom (JS.is_word c) 0 r
          else
            match colorNameAt s with
            | Some name =>
                name :: matchNamesFrom (JS.is_word c) (String.length name - 1) r
            | None => matchNamesFrom (JS.is_word c) 0 r
            end
      end
  end.

Definition matchColorNames (text : string) : list string :=
  matchNamesFrom false 0 text.

(** *** [extractColorPalette] of the first server of [unnamed/part_000]
        (lines 172-176)

<<
    const matches = aiSuggestions.match(hexCodeRegex) || [];
    return matches.slice(0, 3);
>> *)
Definition extractColorPalette (aiSuggestions : string) : list string :=
  JS.slice0 3 (matchHexCodes aiSuggestions).

(** *** [nlpUtils] of [server.js] (lines 79-152) *)

(** [colorMap[name] || []] *)
Definition colorMap (name : string) : list string :=
  if String.eqb name "red" then ["#FF0000"; "#DC143C"; "#B22222"]
  else if String.eqb name "blue" then ["#0000FF"; "#1E90FF"; "#4169E1"]
  else if String.eqb name "green" then ["#008000"; "#32CD32"; "#3CB371"]
  else if String.eqb name "yellow" then ["#FFD700"; "#FFFF00"; "#FFA500"]
  else if String.eqb name "purple" then ["#800080"; "#8A2BE2"; "#9400D3"]
  else if String.eqb name "orange" then ["#FFA500"; "#FF4500"; "#FF6347"]
  else if String.eqb name "pink" then ["#FFC0CB"; "#FF69B4"; "#FF1493"]
  else if String.eqb name "brown" then ["#8B4513"; "#A52A2A"; "#D2691E"]
  else if String.eqb name "gray" then ["#808080"; "#A9A9A9"; "#696969"]
  else if String.eqb name "black" then ["#000000"]
  else if String.eqb name "white" then ["#FFFFFF"]
  else [].

Definition generateColorFromNames (colorNames : list string) : list string :=
  flat_map colorMap colorNames.

(** The two colour utilities return their argument. *)
Definition rotateHue (hex : string) (degrees : Z) : string := hex.

Definition adjustColorBrightness (hex : string) (percent : Q) : string := hex.

Definition generateComplementaryColors (baseColor : string) : list string :=
  [adjustColorBrightness baseColor (2 # 10); adjustColorBrightness baseColor (- (2 # 10))].

Definition generateAnalogousColors (baseColor : string) : list string :=
  [rotateHue baseColor 30; rotateHue baseColor (-30)].

Definition generateTriadicColors (baseColor : string) : list string :=
  [rotateHue baseColor 120; rotateHue baseColor (-120)].

(** The key of [colorTheoryMappings] that
    [Math.floor(Math.random() * 3)] selects. *)
Inductive generativeScheme := complementary | analogous | triadic.

Definition colorTheoryMappings (scheme : generativeScheme) (baseColor : string)
  : list string :=
  match scheme with
  | complementary => generateComplementaryColors baseColor
  | analogous => generateAnalogousColors baseColor
  | triadic => generateTriadicColors baseColor
  end.

(** The colours before the colour-theory step:
    [[...new Set([...hexCodes, ...(inputColor ? [inputColor] : []),
                  ...this.generateColorFromNames(colorNames)])]] *)
Definition combinedColors (aiSuggestions : string) (inputColor : JS.value)
  : list string :=
  Dedup.setSpread
    (matchHexCodes aiSuggestions
     ++ (if JS.truthy inputColor then [default "" inputColor] else [])
     ++ generateColorFromNames (matchColorNames aiSuggestions)).

(** [extractAdvancedColorPalette(aiSuggestions, inputColor = null)]; the
    random draw is the argument [scheme]. *)
Definition extractAdvancedColorPalette (scheme : generativeScheme)
    (aiSuggestions : string) (inputColor : JS.value) : list string :=
  let allColors := combinedColors aiSuggestions inputColor in
  let allColors :=
    match allColors with
    | baseColor :: _ =>
        if length allColors <? 3
        then allColors ++ colorTheoryMappings scheme baseColor
        else allColors
    | [] => allColors
    end in
  JS.slice0 5 allColors.

(** *** [extractHeading] (the same in the three files)

<<
    const headingMatch =
      aiSuggestions.match(/^#\s+([^\n]+)|^##\s+([^\n]+)|^(.+?)\n/);
    if (headingMatch) {
      return (headingMatch[1] || headingMatch[2] || headingMatch[3]
              || "Design Recommendations").trim();
    }
    return "Design Recommendations";
>>
    The regex has no [m] flag: each alternative matches at the start of
    the text only. *)

(** [[^\n]+] at the start of [s]: the longest run without a line feed. *)
Fixpoint restOfLine (s : string) : string :=
  match s with
  | EmptyString => EmptyString
  | String c r => if JS.is_lf c then EmptyString else String c (restOfLine r)
  end.

Definition linePlus (s : string) : option string :=
  match restOfLine s with
  | EmptyString => None
  | g => Some g
  end.

(** [\s*([^\n]+)] at the start of [s]: the white space is greedy and gives
    characters back until the group matches. *)
Fixpoint spacesThenLine (s : string) : option string :=
  match s with
  | EmptyString => None
  | String c r =>
      if JS.is_space c then
        match spacesThenLine r with
        | Some g => Some g
        | None => linePlus s
        end
      else linePlus s
  end.

(** [\s+([^\n]+)] at the start of [s]. *)
Definition spacePlusThenLine (s : string) : option string :=
  match s with
  | String c r => if JS.is_space c then spacesThenLine r else None
  | EmptyString => None
  end.

(** [(.+?)\n] at the start of [s]: the shortest run of at least one
    character, none a line terminator, that a line feed follows. *)
Fixpoint lazyLine (s : string) : option string :=
  match s with
  | EmptyString => None
  | String c r =>
      if JS.is_line_terminator c then None
      else
        match r with
        | String c' _ =>
            if JS.is_lf c' then Some (String c "")
            else String c <$> lazyLine r
        | EmptyString => None
        end
  end.

(** [#] at the start of [s]: what follows it. *)
Definition afterHash (s : string) : option string :=
  match s with
  | String c r => if Ascii.eqb c "#" then Some r else None
  | EmptyString => None
  end.

(** The three alternatives, each at the start of the text: the group it
    captures. *)
Definition alternative1 (s : string) : option string :=
  r ← afterHash s; spacePlusThenLine r.

Definition alternative2 (s : string) : option string :=
  r ← afterHash s; r' ← afterHash r; spacePlusThenLine r'.

Definition alternative3 (s : string) : option string := lazyLine s.

(** The capture groups 1, 2 and 3 of the match, if there is one: the
    alternatives are tried from left to right. *)
Definition headingMatch (aiSuggestions : string)
  : option (option string * option string * option string) :=
  match alternative1 aiSuggestions with
  | Some g1 => Some (Some g1, None, None)
  | None =>
      match alternative2 aiSuggestions with
      | Some g2 => Some (None, Some g2, None)
      | None =>
          (λ g3, (None, None, Some g3)) <$> alternative3 aiSuggestions
      end
  end.

Definition extractHeading (aiSuggestions : string) : string :=
  match headingMatch aiSuggestions with
  | Some (g1, g2, g3) =>
      JS.trim
        (JS.or_else g1 (JS.or_else g2 (JS.or_else g3 "Design Recommendations")))
  | None => "Design Recommendations"
  end.

End Extract.

(** ** [Array.prototype.sort]

    The sort is stable (ECMAScript 2019) and, for a comparator that orders
    the elements consistently, its result is the one of the stable
    insertion sort: [compare a b <= 0] keeps [a] before [b]. *)

Module Sort.

Section sort.
Context {A : Type}.
Variable compare : A → A → Z.

Fixpoint insert (a : A) (sorted : list A) : list A :=
  match sorted with
  | [] => [a]
  | b :: rest =>
      if (compare a b <=? 0)%Z then a :: sorted else b :: insert a rest
  end.

Fixpoint sort (l : list A) : list A :=
  match l with
  | [] => []
  | a :: rest => insert a (sort rest)
  end.

End sort.

End Sort.

(** ** Asynchronous code

    An [async] function is a computation that settles: [fulfilled] is its
    [return], [rejected] its [throw], and [await] binds the value of a
    fulfilled promise or re-throws the reason of a rejected one. *)

Module Async.

Definition andThen {A B} (p : settled A) (k : A → settled B) : settled B :=
  match p with
  | fulfilled v => k v
  | rejected e => rejected e
  end.

(** [try { body } catch (error) { handler }] *)
Definition tryCatch {A} (body : settled A) (handler : string → settled A)
  : settled A :=
  match body with
  | fulfilled v => fulfilled v
  | rejected e => handler e
  end.

(** Reading a property of [undefined] throws a [TypeError]. *)
Definition property {A} (v : option A) : settled A :=
  match v with
  | Some a => fulfilled a
  | None => rejected "TypeError: Cannot read properties of undefined"
  end.

Definition map {A B} (f : A → B) (p : settled A) : settled B :=
  match p with
  | fulfilled v => fulfilled (f v)
  | rejected e => rejected e
  end.

Definition isFulfilled {A} (p : settled A) : bool :=
  match p with
  | fulfilled _ => true
  | rejected _ => false
  end.

(** [Promise.all]: the values when every promise is fulfilled, the reason
    of a rejected one otherwise (here the first in the list; when several
    reject, the one that rejects first in time wins, which the model does
    not tell apart). *)
Fixpoint all {A} (ps : list (settled A)) : settled (list A) :=
  match ps with
  | [] => fulfilled []
  | p :: rest =>
      andThen p (λ v, andThen (all rest) (λ vs, fulfilled (v :: vs)))
  end.

(** [Promise.allSettled]: always fulfilled, with one entry per promise. *)
Definition allSettled {A} (ps : list (settled A)) : settled (list (settled A)) :=
  fulfilled ps.

End Async.

(** [x ← p; k] reads [const x = await p; k]. *)
Global Instance settled_ret : MRet settled := @fulfilled.

Global Instance settled_bind : MBind settled :=
  λ A B k p, Async.andThen p k.

(** ** HTTP calls through axios *)

Module Http.

(** What happens to a request. *)
Inductive outcome (P : Type) : Type :=
| networkError (message : string)
| timeout (message : string)
| response (status : nat) (data : P).

Arguments networkError {P} message.
Arguments timeout {P} message.
Arguments response {P} status data.

(** axios's default [validateStatus]. *)
Definition statusOk (status : nat) : bool :=
  (200 <=? status) && (status <? 300).

(** [await axios.get(...)] and the like: the response, or the error
    thrown. *)
Definition axios {P} (o : outcome P) : settled (nat * P) :=
  match o with
  | networkError m => rejected m
  | timeout m => rejected m
  | response status data =>
      if statusOk status then fulfilled (status, data)
      else rejected "Request failed with status code"
  end.

(** The call fails in transport: network failure, timeout, or a status
    that is not 2xx. *)
Definition failed {P} (o : outcome P) : Prop :=
  match o with
  | networkError _ | timeout _ => True
  | response status _ => statusOk status = false
  end.

(** The call fails, in transport or by a payload that lacks what the
    adapter expects ([lacking]). *)
Definition failedOr {P} (lacking : P → Prop) (o : outcome P) : Prop :=
  match o with
  | networkError _ | timeout _ => True
  | response status data => statusOk status = false ∨ lacking data
  end.

End Http.

(** ** Handlers

    A handler is a computation that settles and leaves the list of the
    provider calls it made, in the order it made them. *)

Record traced (C A : Type) : Type := Traced {
  calls : list C;
  outcome : settled A
}.

Arguments Traced {C A} calls outcome.
Arguments calls {C A} t.
Arguments outcome {C A} t.

Global Instance traced_ret {C} : MRet (traced C) :=
  λ A a, Traced [] (fulfilled a).

Global Instance traced_bind {C} : MBind (traced C) :=
  λ A B k m,
    match outcome m with
    | fulfilled a => Traced (calls m ++ calls (k a)) (outcome (k a))
    | rejected e => Traced (calls m) (rejected e)
    end.

Module Handler.

(** Calling an adapter starts the call and gives its promise. *)
Definition invoke {C A} (c : C) (p : settled A) : traced C (settled A) :=
  Traced [c] (fulfilled p).

(** [await p] *)
Definition await {C A} (p : settled A) : traced C A := Traced [] p.

(** A call of a function that is not asynchronous: what it returns, or
    what it throws. *)
Definition run {C A} (p : settled A) : traced C A := Traced [] p.

(** [await adapter(...)] *)
Definition call {C A} (c : C) (p : settled A) : traced C A :=
  promise ← invoke c p; await promise.

(** What a handler sends. *)
Inductive response (B : Type) : Type :=
| json (status : nat) (body : B)
| failure (status : nat) (error : string) (details : option string).

Arguments json {B} status body.
Arguments failure {B} status error details.

Definition status {B} (r : response B) : nat :=
  match r with
  | json s _ => s
  | failure s _ _ => s
  end.

(** [try { ... } catch (error) { res.status(500).json({ error: message,
    details: error.message }) }] around the body of a handler. *)
Definition catch500 {C B} (message : string) (m : traced C (response B))
  : list C * response B :=
  (calls m,
   match outcome m with
   | fulfilled r => r
   | rejected e => failure 500 message (Some e)
   end).

End Handler.

(** The failure policy of an image adapter, over the worlds [w] it may run
    in: it always settles fulfilled, and with the empty list when its
    upstream is [down]. *)
Definition failsSoft {W : Type} (adapter : W → settled (list Item))
    (down : W → Prop) : Prop :=
  ∀ w, (∃ items, adapter w = fulfilled items)
       ∧ (down w → adapter w = fulfilled []).

(** The query parameters of [GET /search]. *)
Module Req.

Record t := mk {
  q : JS.value;
  industry : JS.value;
  font : JS.value;
  color : JS.value;
  designStyle : JS.value;
  audience : JS.value;
  purpose : JS.value;
  imageSize : JS.value;
  imageType : JS.value;
  sortBy : JS.value;
  ai : JS.value;
  platforms : JS.value
}.

(** A request with the query [q] and no other parameter. *)
Definition only (q : JS.value) : t :=
  mk q None None None None None None None None None None None.

End Req.

(** ** [server.js] *)

Module Server.

(** *** The adapters (lines 159-283) *)

(** The payloads, as far as the adapters read them. *)
Module Serp.
Record image := { original : JS.value; title : JS.value;
                  source : JS.value; link : JS.value }.
Record data := { images_results : option (list image) }.
End Serp.

Module Freepik.
Record params := { term : string; limit : nat; format : option string }.
(** [image_source_url] is [item.image?.source?.url], [username] is
    [item.contributor?.username]. *)
Record resource := {
  image_source_url : JS.value; image_regular_url : JS.value;
  title : JS.value; url : JS.value; username : JS.value;
  resource_format : JS.value; is_premium : bool
}.
(** [response.data], which may be missing or empty. *)
Record body := { data : option (list resource) }.
Record generated := { generated_url : JS.value }.
Record generation := { images : option (list generated) }.
End Freepik.

Record headers := { content_type : JS.value }.

(** The providers as the adapters of [server.js] reach them. *)
Record world := {
  serpapi : string → Http.outcome Serp.data;
  head : JS.value → Http.outcome headers;
  resources : Freepik.params → Http.outcome (option Freepik.body);
  textToImage : string → nat → Http.outcome (option Freepik.generation)
}.

(** [validateImage] (lines 160-167): a missing [content-type] header makes
    [startsWith] throw, which the [catch] turns into [false]. *)
Definition validateImage (w : world) (url : JS.value) : bool :=
  match Http.axios (head w url) with
  | fulfilled (status, h) =>
      (status =? 200)
      && match content_type h with
         | Some ct => String.prefix "image" ct
         | None => false
         end
  | rejected _ => false
  end.

(** [fetchSerpAPIImages] (lines 170-198). *)
Definition serpItem (img : Serp.image) : Item :=
  mkItem (Serp.original img)
         (Some (JS.or_else (Serp.title img) "Design Inspiration"))
         (Some "Google Images")
         (Some (JS.or_else (Serp.source img) (JS.or_else (Serp.link img) "")))
         None None [].

Definition fetchSerpAPIImages (w : world) (query : string) (limit : nat)
  : settled (list Item) :=
  Async.tryCatch
    (response ← Http.axios (serpapi w query);
     images_results ← Async.property (Serp.images_results response.2);
     let images := serpItem <$> JS.slice0 limit images_results in
     mret (List.filter (λ img, validateImage w (image img)) images))
    (λ error, mret []).

(** [fetchFreepikImages] (lines 200-235). *)
Definition freepikParams (query : string) (limit : nat) (format : string)
  : Freepik.params :=
  {| Freepik.term := query;
     Freepik.limit := limit;
     Freepik.format :=
       if negb (String.eqb format "")
          && bool_decide (JS.toLowerCase format ∈ ["vector"; "psd"])
       then Some (JS.toLowerCase format) else None |}.

Definition freepikItem (format : string) (r : Freepik.resource) : Item :=
  mkItem (if JS.truthy (Freepik.image_source_url r)
          then Freepik.image_source_url r else Freepik.image_regular_url r)
         (Some (JS.or_else (Freepik.title r) "Design Resource"))
         (Some "Freepik")
         (Some (JS.or_else (Freepik.url r) ""))
         (Some (JS.or_else (Freepik.resource_format r)
                  (JS.or_else (Some format) "image")))
         None
         [("author", JS.or_else (Freepik.username r) "Freepik Artist");
          ("isPremium", if Freepik.is_premium r then "true" else "false")].

Definition fetchFreepikImages (w : world) (query : string) (limit : nat)
    (format : string) : settled (list Item) :=
  Async.tryCatch
    (response ← Http.axios (resources w (freepikParams query limit format));
     match response.2 with
     | Some {| Freepik.data := Some data |} =>
         mret (List.filter (λ img, JS.truthy (image img))
                 (freepikItem format <$> data))
     | _ => mret []
     end)
    (λ error, mret []).

(** [fetchFreepikAIImage] (lines 238-283); [seed] is the random draw. *)
Definition generatedItem (img : Freepik.generated) : Item :=
  mkItem (Freepik.generated_url img) (Some "AI Generated Design")
         (Some "Freepik AI") None (Some "AI Image") None [].

Definition fetchFreepikAIImage (w : world) (seed : nat) (prompt : string)
  : settled (list Item) :=
  Async.tryCatch
    (response ← Http.axios (textToImage w prompt seed);
     match response.2 with
     | Some {| Freepik.images := Some images |} =>
         mret (generatedItem <$> images)
     | _ => mret []
     end)
    (λ error, mret []).

(** *** The handler of [GET /search] (lines 378-448)

    The array that [Promise.all] gives is destructured by position; the
    third entry, [topIndustriesResults], is not used. *)

(** The adapter calls of the handler. *)
Module Call.
Inductive t :=
| getDesignSuggestions (q : string) (industry font color designStyle : JS.value)
| fetchSerpAPIImages (query : string) (limit : nat)
| fetchFreepikImages (query : string) (limit : nat) (format : string)
| fetchFreepikAIImage (prompt : string).

Definition result (c : t) : Type :=
  match c with
  | getDesignSuggestions _ _ _ _ _ => string
  | _ => list Item
  end.

Definition isAI (c : t) : bool :=
  match c with
  | fetchFreepikAIImage _ => true
  | _ => false
  end.
End Call.

(** A configuration of adapters: how each call settles. *)
Definition adapters := ∀ c : Call.t, settled (Call.result c).

(** The query strings, one per slot (lines 388-395 and 411-412). *)
Record queries := {
  industryFontQuery : string;
  colorStyleQuery : string;
  topIndustriesQuery : string;
  mainFreepikQuery : string;
  colorFreepikQuery : string;
  vectorQuery : string;
  psdQuery : string
}.

Definition buildQueries (req : Req.t) (colorPalette : list string) : queries :=
  let q := default "" (Req.q req) in
  let industry := JS.or_else (Req.industry req) "" in
  let font := JS.or_else (Req.font req) "" in
  let color := JS.or_else (Req.color req) "" in
  let designStyle := JS.or_else (Req.designStyle req) "" in
  {| industryFontQuery :=
       q +:+ " " +:+ industry +:+ " " +:+ font +:+ " design inspiration";
     colorStyleQuery :=
       q +:+ " " +:+ designStyle +:+ " " +:+ color +:+ " design inspiration";
     topIndustriesQuery := "Top industries using " +:+ designStyle +:+ " design";
     mainFreepikQuery := JS.trim (q +:+ " " +:+ industry +:+ " " +:+ designStyle);
     colorFreepikQuery :=
       match colorPalette with
       | first :: _ => JS.trim (q +:+ " " +:+ first)
       | [] => JS.trim (q +:+ " " +:+ color)
       end;
     vectorQuery := JS.trim (q +:+ " " +:+ designStyle);
     psdQuery := JS.trim (q +:+ " " +:+ industry) |}.

Definition queryList (qs : queries) : list string :=
  [industryFontQuery qs; colorStyleQuery qs; topIndustriesQuery qs;
   mainFreepikQuery qs; colorFreepikQuery qs; vectorQuery qs; psdQuery qs].

(** The calls that [Promise.all] joins (lines 405-413), in the order they
    are started. *)
Definition fanOutCalls (qs : queries) : list Call.t :=
  [Call.fetchSerpAPIImages (industryFontQuery qs) 10;
   Call.fetchSerpAPIImages (colorStyleQuery qs) 10;
   Call.fetchSerpAPIImages (topIndustriesQuery qs) 8;
   Call.fetchFreepikImages (mainFreepikQuery qs) 10 "";
   Call.fetchFreepikImages (colorFreepikQuery qs) 10 "";
   Call.fetchFreepikImages (vectorQuery qs) 8 "vector";
   Call.fetchFreepikImages (psdQuery qs) 8 "psd"].

(** Their promises, under a configuration of adapters. *)
Definition fanOut (ad : adapters) (qs : queries) : list (settled (list Item)) :=
  [ad (Call.fetchSerpAPIImages (industryFontQuery qs) 10);
   ad (Call.fetchSerpAPIImages (colorStyleQuery qs) 10);
   ad (Call.fetchSerpAPIImages (topIndustriesQuery qs) 8);
   ad (Call.fetchFreepikImages (mainFreepikQuery qs) 10 "");
   ad (Call.fetchFreepikImages (colorFreepikQuery qs) 10 "");
   ad (Call.fetchFreepikImages (vectorQuery qs) 8 "vector");
   ad (Call.fetchFreepikImages (psdQuery qs) 8 "psd")].

(** The first call of the handler (line 384). *)
Definition suggestCall (req : Req.t) : Call.t :=
  Call.getDesignSuggestions (default "" (Req.q req)) (Req.industry req)
    (Req.font req) (Req.color req) (Req.designStyle req).

Record body := {
  images : list Item;
  aiSuggestions : string;
  relatedTerms : list string;
  colorPalette : list string;
  heading : string
}.

Section handler.

(** [extractRelatedTerms] (lines 369-371) calls
    [nlpUtils.extractEnhancedTerms], which rests on the tokenizer and the
    stemmer of the [natural] package and can throw; the handler calls it
    inside its [try] and passes its result on. *)
Variable extractRelatedTerms :
  string → string → JS.value → JS.value → settled (list string).

Variable ad : adapters.

(** The draw of [Math.random] in [extractAdvancedColorPalette]. *)
Variable scheme : Extract.generativeScheme.

(** [const freepikAIResults =
       ai === "true" ? await fetchFreepikAIImage(q) : [];] (line 416) *)
Definition freepikAIResults (ai : JS.value) (q : string)
  : traced Call.t (list Item) :=
  if bool_decide (ai = Some "true")
  then Handler.call (Call.fetchFreepikAIImage q) (ad (Call.fetchFreepikAIImage q))
  else mret [].

Definition search (req : Req.t) : traced Call.t (Handler.response body) :=
  if negb (JS.truthy (Req.q req))
  then mret (Handler.failure 400 "Query is required" None)
  else
    let q := default "" (Req.q req) in
    let industry := Req.industry req in
    let designStyle := Req.designStyle req in
    aiSuggestions ← Handler.call (suggestCall req) (ad (suggestCall req));
    let colorPalette :=
      Extract.extractAdvancedColorPalette scheme aiSuggestions (Req.color req) in
    let heading := Extract.extractHeading aiSuggestions in
    let qs := buildQueries req colorPalette in
    p1 ← Handler.invoke (Call.fetchSerpAPIImages (industryFontQuery qs) 10)
           (ad (Call.fetchSerpAPIImages (industryFontQuery qs) 10));
    p2 ← Handler.invoke (Call.fetchSerpAPIImages (colorStyleQuery qs) 10)
           (ad (Call.fetchSerpAPIImages (colorStyleQuery qs) 10));
    p3 ← Handler.invoke (Call.fetchSerpAPIImages (topIndustriesQuery qs) 8)
           (ad (Call.fetchSerpAPIImages (topIndustriesQuery qs) 8));
    p4 ← Handler.invoke (Call.fetchFreepikImages (mainFreepikQuery qs) 10 "")
           (ad (Call.fetchFreepikImages (mainFreepikQuery qs) 10 ""));
    p5 ← Handler.invoke (Call.fetchFreepikImages (colorFreepikQuery qs) 10 "")
           (ad (Call.fetchFreepikImages (colorFreepikQuery qs) 10 ""));
    p6 ← Handler.invoke (Call.fetchFreepikImages (vectorQuery qs) 8 "vector")
           (ad (Call.fetchFreepikImages (vectorQuery qs) 8 "vector"));
    p7 ← Handler.invoke (Call.fetchFreepikImages (psdQuery qs) 8 "psd")
           (ad (Call.fetchFreepikImages (psdQuery qs) 8 "psd"));
    results ← Handler.await (Async.all [p1; p2; p3; p4; p5; p6; p7]);
    let industryFontResults := default [] (results !! 0) in
    let colorStyleResults := default [] (results !! 1) in
    let freepikMainResults := default [] (results !! 3) in
    let freepikColorResults := default [] (results !! 4) in
    let freepikVectorResults := default [] (results !! 5) in
    let freepikPsdResults := default [] (results !! 6) in
    freepikAI ← freepikAIResults (Req.ai req) q;
    relatedTerms ←
      Handler.run (extractRelatedTerms q aiSuggestions industry designStyle);
    let combinedInspiration :=
      with_category "Combined Inspiration"
        <$> (industryFontResults ++ colorStyleResults) in
    let allImages :=
      combinedInspiration
      ++ (with_category "Downloadable Design Resources" <$> freepikMainResults)
      ++ (with_category "Downloadable Color Inspiration" <$> freepikColorResults)
      ++ (with_category_format "Downloadable Vector Resources" "vector"
            <$> freepikVectorResults)
      ++ (with_category_format "Downloadable PSD Templates" "psd"
            <$> freepikPsdResults)
      ++ (with_category_format "AI Generated Designs" "AI Image" <$> freepikAI) in
    mret (Handler.json 200
            {| images := allImages; aiSuggestions := aiSuggestions;
               relatedTerms := relatedTerms; colorPalette := colorPalette;
               heading := heading |}).

Definition getSearch (req : Req.t) : list Call.t * Handler.response body :=
  Handler.catch500 "Failed to fetch design resources" (search req).

End handler.

End Server.

(** ** The second server of [unnamed/part_000] (lines 383-1072) *)

Module Enhanced.

(** *** The adapters on Google Custom Search (lines 544-734) *)

Module Cse.
Record params := { q : string; num : nat; imgSize : option string }.
(** [contextLink] is [item.image?.contextLink]. *)
Record item := { link : JS.value; title : JS.value; contextLink : JS.value;
                 displayLink : JS.value; snippet : JS.value }.
Record body := { items : option (list item) }.
End Cse.

Record world := {
  customsearch : Cse.params → Http.outcome (option Cse.body)
}.

(** A payload without results: no body, no [items], or none in it. *)
Definition noItems (body : option Cse.body) : Prop :=
  body = None ∨ body = Some {| Cse.items := None |}
  ∨ body = Some {| Cse.items := Some [] |}.

Section adapters.

(** [Buffer.from(s).toString('base64')], of Node. *)
Variable base64 : string → string.

(** [Buffer.from(link).toString('base64').substring(0, 12)];
    [Buffer.from(undefined)] throws. *)
Definition shortId (link : JS.value) : settled string :=
  match link with
  | Some s => mret (String.substring 0 12 (base64 s))
  | None => rejected "TypeError [ERR_INVALID_ARG_TYPE]"
  end.

Definition itemId (img : Item) : option string :=
  snd <$> List.find (λ p, String.eqb p.1 "id") (other img).

(** [processGoogleResults] (lines 598-621). *)
Definition googleItem (it : Cse.item) : settled Item :=
  id ← shortId (Cse.link it);
  mret (mkItem (Cse.link it)
          (Some (JS.or_else (Cse.title it) "Design Inspiration"))
          (Some "Google Images")
          (Some (JS.or_else (Cse.contextLink it)
                   (JS.or_else (Cse.displayLink it) "")))
          None None
          [("snippet", JS.or_else (Cse.snippet it) ""); ("id", id)]).

Fixpoint mapM {A B} (f : A → settled B) (l : list A) : settled (list B) :=
  match l with
  | [] => mret []
  | a :: rest => b ← f a; bs ← mapM f rest; mret (b :: bs)
  end.

Definition processGoogleResults (items : list Cse.item) : settled (list Item) :=
  images ← mapM googleItem items;
  mret (Dedup.uniqueImages itemId images).

(** [fetchGoogleImages] (lines 545-595). *)
Definition fetchGoogleImages (w : world) (query : string) (limit : nat)
  : settled (list Item) :=
  Async.tryCatch
    (response ← Http.axios
       (customsearch w {| Cse.q := query; Cse.num := Nat.min limit 10;
                          Cse.imgSize := Some "large" |});
     match response.2 with
     | Some {| Cse.items := Some (it :: its) |} =>
         processGoogleResults (it :: its)
     | _ =>
         if 3 <? length (JS.split " " query) then
           let simplifiedQuery :=
             JS.join " " (JS.slice0 3 (JS.split " " query)) +:+ " design" in
           fallbackResponse ← Http.axios
             (customsearch w {| Cse.q := simplifiedQuery;
                                Cse.num := Nat.min limit 10;
                                Cse.imgSize := None |});
           match fallbackResponse.2 with
           | Some {| Cse.items := Some items |} => processGoogleResults items
           | _ => mret []
           end
         else mret []
     end)
    (λ error, mret []).

(** [fetchPinterestViaGoogle] (lines 661-696). *)
Definition pinterestTitle (t : JS.value) : string :=
  JS.or_else
    (JS.removeFirst " on Pinterest" <$> (JS.removeFirst " | Pinterest" <$> t))
    "Pinterest Inspiration".

Definition pinterestItem (it : Cse.item) : settled Item :=
  id ← shortId (Cse.link it);
  mret (mkItem (Cse.link it) (Some (pinterestTitle (Cse.title it)))
          (Some "Pinterest")
          (Some (JS.or_else (Cse.contextLink it)
                   (JS.or_else (Cse.displayLink it) "")))
          None None
          [("id", id); ("snippet", JS.or_else (Cse.snippet it) "")]).

Definition fetchPinterestViaGoogle (w : world) (query : string) (limit : nat)
  : settled (list Item) :=
  Async.tryCatch
    (response ← Http.axios
       (customsearch w {| Cse.q := query +:+ " site:pinterest.com";
                          Cse.num := Nat.min (limit + 4) 10;
                          Cse.imgSize := Some "large" |});
     match response.2 with
     | Some {| Cse.items := Some items |} =>
         images ← mapM pinterestItem items;
         mret (List.filter (λ img, JS.truthy (image img)) images)
     | _ => mret []
     end)
    (λ error, mret []).

(** [fetchDesignPlatformsInspiration] (lines 699-734), called with
    [limit: 20]. *)
Definition platformQueries (query : string) (industry designStyle font : JS.value)
  : string * string :=
  (JS.join " " (JS.filterBoolean
                  [Some query; industry; designStyle; font; Some "design"]),
   JS.join " " (JS.filterBoolean [Some query; industry; Some "inspiration"])).

Definition with_source (s : string) (img : Item) : Item :=
  mkItem (image img) (title img) (Some s) (link img) (format img)
         (category img) (other img).

Definition fetchDesignPlatformsInspiration (w : world) (query : string)
    (industry designStyle font : JS.value) (limit : nat)
  : settled (list Item) :=
  Async.tryCatch
    (let '(mainQuery, alternateQuery) :=
       platformQueries query industry designStyle font in
     results ← Async.all
       [fetchPinterestViaGoogle w mainQuery (Nat.div2 (limit + 1));
        fetchPinterestViaGoogle w alternateQuery (Nat.div2 limit)];
     let mainResults := default [] (results !! 0) in
     let alternateResults := default [] (results !! 1) in
     let combinedResults :=
       (Dedup.uniqueLoop itemId
          (list_to_set (itemId <$> mainResults), mainResults)
          alternateResults).2 in
     mret (with_source "Pinterest" <$> combinedResults))
    (λ error, mret []).

End adapters.

(** *** The handler of [GET /search] (lines 915-1062) *)

Module Call.
Inductive t :=
| getDesignSuggestions (q : string) (industry font color designStyle : JS.value)
| fetchDesignPlatformsInspiration (query : string)
    (industry designStyle font : JS.value) (limit : nat)
| fetchGoogleImages (query : string) (limit : nat)
| fetchFreepikImages (query : string) (limit : nat) (format : string)
| fetchFreepikAIImage (prompt : string).

Definition result (c : t) : Type :=
  match c with
  | getDesignSuggestions _ _ _ _ _ => string
  | _ => list Item
  end.

Definition isAI (c : t) : bool :=
  match c with
  | fetchFreepikAIImage _ => true
  | _ => false
  end.
End Call.

Definition adapters := ∀ c : Call.t, settled (Call.result c).

(** The query strings (lines 927-946, 977-978 and 983-985). *)
Record queries := {
  enhancedQuery : string;
  colorQuery : string;
  mainFreepikQuery : string;
  colorFreepikQuery : string;
  vectorQuery : string;
  templateQuery : string;
  aiPrompt : string
}.

Definition buildQueries (req : Req.t) (colorPalette : list string) : queries :=
  let q := Req.q req in
  let industry := Req.industry req in
  let font := Req.font req in
  let color := Req.color req in
  let designStyle := Req.designStyle req in
  (* color || (colorPalette.length > 0 ? colorPalette[0] : '') *)
  let colorTerm := JS.or color (Some (default "" (head colorPalette))) in
  {| enhancedQuery :=
       JS.join " " (JS.filterBoolean
         [q; industry; font; designStyle; Some "design inspiration"]);
     colorQuery :=
       JS.join " " (JS.filterBoolean
         [q; industry; colorTerm; designStyle; Some "design"]);
     mainFreepikQuery :=
       JS.join " " (JS.filterBoolean [q; industry; designStyle; font]);
     colorFreepikQuery :=
       JS.join " " (JS.filterBoolean [q; industry; colorTerm]);
     vectorQuery :=
       JS.join " " (JS.filterBoolean [q; designStyle; Some "vector"]);
     templateQuery :=
       JS.join " " (JS.filterBoolean [q; industry; Some "template"]);
     aiPrompt :=
       JS.join " " (JS.filterBoolean [q; industry; designStyle; font; color]) |}.

Definition queryList (qs : queries) : list string :=
  [enhancedQuery qs; colorQuery qs; mainFreepikQuery qs; colorFreepikQuery qs;
   vectorQuery qs; templateQuery qs; aiPrompt qs].

(** The first call of the handler (line 923). *)
Definition suggestCall (req : Req.t) : Call.t :=
  Call.getDesignSuggestions (default "" (Req.q req)) (Req.industry req)
    (Req.font req) (Req.color req) (Req.designStyle req).

Record stats := {
  totalImages : nat;
  pinterestCount : nat;
  sources : list JS.value
}.

Record body := {
  images : list Item;
  aiSuggestions : string;
  relatedTerms : list string;
  colorPalette : list string;
  heading : string;
  enhanced : string;
  statistics : stats
}.

(** [filterDuplicates] on the key [img.image]. *)
Definition filterDuplicates (seenUrls : gset JS.value) (images : list Item)
  : list Item * gset JS.value :=
  Dedup.filterDuplicates image JS.truthy seenUrls images.

(** The six calls of [filterDuplicates] (lines 1005-1021), which share
    [seenUrls], and the categories their results get. *)
Definition categorize (designPlatformsResults enhancedResults colorResults
    freepikMainResults freepikColorResults freepikVectorResults
    freepikPsdResults freepikAIResults : list Item) : list (list Item) :=
  let '(kept1, seen) :=
    filterDuplicates ∅
      (designPlatformsResults ++ enhancedResults ++ colorResults) in
  let combinedInspiration := with_category "Combined Inspiration" <$> kept1 in
  let '(kept2, seen) := filterDuplicates seen freepikMainResults in
  let freepikMainFiltered :=
    with_category "Downloadable Design Resources" <$> kept2 in
  let '(kept3, seen) := filterDuplicates seen freepikColorResults in
  let freepikColorFiltered :=
    with_category "Downloadable Color Inspiration" <$> kept3 in
  let '(kept4, seen) := filterDuplicates seen freepikVectorResults in
  let freepikVectorFiltered :=
    with_category_format "Downloadable Vector Resources" "vector" <$> kept4 in
  let '(kept5, seen) := filterDuplicates seen freepikPsdResults in
  let freepikPsdFiltered :=
    with_category_format "Downloadable PSD Templates" "psd" <$> kept5 in
  let '(kept6, seen) := filterDuplicates seen freepikAIResults in
  let freepikAIFiltered :=
    with_category_format "AI Generated Designs" "AI Image" <$> kept6 in
  [combinedInspiration; freepikMainFiltered; freepikColorFiltered;
   freepikVectorFiltered; freepikPsdFiltered; freepikAIFiltered].

Section handler.

(** [extractRelatedTerms] (lines 906-908) calls
    [nlpUtils.extractEnhancedTerms], which rests on the [natural] package
    and can throw; the handler calls it inside its [try]. *)
Variable extractRelatedTerms :
  string → string → JS.value → JS.value → settled (list string).

Variable ad : adapters.

Variable scheme : Extract.generativeScheme.

(** [const freepikAIResults = ai === "true" ? await fetchFreepikAIImage(
       [q, industry, designStyle, font, color].filter(Boolean).join(' ')) : [];]
    (lines 983-985) *)
Definition freepikAIResults (ai : JS.value) (prompt : string)
  : traced Call.t (list Item) :=
  if bool_decide (ai = Some "true")
  then Handler.call (Call.fetchFreepikAIImage prompt)
         (ad (Call.fetchFreepikAIImage prompt))
  else mret [].

Definition search (req : Req.t) : traced Call.t (Handler.response body) :=
  if negb (JS.truthy (Req.q req))
  then mret (Handler.failure 400 "Query is required" None)
  else
    let q := default "" (Req.q req) in
    let industry := Req.industry req in
    let font := Req.font req in
    let designStyle := Req.designStyle req in
    (* platforms = "true" when the parameter is missing *)
    let platforms := default "true" (Req.platforms req) in
    aiSuggestions ← Handler.call (suggestCall req) (ad (suggestCall req));
    let colorPalette :=
      Extract.extractAdvancedColorPalette scheme aiSuggestions (Req.color req) in
    let heading := Extract.extractHeading aiSuggestions in
    let qs := buildQueries req colorPalette in
    platformPromise ←
      (if String.eqb platforms "true"
       then Handler.invoke
              (Call.fetchDesignPlatformsInspiration q industry designStyle font 20)
              (ad (Call.fetchDesignPlatformsInspiration q industry designStyle font 20))
       else mret (fulfilled []));
    p1 ← Handler.invoke (Call.fetchGoogleImages (enhancedQuery qs) 10)
           (ad (Call.fetchGoogleImages (enhancedQuery qs) 10));
    p2 ← Handler.invoke (Call.fetchGoogleImages (colorQuery qs) 6)
           (ad (Call.fetchGoogleImages (colorQuery qs) 6));
    p3 ← Handler.invoke (Call.fetchFreepikImages (mainFreepikQuery qs) 10 "")
           (ad (Call.fetchFreepikImages (mainFreepikQuery qs) 10 ""));
    p4 ← Handler.invoke (Call.fetchFreepikImages (colorFreepikQuery qs) 10 "")
           (ad (Call.fetchFreepikImages (colorFreepikQuery qs) 10 ""));
    p5 ← Handler.invoke (Call.fetchFreepikImages (vectorQuery qs) 8 "vector")
           (ad (Call.fetchFreepikImages (vectorQuery qs) 8 "vector"));
    p6 ← Handler.invoke (Call.fetchFreepikImages (templateQuery qs) 8 "psd")
           (ad (Call.fetchFreepikImages (templateQuery qs) 8 "psd"));
    results ← Handler.await (Async.all [p1; p2; p3; p4; p5; p6; platformPromise]);
    let enhancedResults := default [] (results !! 0) in
    let colorResults := default [] (results !! 1) in
    let freepikMainResults := default [] (results !! 2) in
    let freepikColorResults := default [] (results !! 3) in
    let freepikVectorResults := default [] (results !! 4) in
    let freepikPsdResults := default [] (results !! 5) in
    let designPlatformsResults := default [] (results !! 6) in
    freepikAI ← freepikAIResults (Req.ai req) (aiPrompt qs);
    relatedTerms ←
      Handler.run (extractRelatedTerms q aiSuggestions industry designStyle);
    let filtered :=
      categorize designPlatformsResults enhancedResults colorResults
        freepikMainResults freepikColorResults freepikVectorResults
        freepikPsdResults freepikAI in
    let combinedInspiration := default [] (filtered !! 0) in
    let pinterestCount :=
      length (List.filter (λ img, bool_decide (source img = Some "Pinterest"))
                combinedInspiration) in
    let allImages := concat filtered in
    mret (Handler.json 200
            {| images := allImages; aiSuggestions := aiSuggestions;
               relatedTerms := relatedTerms; colorPalette := colorPalette;
               heading := heading; enhanced := enhancedQuery qs;
               statistics :=
                 {| totalImages := length allImages;
                    pinterestCount := pinterestCount;
                    sources := Dedup.uniqueImages id (source <$> allImages) |} |}).

Definition getSearch (req : Req.t) : list Call.t * Handler.response body :=
  Handler.catch500 "Failed to fetch design resources" (search req).

End handler.

End Enhanced.

(** ** [updatedserver.txt] *)

Module Updated.

(** *** The adapters (lines 21-520) *)

Module Serp.
Record params := { q : string; tbs : option string }.
Record image := { original : JS.value; title : JS.value; source : JS.value }.
Record data := { images_results : option (list image) }.
End Serp.

Record filters := {
  industry : JS.value;
  audience : JS.value;
  imageSize : JS.value;
  imageType : JS.value
}.

(** [text] is [response.data.candidates?.[0]?.content?.parts?.[0]?.text];
    the payload itself may be missing. *)
Module Gemini.
Record data := { text : JS.value }.
End Gemini.

(** A browser of puppeteer and the page of a URL.  [evaluate url args
    limit] is [page.evaluate] of the extraction script of an adapter on the
    page of [url], with the arguments the adapter passes beside [limit];
    [scrollBy] is [page.evaluate] of the script that scrolls. *)
Record chromium := {
  launch : settled unit;
  newPage : settled unit;
  setUserAgent : settled unit;
  goto : string → settled unit;
  scrollBy : settled unit;
  waitForTimeout : settled unit;
  evaluate : string → list JS.value → nat → settled (list Item);
  close : settled unit
}.

(** A step on the page of [url] fails: opening the page, navigating,
    evaluating the extraction script, or closing. *)
Definition pageFails (b : chromium) (url : string) (args : list JS.value)
    (limit : nat) : Prop :=
  Async.isFulfilled (newPage b) = false
  ∨ Async.isFulfilled (goto b url) = false
  ∨ Async.isFulfilled (evaluate b url args limit) = false
  ∨ Async.isFulfilled (close b) = false.

Record world := {
  serpapi : Serp.params → Http.outcome Serp.data;
  generateContent : string → list JS.value → Http.outcome (option Gemini.data);
  puppeteer : chromium
}.

Section adapters.

(** [color(hex).keyword()] of the [color] package: [None] when the colour
    does not parse or has no keyword. *)
Variable keyword : string → option string.

(** [JSON.parse] on the text of an array of strings: [None] when it
    throws. *)
Variable JSON_parse : string → option (list string).

(** [getDesignSuggestions] (lines 33-93). *)
Definition getDesignSuggestions (w : world) (args : list JS.value)
  : settled string :=
  Async.tryCatch
    (response ← Http.axios (generateContent w "design suggestions" args);
     data ← Async.property response.2;
     mret (JS.or_else (Gemini.text data) "No AI suggestions available."))
    (λ error, mret "Could not generate AI suggestions due to an error.").

(** [scrapeDribbble] (lines 96-148): a browser of its own, inside the
    [try]. *)
Definition scrapeDribbble (w : world) (query : string) (limit : nat)
    (colorHex designStyle : JS.value) : settled (list Item) :=
  Async.tryCatch
    (let searchQuery :=
       if JS.truthy designStyle
       then query +:+ " " +:+ default "" designStyle else query in
     let url := "https://dribbble.com/search/shots?q=" +:+ searchQuery in
     _ ← launch (puppeteer w);
     _ ← newPage (puppeteer w);
     _ ← goto (puppeteer w) url;
     results ← evaluate (puppeteer w) url [colorHex] limit;
     _ ← close (puppeteer w);
     mret results)
    (λ error, mret []).

(** [scrapeDesignspiration] (lines 151-204): [initBrowser] runs before the
    [try] when the shared [browser] is not set; [browser] tells whether it
    is.  The wait for the selector has a [catch] of its own and stops
    nothing. *)
Definition scrapeDesignspiration (w : world) (browser : bool)
    (query : string) (limit : nat) : settled (list Item) :=
  _ ← (if browser then mret () else launch (puppeteer w));
  Async.tryCatch
    (let url := "https://www.designspiration.com/search/saves/?q=" +:+ query in
     _ ← newPage (puppeteer w);
     _ ← setUserAgent (puppeteer w);
     _ ← goto (puppeteer w) url;
     results ← evaluate (puppeteer w) url [] limit;
     _ ← close (puppeteer w);
     mret results)
    (λ error, mret []).

(** [fetchSerpAPIImages] (lines 321-370). *)
Definition enhanceQuery (query : string) (colorHex designStyle : JS.value)
    (f : filters) : string :=
  let enhancedQuery := query in
  let enhancedQuery :=
    if JS.truthy designStyle
    then enhancedQuery +:+ " " +:+ default "" designStyle +:+ " style"
    else enhancedQuery in
  let enhancedQuery :=
    if JS.truthy colorHex then
      match keyword (default "" colorHex) with
      | Some colorName =>
          if String.eqb colorName "" then enhancedQuery
          else enhancedQuery +:+ " " +:+ colorName
      | None => enhancedQuery
      end
    else enhancedQuery in
  let enhancedQuery :=
    if JS.truthy (industry f)
    then enhancedQuery +:+ " " +:+ default "" (industry f) +:+ " industry"
    else enhancedQuery in
  if JS.truthy (audience f)
  then enhancedQuery +:+ " for " +:+ default "" (audience f)
  else enhancedQuery.

Definition serpItem (img : Serp.image) : Item :=
  mkItem (Serp.original img)
         (Some (JS.or_else (Serp.title img) "Design Inspiration"))
         (Some "Google Images") (Serp.source img) None None [].

Definition fetchSerpAPIImages (w : world) (query : string) (limit : nat)
    (colorHex designStyle : JS.value) (f : filters) : settled (list Item) :=
  Async.tryCatch
    (let params :=
       {| Serp.q := enhanceQuery query colorHex designStyle f;
          Serp.tbs :=
            if JS.truthy (imageSize f)
            then Some ("isz:" +:+ default "" (imageSize f)) else None |} in
     response ← Http.axios (serpapi w params);
     images_results ← Async.property (Serp.images_results response.2);
     mret (serpItem <$> JS.slice0 limit images_results))
    (λ error, mret []).

(** [generateColorPalette] (lines 411-472): the [catch] throws the error
    again. *)

(** [/\[.*?\]/s]: from the first [[] to the first []] after it. *)
Fixpoint upToBracket (s : string) : option string :=
  match s with
  | EmptyString => None
  | String c r =>
      if Ascii.eqb c "]" then Some "]" else String c <$> upToBracket r
  end.

Fixpoint matchArray (s : string) : option string :=
  match s with
  | EmptyString => None
  | String c r =>
      if Ascii.eqb c "[" then String "[" <$> upToBracket r else matchArray r
  end.

Definition role (index : nat) : string :=
  match index with
  | 0 => "Primary"
  | 1 => "Secondary"
  | 2 => "Accent"
  | 3 => "Neutral Light"
  | _ => "Neutral Dark"
  end.

Definition paletteEntry (index : nat) (hex : string) : Item :=
  mkItem None None None None None None
    [("hex", hex); ("name", default "Custom" (keyword hex)); ("role", role index)].

Definition generateColorPalette (w : world) (baseColor : string)
    (theme industry : JS.value) : settled (list Item) :=
  Async.tryCatch
    (response ← Http.axios
       (generateContent w "color palette" [Some baseColor; theme; industry]);
     data ← Async.property response.2;
     let text := JS.or_else (Gemini.text data) "" in
     match matchArray text with
     | None => rejected "Invalid palette format received"
     | Some array =>
         match JSON_parse array with
         | None => rejected "SyntaxError"
         | Some palette => mret (imap paletteEntry palette)
         end
     end)
    (λ error, rejected error).

End adapters.

(** *** The handler of [GET /search] (lines 523-662) *)

Module Call.
Inductive t :=
| getRelatedDesignTerms (q : string) (industry designStyle audience : JS.value)
| scrapeDribbble (query : string) (limit : nat) (colorHex designStyle : JS.value)
| fetchSerpAPIImages (query : string) (limit : nat)
    (colorHex designStyle : JS.value) (f : filters)
| getDesignSuggestions (q : string)
    (industry font color designStyle audience purpose : JS.value)
| scrapeDesignspiration (query : string) (limit : nat)
| scrapeMuzli (query : string) (limit : nat)
| scrapeInstagram (query : string) (limit : nat)
| getFontPairings (designStyle industry : JS.value)
| generateColorPalette (baseColor : string) (theme industry : JS.value).

(** What the promise of a call is fulfilled with.  [getFontPairings]
    gives what [JSON.parse] made of the model's array, whose entries are
    what the model wrote: [None] is an entry [null]; any other entry is
    read through its properties. *)
Definition result (c : t) : Type :=
  match c with
  | getRelatedDesignTerms _ _ _ _ => list string
  | getDesignSuggestions _ _ _ _ _ _ _ => string
  | getFontPairings _ _ => list (option Item)
  | _ => list Item
  end.

(** The adapters that give images. *)
Definition isImageSearch (c : t) : bool :=
  match c with
  | scrapeDribbble _ _ _ _ | fetchSerpAPIImages _ _ _ _ _
  | scrapeDesignspiration _ _ | scrapeMuzli _ _ | scrapeInstagram _ _ => true
  | _ => false
  end.
End Call.

Definition adapters := ∀ c : Call.t, settled (Call.result c).

(** What a promise of [searchPromises] is fulfilled with: an array of
    objects, an array that [JSON.parse] gave, or a text. *)
Inductive slot :=
| Items (l : list Item)
| Parsed (l : list (option Item))
| Text (s : string).

Definition toSlot (c : Call.t) : Call.result c → slot :=
  match c with
  | Call.getRelatedDesignTerms _ _ _ _ =>
      λ terms, Items ((λ t, mkItem None None None None None None [("", t)]) <$> terms)
  | Call.getDesignSuggestions _ _ _ _ _ _ _ => Text
  | Call.getFontPairings _ _ => Parsed
  | _ => Items
  end.

(** [...value]: the elements of an array, the characters of a text. *)
Definition spread (v : slot) : list (option Item) :=
  match v with
  | Items l => Some <$> l
  | Parsed l => l
  | Text s =>
      (λ c, Some (mkItem None None None None None None [("", String c "")]))
        <$> list_ascii_of_string s
  end.

Record body := {
  images : list Item;
  aiSuggestions : slot;
  relatedTerms : list string;
  fontPairings : slot;
  colorPalette : slot
}.

(** The queries (lines 552-554). *)
Definition primaryQuery (req : Req.t) : string :=
  default "" (Req.q req) +:+ " " +:+ JS.or_else (Req.industry req) "" +:+ " "
  +:+ JS.or_else (Req.designStyle req) "" +:+ " design inspiration".

Definition fontQuery (req : Req.t) : option string :=
  if JS.truthy (Req.font req)
  then Some (default "" (Req.font req) +:+ " typography "
             +:+ JS.or_else (Req.industry req) "" +:+ " design")
  else None.

Definition colorQuery (req : Req.t) : option string :=
  if JS.truthy (Req.color req)
  then Some (default "" (Req.color req) +:+ " color palette "
             +:+ JS.or_else (Req.designStyle req) "" +:+ " design")
  else None.

(** The call of line 541, awaited before the others start. *)
Definition relatedCall (req : Req.t) : Call.t :=
  Call.getRelatedDesignTerms (default "" (Req.q req)) (Req.industry req)
    (Req.designStyle req) (Req.audience req).

(** [searchPromises] (lines 557-596): the calls in the order they are
    started. *)
Definition searchCalls (req : Req.t) (relatedTerms : list string)
  : list Call.t :=
  let q := default "" (Req.q req) in
  let color := Req.color req in
  let designStyle := Req.designStyle req in
  let f := {| industry := Req.industry req; audience := Req.audience req;
              imageSize := Req.imageSize req; imageType := Req.imageType req |} in
  [Call.scrapeDribbble (primaryQuery req) 4 color designStyle;
   Call.fetchSerpAPIImages (primaryQuery req) 3 color designStyle f;
   Call.getDesignSuggestions q (Req.industry req) (Req.font req) color
     designStyle (Req.audience req) (Req.purpose req);
   Call.scrapeDesignspiration (primaryQuery req) 3;
   Call.scrapeMuzli (primaryQuery req) 2]
  ++ (if 2 <? String.length q then [Call.scrapeInstagram q 2] else [])
  ++ match fontQuery req with
     | Some query => [Call.fetchSerpAPIImages query 2 None None f]
     | None => []
     end
  ++ match colorQuery req with
     | Some query => [Call.fetchSerpAPIImages query 2 None None f]
     | None => []
     end
  ++ ((λ term, Call.fetchSerpAPIImages (term +:+ " design inspiration") 2
                 color designStyle f) <$> JS.slice0 3 relatedTerms)
  ++ (if negb (JS.truthy (Req.font req))
      then [Call.getFontPairings designStyle (Req.industry req)] else [])
  ++ (if JS.truthy color
      then [Call.generateColorPalette (default "" color) designStyle
              (Req.industry req)]
      else []).

(** The loop of lines 607-617: which entries of [results] are taken for
    images. *)
Definition skipped (req : Req.t) (n i : nat) : bool :=
  (i =? 2)
  || (negb (JS.truthy (Req.font req)) && (i =? n - 1))
  || (JS.truthy (Req.color req) && (i =? n - 1)).

(** [if (results[i].status === 'fulfilled') ... results[i].value] *)
Definition valuesOf (result : settled slot) : list (option Item) :=
  match result with
  | fulfilled value => spread value
  | rejected _ => []
  end.

Definition combine (req : Req.t) (results : list (settled slot))
  : list (option Item) :=
  concat (imap (λ i result,
    if skipped req (length results) i then [] else valuesOf result) results).

(** The loop of lines 619-628 reads [img.image] of every entry of
    [allImages], which throws on [null]. *)
Fixpoint objects (allImages : list (option Item)) : settled (list Item) :=
  match allImages with
  | [] => mret []
  | Some img :: rest => imgs ← objects rest; mret (img :: imgs)
  | None :: _ =>
      rejected "TypeError: Cannot read properties of null (reading 'image')"
  end.

Definition dedupe (allImages : list (option Item)) : settled (list Item) :=
  imgs ← objects allImages; mret (Dedup.uniqueImages image imgs).

(** Lines 630-648. *)
Definition queryWords (q : string) : list string :=
  JS.split " " (JS.toLowerCase q).

(** [queryWords.filter(word => a.title.toLowerCase().includes(word)).length];
    [None] when [a.title] is [undefined] and [toLowerCase] throws. *)
Definition relevance (words : list string) (a : Item) : option nat :=
  t ← title a;
  Some (length (List.filter (λ word, JS.includes (JS.toLowerCase t) word) words)).

Definition byRelevance (words : list string) (a b : Item) : Z :=
  (Z.of_nat (default 0%nat (relevance words b))
   - Z.of_nat (default 0%nat (relevance words a)))%Z.

Definition sourceOrder : list string :=
  ["Dribbble"; "Behance"; "Designspiration"; "Muzli"; "Instagram";
   "Google Images"].

Definition bySource (a b : Item) : Z :=
  (JS.indexOf sourceOrder (source a) - JS.indexOf sourceOrder (source b))%Z.

(** The comparator runs on every element of an array of two or more. *)
Definition sortImages (sortBy : JS.value) (q : string)
    (uniqueImages : list Item) : settled (list Item) :=
  if bool_decide (sortBy = Some "relevance") then
    if (2 <=? length uniqueImages)
       && existsb (λ a, bool_decide (title a = None)) uniqueImages
    then rejected "TypeError: Cannot read properties of undefined"
    else mret (Sort.sort (byRelevance (queryWords q)) uniqueImages)
  else if bool_decide (sortBy = Some "source") then
    mret (Sort.sort bySource uniqueImages)
  else mret uniqueImages.

Section handler.

Variable ad : adapters.

(** How the promise of a call settles. *)
Definition settle (c : Call.t) : settled slot := Async.map (toSlot c) (ad c).

Definition start (c : Call.t) : traced Call.t (settled slot) :=
  Handler.invoke c (settle c).

Fixpoint startAll (cs : list Call.t) : traced Call.t (list (settled slot)) :=
  match cs with
  | [] => mret []
  | c :: rest => p ← start c; ps ← startAll rest; mret (p :: ps)
  end.

Definition search (req : Req.t) : traced Call.t (Handler.response body) :=
  if negb (JS.truthy (Req.q req))
  then mret (Handler.failure 400 "Query is required" None)
  else
    let q := default "" (Req.q req) in
    relatedTerms ← Handler.call (relatedCall req) (ad (relatedCall req));
    searchPromises ← startAll (searchCalls req relatedTerms);
    results ← Handler.await (Async.allSettled searchPromises);
    let last := results !! (length results - 1) in
    let aiSuggestions :=
      match results !! 2 with
      | Some (fulfilled value) => value
      | _ => Text "No AI suggestions available."
      end in
    let fontPairings :=
      match last with
      | Some (fulfilled value) =>
          if negb (JS.truthy (Req.font req)) then value else Items []
      | _ => Items []
      end in
    let colorPalette :=
      match last with
      | Some (fulfilled value) =>
          if JS.truthy (Req.color req) then value else Items []
      | _ => Items []
      end in
    let allImages := combine req results in
    uniqueImages ← Handler.run (dedupe allImages);
    sortedImages ← Handler.run (sortImages (Req.sortBy req) q uniqueImages);
    mret (Handler.json 200
            {| images := JS.slice0 12 sortedImages;
               aiSuggestions := aiSuggestions;
               relatedTerms := relatedTerms;
               fontPairings := fontPairings;
               colorPalette := colorPalette |}).

Definition getSearch (req : Req.t) : list Call.t * Handler.response body :=
  Handler.catch500 "Failed to fetch design inspiration" (search req).

End handler.

(** *** What the properties speak about *)

(** What an image adapter gave: the items of its array when its promise
    is fulfilled, none when it is rejected. *)
Definition given (p : settled (list Item)) : list Item :=
  match p with
  | fulfilled items => items
  | rejected _ => []
  end.

(** The items that the call [c] produced under the adapters [ad], when
    [c] is a call of an image adapter. *)
Definition produced (ad : adapters) (c : Call.t) : list Item :=
  match c with
  | Call.scrapeDribbble query limit colorHex designStyle =>
      given (ad (Call.scrapeDribbble query limit colorHex designStyle))
  | Call.fetchSerpAPIImages query limit colorHex designStyle f =>
      given (ad (Call.fetchSerpAPIImages query limit colorHex designStyle f))
  | Call.scrapeDesignspiration query limit =>
      given (ad (Call.scrapeDesignspiration query limit))
  | Call.scrapeMuzli query limit => given (ad (Call.scrapeMuzli query limit))
  | Call.scrapeInstagram query limit =>
      given (ad (Call.scrapeInstagram query limit))
  | _ => []
  end.

(** The items of the image adapters of the fan-out, in the order of the
    calls. *)
Definition gathered (ad : adapters) (req : Req.t) (relatedTerms : list string)
  : list Item :=
  flat_map (produced ad) (searchCalls req relatedTerms).

(** The font pairings of a request with a colour and no font: the promise
    of [getFontPairings] is then the last but one of [searchPromises], and
    the loop of lines 607-617, which skips the last one only, takes its
    entries for images. *)
Definition strayPairings (ad : adapters) (req : Req.t) : list (option Item) :=
  if negb (JS.truthy (Req.font req)) && JS.truthy (Req.color req)
  then
    match ad (Call.getFontPairings (Req.designStyle req) (Req.industry req)) with
    | fulfilled pairings => pairings
    | rejected _ => []
    end
  else [].

(** A query token appears in a text: somewhere in the text the token
    begins. *)
Definition appearsIn (token text : string) : bool :=
  match String.index 0 token text with
  | Some _ => true
  | None => false
  end.

(** The tokens of a query: its pieces between the spaces, in lower case. *)
Fixpoint tokensFrom (current : string) (s : string) : list string :=
  match s with
  | EmptyString => [current]
  | String c r =>
      if Ascii.eqb c " " then current :: tokensFrom "" r
      else tokensFrom (current +:+ String c "") r
  end.

Definition tokens (q : string) : list string :=
  tokensFrom "" (JS.toLowerCase q).

(** The count of the tokens of the query that appear in the title of an
    item, the case of the letters left aside; no token appears in a title
    that is missing. *)
Definition tokenMatches (q : string) (a : Item) : nat :=
  match title a with
  | Some t =>
      sum_list ((λ token, if appearsIn token (JS.toLowerCase t) then 1 else 0)
                  <$> tokens q)
  | None => 0
  end.

End Updated.

(** ** The first server of [unnamed/part_000] (lines 1-382)

    Its adapters and its query strings are those of [server.js]; the
    palette comes from the simpler [extractColorPalette], and every slot
    has a category of its own. *)

Module Basic.

Section handler.

(** [extractRelatedTerms] (lines 276-302); the handler only passes its
    result on. *)
Variable extractRelatedTerms : string → string → JS.value → JS.value → list string.

Variable ad : Server.adapters.

(** [const freepikAIResults =
       ai === "true" ? await fetchFreepikAIImage(q) : [];] (line 346) *)
Definition freepikAIResults (ai : JS.value) (q : string)
  : traced Server.Call.t (list Item) :=
  if bool_decide (ai = Some "true")
  then Handler.call (Server.Call.fetchFreepikAIImage q)
         (ad (Server.Call.fetchFreepikAIImage q))
  else mret [].

Definition search (req : Req.t)
  : traced Server.Call.t (Handler.response Server.body) :=
  if negb (JS.truthy (Req.q req))
  then mret (Handler.failure 400 "Query is required" None)
  else
    let q := default "" (Req.q req) in
    let industry := Req.industry req in
    let designStyle := Req.designStyle req in
    aiSuggestions ←
      Handler.call (Server.suggestCall req) (ad (Server.suggestCall req));
    let colorPalette := Extract.extractColorPalette aiSuggestions in
    let heading := Extract.extractHeading aiSuggestions in
    let qs := Server.buildQueries req colorPalette in
    p1 ← Handler.invoke (Server.Call.fetchSerpAPIImages (Server.industryFontQuery qs) 10)
           (ad (Server.Call.fetchSerpAPIImages (Server.industryFontQuery qs) 10));
    p2 ← Handler.invoke (Server.Call.fetchSerpAPIImages (Server.colorStyleQuery qs) 10)
           (ad (Server.Call.fetchSerpAPIImages (Server.colorStyleQuery qs) 10));
    p3 ← Handler.invoke (Server.Call.fetchSerpAPIImages (Server.topIndustriesQuery qs) 8)
           (ad (Server.Call.fetchSerpAPIImages (Server.topIndustriesQuery qs) 8));
    p4 ← Handler.invoke (Server.Call.fetchFreepikImages (Server.mainFreepikQuery qs) 10 "")
           (ad (Server.Call.fetchFreepikImages (Server.mainFreepikQuery qs) 10 ""));
    p5 ← Handler.invoke (Server.Call.fetchFreepikImages (Server.colorFreepikQuery qs) 10 "")
           (ad (Server.Call.fetchFreepikImages (Server.colorFreepikQuery qs) 10 ""));
    p6 ← Handler.invoke (Server.Call.fetchFreepikImages (Server.vectorQuery qs) 8 "vector")
           (ad (Server.Call.fetchFreepikImages (Server.vectorQuery qs) 8 "vector"));
    p7 ← Handler.invoke (Server.Call.fetchFreepikImages (Server.psdQuery qs) 8 "psd")
           (ad (Server.Call.fetchFreepikImages (Server.psdQuery qs) 8 "psd"));
    results ← Handler.await (Async.all [p1; p2; p3; p4; p5; p6; p7]);
    let industryFontResults := default [] (results !! 0) in
    let colorStyleResults := default [] (results !! 1) in
    let topIndustriesResults := default [] (results !! 2) in
    let freepikMainResults := default [] (results !! 3) in
    let freepikColorResults := default [] (results !! 4) in
    let freepikVectorResults := default [] (results !! 5) in
    let freepikPsdResults := default [] (results !! 6) in
    freepikAI ← freepikAIResults (Req.ai req) q;
    let relatedTerms := extractRelatedTerms q aiSuggestions industry designStyle in
    let allImages :=
      (with_category "Industry & Font Inspiration" <$> industryFontResults)
      ++ (with_category "Color & Style Inspiration" <$> colorStyleResults)
      ++ (with_category "Industry Examples" <$> topIndustriesResults)
      ++ (with_category "Downloadable Design Resources" <$> freepikMainResults)
      ++ (with_category "Downloadable Color Inspiration" <$> freepikColorResults)
      ++ (with_category_format "Downloadable Vector Resources" "vector"
            <$> freepikVectorResults)
      ++ (with_category_format "Downloadable PSD Templates" "psd"
            <$> freepikPsdResults)
      ++ (with_category_format "AI Generated Designs" "AI Image" <$> freepikAI) in
    mret (Handler.json 200
            {| Server.images := allImages;
               Server.aiSuggestions := aiSuggestions;
               Server.relatedTerms := relatedTerms;
               Server.colorPalette := colorPalette;
               Server.heading := heading |}).

Definition getSearch (req : Req.t)
  : list Server.Call.t * Handler.response Server.body :=
  Handler.catch500 "Failed to fetch design resources" (search req).

End handler.

End Basic.

(** ** Sample configurations *)

Module Sample.

(** A stand-in for [extractRelatedTerms]: no term, and no throw. *)
Definition noTerms (q aiSuggestions : string) (industry designStyle : JS.value)
  : settled (list string) := fulfilled [].

(** Adapters of [server.js] that all succeed: one image per call, named
    after the query. *)
Definition serverAdapters : Server.adapters := λ c,
  match c with
  | Server.Call.getDesignSuggestions _ _ _ _ _ => fulfilled "# Bold"
  | Server.Call.fetchSerpAPIImages query _ =>
      fulfilled [item query "Found" "Google Images"]
  | Server.Call.fetchFreepikImages query _ _ =>
      fulfilled [item query "Resource" "Freepik"]
  | Server.Call.fetchFreepikAIImage prompt =>
      fulfilled [item prompt "AI Generated Design" "Freepik AI"]
  end.

(** The same, but the third call of the fan-out rejects. *)
Definition serverThirdRejects : Server.adapters := λ c,
  match c with
  | Server.Call.fetchSerpAPIImages _ 8 => rejected "Network Error"
  | _ => serverAdapters c
  end.

Definition enhancedAdapters : Enhanced.adapters := λ c,
  match c with
  | Enhanced.Call.getDesignSuggestions _ _ _ _ _ => fulfilled "# Bold"
  | Enhanced.Call.fetchDesignPlatformsInspiration query _ _ _ _ =>
      fulfilled [item query "Pin" "Pinterest"]
  | Enhanced.Call.fetchGoogleImages query _ =>
      fulfilled [item query "Found" "Google Images"]
  | Enhanced.Call.fetchFreepikImages query _ _ =>
      fulfilled [item query "Resource" "Freepik"]
  | Enhanced.Call.fetchFreepikAIImage prompt =>
      fulfilled [item prompt "AI Generated Design" "Freepik AI"]
  end.

(** Adapters of [updatedserver.txt]: Muzli, the fifth of the fan-out,
    rejects; the others succeed. *)
Definition updatedAdapters : Updated.adapters := λ c,
  match c with
  | Updated.Call.getRelatedDesignTerms _ _ _ _ => fulfilled ["brand identity"]
  | Updated.Call.getDesignSuggestions _ _ _ _ _ _ _ => fulfilled "Use teal."
  | Updated.Call.scrapeMuzli _ _ => rejected "Navigation timeout"
  | Updated.Call.scrapeDribbble _ _ _ _ =>
      fulfilled [item "d1.png" "Logo one" "Dribbble";
                 item "d2.png" "Poster" "Dribbble"]
  | Updated.Call.fetchSerpAPIImages query _ _ _ _ =>
      fulfilled [item "d1.png" "Logo one again" "Google Images";
                 item query "Logo set" "Google Images"]
  | Updated.Call.getFontPairings _ _ =>
      fulfilled [Some (mkItem None None None None None None
                         [("headlineFont", "Lora"); ("bodyFont", "Inter")])]
  | Updated.Call.generateColorPalette _ _ _ =>
      rejected "Invalid palette format received"
  | _ => fulfilled []
  end.

(** The providers of [server.js] when SerpAPI is unreachable. *)
Definition serverOffline : Server.world :=
  {| Server.serpapi := λ _, Http.networkError "Network Error";
     Server.head := λ _, Http.timeout "timeout of 5000ms exceeded";
     Server.resources := λ _, Http.response 503 None;
     Server.textToImage := λ _ _, Http.response 200 None |}.

(** The same providers answering: one image, whose probe succeeds. *)
Definition serverOnline : Server.world :=
  {| Server.serpapi := λ _,
       Http.response 200
         {| Server.Serp.images_results :=
              Some [{| Server.Serp.original := Some "https://x/a.png";
                       Server.Serp.title := None;
                       Server.Serp.source := None;
                       Server.Serp.link := Some "https://x" |}] |};
     Server.head := λ _,
       Http.response 200 {| Server.content_type := Some "image/png" |};
     Server.resources := λ _, Http.response 200 None;
     Server.textToImage := λ _ _, Http.response 200 None |}.

(** The providers of [updatedserver.txt] when nothing can be reached. *)
Definition updatedOffline : Updated.world :=
  {| Updated.serpapi := λ _, Http.networkError "Network Error";
     Updated.generateContent := λ _ _, Http.networkError "Network Error";
     Updated.puppeteer :=
       {| Updated.launch := rejected "Failed to launch the browser process";
          Updated.newPage := rejected "Target closed";
          Updated.setUserAgent := rejected "Target closed";
          Updated.goto := λ _, rejected "net::ERR_INTERNET_DISCONNECTED";
          Updated.scrollBy := rejected "Target closed";
          Updated.waitForTimeout := rejected "Target closed";
          Updated.evaluate := λ _ _ _, rejected "Target closed";
          Updated.close := rejected "Target closed" |} |}.

(** Stand-ins for the [color] package and for [JSON.parse]. *)
Definition noKeyword (hex : string) : option string := None.

Definition noParse (text : string) : option (list string) := None.

(** A request for "logo" with a font, sorted by relevance. *)
Definition logo : Req.t :=
  Req.mk (Some "logo") None (Some "serif") None None None None None None
         (Some "relevance") None None.

End Sample.
(** ** More of [updatedserver.txt] *)

Module UpdatedMore.

(** What the handler reads in the last entry of [results] (lines 603-604):
    how the promise of the last call of [searchPromises] settled. *)
Definition lastResult (ad : Updated.adapters) (req : Req.t)
    (relatedTerms : list string) : option (settled Updated.slot) :=
  last (Updated.settle ad <$> Updated.searchCalls req relatedTerms).

(** [sourceOrder.indexOf(a.source)] (line 645). *)
Definition sourceRank (a : Item) : Z :=
  JS.indexOf Updated.sourceOrder (source a).

End UpdatedMore.

(** ** More sample configurations *)

Module Scenario.

(** A request for "logo" with a colour and no font. *)
Definition logoInBlue : Req.t :=
  Req.mk (Some "logo") None None (Some "#336699") None None None None None
         None None None.

(** The same request, sorted by relevance. *)
Definition logoInBlueByRelevance : Req.t :=
  Req.mk (Some "logo") None None (Some "#336699") None None None None None
         (Some "relevance") None None.

(** The adapters of [Sample.updatedAdapters], but the palette arrives. *)
Definition withPalette : Updated.adapters := λ c,
  match c return settled (Updated.Call.result c) with
  | Updated.Call.generateColorPalette baseColor _ _ =>
      fulfilled [mkItem None None None None None None
                   [("hex", baseColor); ("name", "Custom"); ("role", "Primary")]]
  | call => Sample.updatedAdapters call
  end.

(** The same adapters, but the model's array of font pairings holds a
    [null]. *)
Definition nullPairing : Updated.adapters := λ c,
  match c return settled (Updated.Call.result c) with
  | Updated.Call.getFontPairings _ _ => fulfilled [None]
  | call => withPalette call
  end.

(** A request for "logo" in the industry "Constructor". *)
Definition logoForConstructor : Req.t :=
  Req.mk (Some "logo") (Some "Constructor") None None None None None None
         None None None None.

(** The adapters of [Sample.serverAdapters], but the search for the top
    industries, the one with a limit of 8, finds other images. *)
Definition otherTopIndustries : Server.adapters := λ c,
  match c return settled (Server.Call.result c) with
  | Server.Call.fetchSerpAPIImages _ 8 =>
      fulfilled [item "t1.png" "Fintech" "Google Images";
                 item "t2.png" "Retail" "Google Images"]
  | call => Sample.serverAdapters call
  end.

(** The providers of [server.js] when Freepik answers with two resources,
    the second without an image. *)
Definition freepikOnline : Server.world :=
  {| Server.serpapi := λ _, Http.networkError "Network Error";
     Server.head := λ _, Http.timeout "timeout of 5000ms exceeded";
     Server.resources := λ _,
       Http.response 200
         (Some {| Server.Freepik.data :=
                    Some [{| Server.Freepik.image_source_url := None;
                             Server.Freepik.image_regular_url :=
                               Some "https://img.freepik.com/a.jpg";
                             Server.Freepik.title := Some "Badge";
                             Server.Freepik.url := None;
                             Server.Freepik.username := None;
                             Server.Freepik.resource_format := None;
                             Server.Freepik.is_premium := false |};
                          {| Server.Freepik.image_source_url := None;
                             Server.Freepik.image_regular_url := None;
                             Server.Freepik.title := Some "Ghost";
                             Server.Freepik.url := None;
                             Server.Freepik.username := None;
                             Server.Freepik.resource_format := None;
                             Server.Freepik.is_premium := true |}] |});
     Server.textToImage := λ _ _, Http.response 200 None |}.

(** Two results of Google Custom Search on two sites. *)
Definition resultA : Enhanced.Cse.item :=
  {| Enhanced.Cse.link := Some "https://www.a.com/1.png";
     Enhanced.Cse.title := Some "One";
     Enhanced.Cse.contextLink := None;
     Enhanced.Cse.displayLink := Some "www.a.com";
     Enhanced.Cse.snippet := None |}.

Definition resultB : Enhanced.Cse.item :=
  {| Enhanced.Cse.link := Some "https://www.b.org/2.png";
     Enhanced.Cse.title := Some "Two";
     Enhanced.Cse.contextLink := None;
     Enhanced.Cse.displayLink := Some "www.b.org";
     Enhanced.Cse.snippet := None |}.

(** Google Custom Search answering the first query for Pinterest with one
    pin and the second with another. *)
Definition pinterestOnline : Enhanced.world :=
  {| Enhanced.customsearch := λ params,
       Http.response 200
         (Some {| Enhanced.Cse.items :=
                    Some [{| Enhanced.Cse.link :=
                               Some (if String.eqb (Enhanced.Cse.q params)
                                          "logo design site:pinterest.com"
                                     then "https://i.pinimg.com/736x/aa.jpg"
                                     else "https://i.pinimg.com/736x/bb.jpg");
                             Enhanced.Cse.title := Some "Logo | Pinterest";
                             Enhanced.Cse.contextLink := None;
                             Enhanced.Cse.displayLink := None;
                             Enhanced.Cse.snippet := None |}] |}) |}.

End Scenario.

(** ** [Buffer] of Node

    [Buffer.from(s).toString('base64')]: the UTF-8 bytes of the string, in
    base 64 with padding. *)

Module Node.

(** The UTF-8 bytes of a code unit below 256. *)
Definition utf8 (c : ascii) : list nat :=
  let n := nat_of_ascii c in
  if n <? 128 then [n] else [192 + n / 64; 128 + n mod 64].

(** [Buffer.from(s)] *)
Definition bytes (s : string) : list nat :=
  flat_map utf8 (list_ascii_of_string s).

Definition alphabet : string :=
  "ABCDEFGHIJKLMNOPQRSTUVWXYZabcdefghijklmnopqrstuvwxyz0123456789+/".

(** The digit of a value below 64. *)
Definition digit (n : nat) : ascii := default "="%char (String.get n alphabet).

(** Three bytes give four digits; one or two bytes at the end are padded
    with [=]. *)
Fixpoint encode (bs : list nat) : string :=
  match bs with
  | [] => ""
  | [a] =>
      String (digit (a / 4)) (String (digit (a mod 4 * 16)) "==")
  | [a; b] =>
      String (digit (a / 4))
        (String (digit (a mod 4 * 16 + b / 16))
           (String (digit (b mod 16 * 4)) "="))
  | a :: b :: c :: rest =>
      String (digit (a / 4))
        (String (digit (a mod 4 * 16 + b / 16))
           (String (digit (b mod 16 * 4 + c / 64))
              (String (digit (c mod 64)) (encode rest))))
  end.

Definition base64 (s : string) : string := encode (bytes s).

(** The code units of [s] are ASCII. *)
Definition isAscii (s : string) : bool :=
  JS.allChars (λ c, nat_of_ascii c <? 128) s.

End Node.

(** ** The text of the suggestions ([server.js] and [unnamed/part_000])

    [makeLinksClickable] and the replacements at the end of
    [getDesignSuggestions] (lines 155-157 and 357-364 of [server.js]). *)

Module Markup.

(** The double quote. *)
Definition quote : ascii := "034".

(** [<a href="href" target="_blank" rel="noopener noreferrer">text</a>] *)
Definition anchor (href text : string) : string :=
  "<a href=" +:+ String quote href
  +:+ String quote " target=" +:+ String quote "_blank"
  +:+ String quote " rel=" +:+ String quote "noopener noreferrer"
  +:+ String quote ">" +:+ text +:+ "</a>".

(** The longest run of characters in the class [p] at the start of [s]. *)
Fixpoint run (p : ascii → bool) (s : string) : string :=
  match s with
  | EmptyString => EmptyString
  | String c r => if p c then String c (run p r) else EmptyString
  end.

(** [[^\s]+] after [scheme] at the start of [s]: the match, if there is
    one. *)
Definition urlAfter (scheme s : string) : option string :=
  r ← JS.dropPrefix scheme s;
  match run (λ c, negb (JS.is_space c)) r with
  | EmptyString => None
  | rest => Some (scheme +:+ rest)
  end.

(** [https?:\/\/[^\s]+] at the start of [s]: the [s] of the scheme is tried
    first. *)
Definition urlAt (s : string) : option string :=
  match urlAfter "https://" s with
  | Some url => Some url
  | None => urlAfter "http://" s
  end.

(** [text.replace(/(https?:\/\/[^\s]+)/g, '<a href="$1" ...>$1</a>')]: the
    matches from left to right, the search resuming after each match
    ([skip] characters are still covered by the last match). *)
Fixpoint linkFrom (skip : nat) (s : string) : string :=
  match s with
  | EmptyString => EmptyString
  | String c r =>
      match skip with
      | S k => linkFrom k r
      | 0 =>
          match urlAt s with
          | Some url => anchor url url +:+ linkFrom (String.length url - 1) r
          | None => String c (linkFrom 0 r)
          end
      end
  end.

Definition makeLinksClickable (text : string) : string := linkFrom 0 text.

(** A text with no "http" in it. *)
Definition plain (s : string) : Prop := JS.includes s "http" = false.

(** *** The replacements of [getDesignSuggestions] (lines 357-364) *)

(** [s.replace(regex, replacement)] for a global regex that matches no
    empty string: [matchAt] gives, for a match at the start of its
    argument, what replaces it and how many characters it covers. *)
Fixpoint replaceAll (matchAt : string → option (string * nat)) (skip : nat)
    (s : string) : string :=
  match s with
  | EmptyString => EmptyString
  | String c r =>
      match skip with
      | S k => replaceAll matchAt k r
      | 0 =>
          match matchAt s with
          | Some (replacement, covered) =>
              replacement +:+ replaceAll matchAt (covered - 1) r
          | None => String c (replaceAll matchAt 0 r)
          end
      end
  end.

(** What follows the run of [p] at the start of [s]. *)
Fixpoint afterRun (p : ascii → bool) (s : string) : string :=
  match s with
  | EmptyString => EmptyString
  | String c r => if p c then afterRun p r else s
  end.

(** [/\*\*/g], replaced by nothing. *)
Definition starsAt (s : string) : option (string * nat) :=
  _ ← JS.dropPrefix "**" s; Some ("", 2).

(** [/\[([^\]]+)\]\(([^)]+)\)/g], replaced by
    [<a href="$2" ...>$1</a>]. *)
Definition markdownLinkAt (s : string) : option (string * nat) :=
  r ← JS.dropPrefix "[" s;
  let text := run (λ c, negb (Ascii.eqb c "]")) r in
  if String.eqb text "" then None else
  r ← JS.dropPrefix "](" (afterRun (λ c, negb (Ascii.eqb c "]")) r);
  let href := run (λ c, negb (Ascii.eqb c ")")) r in
  if String.eqb href "" then None else
  _ ← JS.dropPrefix ")" (afterRun (λ c, negb (Ascii.eqb c ")")) r);
  Some (anchor href text, String.length text + String.length href + 4).

(** [/# ([^\n]+)/g] and [/## ([^\n]+)/g], replaced by [<h1>$1</h1>] and
    [<h2>$1</h2>]. *)
Definition headingAt (marker tag : string) (s : string)
  : option (string * nat) :=
  r ← JS.dropPrefix marker s;
  let line := run (λ c, negb (JS.is_lf c)) r in
  if String.eqb line "" then None
  else Some ("<" +:+ tag +:+ ">" +:+ line +:+ "</" +:+ tag +:+ ">",
             String.length marker + String.length line).

(** The five replacements, in the order of the source. *)
Definition formatSuggestions (aiText : string) : string :=
  let aiText := replaceAll starsAt 0 aiText in
  let aiText := replaceAll markdownLinkAt 0 aiText in
  let aiText := makeLinksClickable aiText in
  let aiText := replaceAll (headingAt "# " "h1") 0 aiText in
  replaceAll (headingAt "## " "h2") 0 aiText.

(** [response.data.candidates?.[0]?.content?.parts?.[0]?.text], of a
    payload that may be missing. *)
Record payload := { text : JS.value }.

(** [getDesignSuggestions] of [server.js] (lines 294-367), on what the
    request to Gemini gives. *)
Definition getDesignSuggestions (gemini : Http.outcome (option payload))
  : settled string :=
  Async.tryCatch
    (response ← Http.axios gemini;
     data ← Async.property response.2;
     let aiText := JS.or_else (text data) "No AI suggestions available." in
     mret (formatSuggestions aiText))
    (λ error, mret "Could not generate AI suggestions.").

(** A line that the first three replacements leave as it is and that the
    last two can take for the text of a heading: not empty, with no line
    terminator, asterisk, opening bracket or hash, and without "http". *)
Definition title (s : string) : Prop :=
  s ≠ ""
  ∧ JS.allChars (λ c, negb (JS.in_codes [10; 13; 35; 42; 91] c)) s = true
  ∧ plain s.

End Markup.

(** ** Related terms

    [extractRelatedTerms] of the first server of [unnamed/part_000] (lines
    276-303) and [nlpUtils.extractEnhancedTerms] of [server.js] (lines
    33-77). *)

Module Terms.

(** [s.split(/\s+/)]: the pieces between the runs of white space;
    [afterSpace] tells whether the character before is white space. *)
Fixpoint splitSpaces (afterSpace : bool) (s : string) : list string :=
  match s with
  | EmptyString => [""]
  | String c r =>
      if JS.is_space c then
        if afterSpace then splitSpaces true r else "" :: splitSpaces true r
      else
        match splitSpaces false r with
        | piece :: pieces => String c piece :: pieces
        | [] => [String c ""]
        end
  end.

(** [query.toLowerCase().split(/\s+/).filter(word => word.length > 3)] *)
Definition queryWords (query : string) : list string :=
  List.filter (λ word, 3 <? String.length word)
    (splitSpaces false (JS.toLowerCase query)).

(** A global, case-insensitive regex of alternatives in lower case that
    begin and end with a letter, between two [\b] when [bounded]: the
    alternative that matches at the start of [s]. *)
Definition alternativeAt (alternatives : list string) (bounded : bool)
    (s : string) : option string :=
  List.find (λ alternative,
    match Extract.prefixIgnoreCase alternative s with
    | Some after => if bounded then Extract.boundaryBefore after else true
    | None => false
    end) alternatives.

(** [(text.match(regex) || []).map(s => s.toLowerCase())]: the matches from
    left to right, each the alternative it matched. *)
Fixpoint matchesFrom (alternatives : list string) (bounded : bool)
    (prevWord : bool) (skip : nat) (s : string) : list string :=
  match s with
  | EmptyString => []
  | String c r =>
      match skip with
      | S k => matchesFrom alternatives bounded (JS.is_word c) k r
      | 0 =>
          if bounded && prevWord
          then matchesFrom alternatives bounded (JS.is_word c) 0 r
          else
            match alternativeAt alternatives bounded s with
            | Some alternative =>
                alternative
                :: matchesFrom alternatives bounded (JS.is_word c)
                     (String.length alternative - 1) r
            | None => matchesFrom alternatives bounded (JS.is_word c) 0 r
            end
      end
  end.

Definition styleAlternatives : list string :=
  ["modern"; "minimal"; "bold"; "elegant"; "vintage"; "retro"; "futuristic";
   "organic"; "geometric"; "flat"; "gradient"; "monochrome"; "vibrant";
   "brutalist"; "neomorphic"; "neumorphic"; "glassmorphism"; "skeuomorphic"].

Definition fontAlternatives : list string :=
  ["montserrat"; "roboto"; "helvetica"; "arial"; "open sans"; "lato";
   "poppins"; "raleway"; "playfair"; "garamond"; "futura"; "proxima nova";
   "serif"; "sans-serif"; "slab serif"].

(** The terms before the duplicates go (lines 292-298). *)
Definition allTerms (query aiSuggestions : string)
    (industry designStyle : JS.value) : list string :=
  let aiStyles := matchesFrom styleAlternatives false false 0 aiSuggestions in
  let aiFonts := matchesFrom fontAlternatives true false 0 aiSuggestions in
  let industryTerms :=
    if JS.truthy industry then [default "" industry +:+ " design"] else [] in
  let styleTerms :=
    if JS.truthy designStyle then [default "" designStyle +:+ " design"]
    else [] in
  ((λ word, word +:+ " design") <$> queryWords query)
  ++ ((λ style, style +:+ " design") <$> aiStyles)
  ++ ((λ font, font +:+ " typography") <$> aiFonts)
  ++ industryTerms ++ styleTerms.

(** [[...new Set(allTerms)].slice(0, 10)] *)
Definition extractRelatedTerms (query aiSuggestions : string)
    (industry designStyle : JS.value) : list string :=
  JS.slice0 10
    (Dedup.setSpread (allTerms query aiSuggestions industry designStyle)).

(** *** [nlpUtils.extractEnhancedTerms] *)

Definition synonymMappings : list (string * list string) :=
  [("design", ["creative"; "visual"; "artistic"; "graphic"; "conceptual"]);
   ("brand", ["identity"; "branding"; "corporate"; "image"]);
   ("style", ["aesthetic"; "look"; "theme"; "feel"; "approach"]);
   ("logo", ["emblem"; "mark"; "insignia"; "symbol"]);
   ("color", ["palette"; "scheme"; "tone"; "hue"; "shade"])].

Definition ownExpansions : list (string * list string) :=
  [("tech", ["digital"; "interface"; "ui"; "ux"; "app"; "software";
             "innovation"]);
   ("fashion", ["clothing"; "apparel"; "trend"; "style"; "couture"; "runway"]);
   ("food", ["culinary"; "restaurant"; "menu"; "cuisine"; "gourmet";
             "branding"]);
   ("education", ["learning"; "academic"; "training"; "course";
                  "instructional"])].

(** The properties in lower case that the object literal
    [contextExpansions] inherits from [Object.prototype]: a function and an
    object, both truthy and neither with a [forEach]. *)
Definition inherited : list string := ["constructor"; "__proto__"].

(** [const industryTerms = contextExpansions[industry.toLowerCase()] || [];
     industryTerms.forEach(...)]: the terms to go through, or the
    [TypeError] when [industryTerms] is no array. *)
Definition industryTerms (industry : string) : settled (list string) :=
  let key := JS.toLowerCase industry in
  if bool_decide (key ∈ inherited)
  then rejected "TypeError: industryTerms.forEach is not a function"
  else mret (default [] (snd <$> List.find (λ p, String.eqb p.1 key)
                                   ownExpansions)).

(** The [forEach] of line 61 throws: the industry is given and names, in
    lower case, a property that [contextExpansions] inherits. *)
Definition throws (industry : JS.value) : Prop :=
  JS.truthy industry = true
  ∧ JS.toLowerCase (default "" industry) ∈ inherited.

Section nlp.

(** [natural.WordTokenizer.tokenize] and [natural.PorterStemmer.stem], of
    the [natural] package. *)
Variable tokenize : string → list string.
Variable stem : string → string.

(** What one token adds to the set (lines 52-65), in the order of the
    insertions. *)
Definition tokenTerms (industry : JS.value) (token : string)
  : settled (list string) :=
  let synonyms :=
    flat_map (λ mapping : string * list string,
                if JS.includes token mapping.1
                then (λ syn, syn +:+ " design") <$> mapping.2 else [])
      synonymMappings in
  if JS.truthy industry then
    terms ← industryTerms (default "" industry);
    mret ((token +:+ " design") :: synonyms
          ++ ((λ term, token +:+ " " +:+ term) <$> terms))
  else mret ((token +:+ " design") :: synonyms).

Definition extractEnhancedTerms (query : string)
    (industry designStyle : JS.value) : settled (list string) :=
  let tokens := tokenize (JS.toLowerCase query) in
  let stemmedTokens := stem <$> tokens in
  added ← Enhanced.mapM (tokenTerms industry) stemmedTokens;
  let enhancedTerms :=
    concat added
    ++ (if JS.truthy designStyle then [default "" designStyle +:+ " design"]
        else [])
    ++ (if JS.truthy industry then [default "" industry +:+ " design"]
        else []) in
  mret (JS.slice0 15 (Dedup.setSpread enhancedTerms)).

End nlp.

(** Stand-ins for the tokenizer and the stemmer: the words between spaces,
    left as they are. *)
Definition words (s : string) : list string :=
  List.filter (λ w, negb (String.eqb w "")) (JS.split " " s).

End Terms.

(** [extractRelatedTerms] of [server.js] (lines 369-371) and of the second
    server of [unnamed/part_000] (lines 906-908): the function that the
    handlers of these two servers call. *)
Module Related.

Definition extractRelatedTerms (tokenize : string → list string)
    (stem : string → string) (query aiSuggestions : string)
    (industry designStyle : JS.value) : settled (list string) :=
  Terms.extractEnhancedTerms tokenize stem query industry designStyle.

End Related.

(** ** The other adapters and routes of [updatedserver.txt] *)

Module Routes.

(** [getRelatedDesignTerms] (lines 373-408). *)
Definition getRelatedDesignTerms (w : Updated.world) (query : string)
    (industry designStyle audience : JS.value) : settled (list string) :=
  Async.tryCatch
    (response ← Http.axios
       (Updated.generateContent w "related terms"
          [Some query; industry; designStyle; audience]);
     data ← Async.property response.2;
     let text := JS.or_else (Updated.Gemini.text data) "" in
     mret (List.filter (λ term, 0 <? String.length term)
             (JS.trim <$> JS.split "," text)))
    (λ error, mret []).

Section parsers.

(** [color(hex).keyword()] and [JSON.parse] on the text of an array of
    strings, as in [Updated]; [JSON.parse] on the text of any array, whose
    entries may be [null]: [None] when it throws. *)
Variable keyword : string → option string.
Variable JSON_parse : string → option (list string).
Variable JSON_parse_objects : string → option (list (option Item)).

(** [getFontPairings] (lines 475-520). *)
Definition getFontPairings (w : Updated.world) (designStyle industry : JS.value)
  : settled (list (option Item)) :=
  Async.tryCatch
    (response ← Http.axios
       (Updated.generateContent w "font pairings" [designStyle; industry]);
     data ← Async.property response.2;
     let text := JS.or_else (Updated.Gemini.text data) "" in
     match Updated.matchArray text with
     | None => rejected "Invalid font pairing format received"
     | Some array =>
         match JSON_parse_objects array with
         | None => rejected "SyntaxError"
         | Some pairings => mret pairings
         end
     end)
    (λ error, mret []).

(** [GET /color-palette] (lines 665-676). *)
Definition getColorPalette (w : Updated.world) (baseColor theme industry : JS.value)
  : Handler.response (list Item) :=
  if negb (JS.truthy baseColor)
  then Handler.failure 400 "Base color is required" None
  else
    match Updated.generateColorPalette keyword JSON_parse w
            (default "" baseColor) theme industry with
    | fulfilled palette => Handler.json 200 palette
    | rejected message =>
        Handler.failure 500 "Failed to generate color palette" (Some message)
    end.

(** [GET /font-pairings] (lines 679-688). *)
Definition getFontPairingsRoute (w : Updated.world)
    (designStyle industry : JS.value)
  : Handler.response (list (option Item)) :=
  match getFontPairings w designStyle industry with
  | fulfilled pairings => Handler.json 200 pairings
  | rejected message =>
      Handler.failure 500 "Failed to get font pairings" (Some message)
  end.

End parsers.

(** [query.replace(/[^a-zA-Z0-9]/g, '').toLowerCase()] (lines 272 and
    883): the hashtag of [scrapeInstagram] and [scrapeInstagramTrends]. *)
Definition is_alnum (c : ascii) : bool :=
  JS.in_range "a" "z" c || JS.in_range "A" "Z" c || JS.in_range "0" "9" c.

Fixpoint keep (p : ascii → bool) (s : string) : string :=
  match s with
  | EmptyString => EmptyString
  | String c r => if p c then String c (keep p r) else keep p r
  end.

Definition hashtag (query : string) : string :=
  JS.toLowerCase (keep is_alnum query).

(** [scrapeMuzli] (lines 207-264): [initBrowser] runs before the [try]
    when the shared [browser] is not set; the script gets the query and
    the limit. *)
Definition scrapeMuzli (w : Updated.world) (browser : bool)
    (query : string) (limit : nat) : settled (list Item) :=
  _ ← (if browser then mret ()
       else Updated.launch (Updated.puppeteer w));
  Async.tryCatch
    (let url := "https://muz.li/" in
     _ ← Updated.newPage (Updated.puppeteer w);
     _ ← Updated.setUserAgent (Updated.puppeteer w);
     _ ← Updated.goto (Updated.puppeteer w) url;
     results ← Updated.evaluate (Updated.puppeteer w) url [Some query] limit;
     _ ← Updated.close (Updated.puppeteer w);
     mret results)
    (λ error, mret []).

(** [scrapeInstagram] (lines 267-318): the same start; the page is
    scrolled and given two seconds before the script runs.  The wait for
    the selector has a [catch] of its own and stops nothing. *)
Definition scrapeInstagram (w : Updated.world) (browser : bool)
    (query : string) (limit : nat) : settled (list Item) :=
  _ ← (if browser then mret ()
       else Updated.launch (Updated.puppeteer w));
  Async.tryCatch
    (let url :=
       "https://www.instagram.com/explore/tags/" +:+ hashtag query +:+ "/" in
     _ ← Updated.newPage (Updated.puppeteer w);
     _ ← Updated.setUserAgent (Updated.puppeteer w);
     _ ← Updated.goto (Updated.puppeteer w) url;
     _ ← Updated.scrollBy (Updated.puppeteer w);
     _ ← Updated.waitForTimeout (Updated.puppeteer w);
     results ← Updated.evaluate (Updated.puppeteer w) url [] limit;
     _ ← Updated.close (Updated.puppeteer w);
     mret results)
    (λ error, mret []).

(** *** The scripts that run in the page

    The nodes that [querySelectorAll] finds, as far as the scripts read
    them: [img] is the [src] of the node's image, when it has one;
    [caption] the text of its title element; [href] the address of its
    link. *)
Record node := {
  img : option string;
  caption : option string;
  href : option string
}.

(** The script of [scrapeMuzli] (lines 221-256): the loop with its [data]
    so far. *)
Definition muzliTitle (n : node) : string :=
  match caption n with
  | Some text => JS.trim text
  | None => "Muzli Design"
  end.

Definition muzliItem (n : node) (image : string) : Item :=
  mkItem (Some image) (Some (muzliTitle n)) (Some "Muzli")
         (Some (JS.or_else (href n) "")) None None [].

Fixpoint muzliLoop (queryWords : list string) (limit : nat)
    (data : list Item) (items : list node) : list Item :=
  match items with
  | [] => data
  | n :: rest =>
      match img n with
      | None => muzliLoop queryWords limit data rest
      | Some image =>
          let titleLower := JS.toLowerCase (muzliTitle n) in
          let isRelevant :=
            existsb (λ word, JS.includes titleLower word) queryWords in
          let data :=
            if isRelevant || (2 * length data <? limit)
            then data ++ [muzliItem n image] else data in
          if limit <=? length data then data
          else muzliLoop queryWords limit data rest
      end
  end.

Definition muzliScript (query : string) (limit : nat) (items : list node)
  : list Item :=
  muzliLoop (JS.split " " (JS.toLowerCase query)) limit [] items.

End Routes.

(** ** Sample replies *)

Module Replies.

(** The providers of [updatedserver.txt] when only Gemini answers, with
    [text]. *)
Definition geminiSays (text : string) : Updated.world :=
  {| Updated.serpapi := Updated.serpapi Sample.updatedOffline;
     Updated.generateContent := λ _ _,
       Http.response 200 (Some {| Updated.Gemini.text := Some text |});
     Updated.puppeteer := Updated.puppeteer Sample.updatedOffline |}.

(** Three grid items of a page: a poster, an item without an image, and
    a photograph whose title has no word of a design query. *)
Definition muzliPage : list Routes.node :=
  [{| Routes.img := Some "https://muz.li/1.png";
      Routes.caption := Some " Poster ";
      Routes.href := Some "https://muz.li/1" |};
   {| Routes.img := None;
      Routes.caption := Some "Logo design";
      Routes.href := None |};
   {| Routes.img := Some "https://muz.li/3.png";
      Routes.caption := Some "Mountains";
      Routes.href := None |}].

End Replies.

(** * Part II: lemmas and theorems *)

(** ** Strings *)

Lemma string_app_assoc (a b c : string) :
  (a +:+ b) +:+ c = a +:+ (b +:+ c).
Proof.
  induction a as [|x a IH]; [done|].
  change (String x ((a +:+ b) +:+ c) = String x (a +:+ (b +:+ c))).
  by f_equal.
Qed.

Lemma string_app_nil_r (a : string) : a +:+ "" = a.
Proof.
  induction a as [|x a IH]; [done|].
  change (String x (a +:+ "") = String x a). by f_equal.
Qed.

Lemma string_app_length (a b : string) :
  String.length (a +:+ b) = String.length a + String.length b.
Proof.
  induction a as [|x a IH]; [done|].
  change (S (String.length (a +:+ b)) = S (String.length a + String.length b)).
  by rewrite IH.
Qed.

Lemma split_not_nil (sep : ascii) (s : string) : JS.split sep s ≠ [].
Proof.
  destruct s as [|c r]; [done|]. cbn [JS.split].
  destruct (Ascii.eqb c sep); [done|]. by destruct (JS.split sep r).
Qed.

(** ** Deduplication *)

Section dedup_facts.
Context {A K : Type} `{Countable K}.
Variable image : A → K.
Variable truthy : K → bool.

Local Abbreviation with_key := (Dedup.with_key image).
Local Abbreviation earliest := (Dedup.earliest image).
Local Abbreviation fresh := (Dedup.fresh image).
Local Abbreviation uniqueImages := (Dedup.uniqueImages image).
Local Abbreviation filterDuplicates := (Dedup.filterDuplicates image truthy).
Local Abbreviation filterDuplicatesAll := (Dedup.filterDuplicatesAll image truthy).

Lemma uniqueLoop_fresh (l : list A) : ∀ seen acc,
  (Dedup.uniqueLoop image (seen, acc) l).2 = acc ++ fresh seen l.
Proof.
  induction l as [|img l IH]; intros seen acc; simpl.
  - by rewrite app_nil_r.
  - unfold Dedup.uniqueLoop in *. simpl. case_bool_decide.
    + apply IH.
    + rewrite IH. by rewrite <- app_assoc.
Qed.

Lemma uniqueImages_fresh (l : list A) : uniqueImages l = fresh ∅ l.
Proof. unfold Dedup.uniqueImages. by rewrite uniqueLoop_fresh. Qed.

Lemma with_key_cons k img (l : list A) :
  with_key k (img :: l) =
    if decide (image img = k) then img :: with_key k l else with_key k l.
Proof. unfold Dedup.with_key. by rewrite filter_cons. Qed.

Lemma with_key_app k (l1 l2 : list A) :
  with_key k (l1 ++ l2) = with_key k l1 ++ with_key k l2.
Proof. unfold Dedup.with_key. apply filter_app. Qed.

Lemma fresh_seen_key k (l : list A) : ∀ seen,
  k ∈ seen → with_key k (fresh seen l) = [].
Proof.
  induction l as [|img l IH]; intros seen Hk; simpl; [done|].
  case_bool_decide as Hin.
  - by apply IH.
  - rewrite with_key_cons. destruct (decide (image img = k)) as [<-|Hne].
    + contradiction.
    + apply IH. apply elem_of_union. by right.
Qed.

(** The items of the output with a given key: none when the key has been
    seen, the earliest item of the input otherwise. *)
Lemma fresh_with_key k (l : list A) : ∀ seen,
  with_key k (fresh seen l) =
    if decide (k ∈ seen) then [] else option_list (earliest k l).
Proof.
  induction l as [|img l IH]; intros seen; simpl.
  - by case_decide.
  - unfold Dedup.earliest. rewrite (with_key_cons k img l).
    case_bool_decide as Hin.
    + rewrite IH. destruct (decide (k ∈ seen)) as [|Hk]; [done|].
      destruct (decide (image img = k)) as [<-|Hne]; [contradiction|done].
    + rewrite with_key_cons.
      destruct (decide (image img = k)) as [<-|Hne].
      * rewrite (decide_False (P := image img ∈ seen)) by done. simpl.
        rewrite fresh_seen_key; [done|].
        apply elem_of_union. left. by apply elem_of_singleton.
      * rewrite IH. destruct (decide (k ∈ seen)) as [Hk|Hk].
        -- rewrite decide_True; [done|]. apply elem_of_union. by right.
        -- rewrite decide_False; [done|].
           intros [Hs|Hs]%elem_of_union; [|done].
           apply elem_of_singleton in Hs. by apply Hne.
Qed.

Lemma fresh_sublist (l : list A) : ∀ seen, fresh seen l `sublist_of` l.
Proof.
  induction l as [|img l IH]; intros seen; simpl; [constructor|].
  case_bool_decide.
  - apply sublist_cons, IH.
  - apply sublist_skip, IH.
Qed.

(** The keys of the output are distinct and were not seen before. *)
Lemma fresh_keys (l : list A) : ∀ seen,
  NoDup (image <$> fresh seen l)
  ∧ ∀ k, k ∈ image <$> fresh seen l → k ∉ seen.
Proof.
  induction l as [|img l IH]; intros seen; simpl.
  - split; [constructor|]. intros k Hk. by apply elem_of_nil in Hk.
  - case_bool_decide as Hin; [apply IH|].
    destruct (IH ({[ image img ]} ∪ seen)) as [Hnd Hfresh].
    simpl. split.
    + constructor; [|done]. intros Hk. apply (Hfresh _ Hk).
      apply elem_of_union. left. by apply elem_of_singleton.
    + intros k [->|Hk]%elem_of_cons; [done|].
      intros Hs. apply (Hfresh _ Hk). apply elem_of_union. by right.
Qed.

Lemma earliest_Some k (l : list A) :
  k ∈ image <$> l → ∃ img, earliest k l = Some img.
Proof.
  induction l as [|a l IH]; simpl; intros Hk.
  - by apply elem_of_nil in Hk.
  - unfold Dedup.earliest. rewrite with_key_cons.
    destruct (decide (image a = k)) as [Ha|Ha]; [by eexists|].
    apply elem_of_cons in Hk as [Hk|Hk]; [by symmetry in Hk|by apply IH].
Qed.

Lemma uniqueImages_one_per_key (l : list A) :
  Dedup.one_per_key_earliest image l (uniqueImages l).
Proof.
  intros k Hk. destruct (earliest_Some k l Hk) as [img Himg].
  exists img. split; [|done].
  rewrite uniqueImages_fresh, fresh_with_key.
  rewrite decide_False by apply not_elem_of_empty.
  by rewrite Himg.
Qed.

(** [filterDuplicates]: the same, for the keys that are truthy. *)
Lemma filterDuplicates_with_key k (l : list A) : ∀ seen,
  with_key k (filterDuplicates seen l).1 =
    if truthy k && bool_decide (k ∉ seen)
    then option_list (earliest k l) else [].
Proof.
  induction l as [|img l IH]; intros seen; simpl.
  - by destruct (truthy k && _).
  - unfold Dedup.earliest. rewrite (with_key_cons k img l).
    destruct (truthy (image img)) eqn:Ht; simpl.
    + case_bool_decide as Hin; simpl.
      * rewrite IH. destruct (decide (image img = k)) as [<-|Hne]; [|done].
        rewrite Ht. simpl. rewrite bool_decide_eq_false_2; [done|]. tauto.
      * specialize (IH ({[ image img ]} ∪ seen)).
        destruct (Dedup.filterDuplicates _ _ _ l) as [kept seen'] eqn:Hf.
        simpl in *. rewrite with_key_cons.
        destruct (decide (image img = k)) as [<-|Hne].
        -- rewrite Ht. simpl. rewrite bool_decide_eq_true_2 by done.
           rewrite IH, Ht. simpl.
           rewrite bool_decide_eq_false_2; [done|].
           intros Hn. apply Hn, elem_of_union. left. by apply elem_of_singleton.
        -- rewrite IH. destruct (truthy k); simpl; [|done].
           destruct (decide (k ∈ seen)) as [Hk|Hk].
           ++ rewrite !bool_decide_eq_false_2; [done|tauto|].
              intros Hn. apply Hn, elem_of_union. by right.
           ++ rewrite !bool_decide_eq_true_2; [done|done|].
              intros [Hs|Hs]%elem_of_union; [|done].
              apply elem_of_singleton in Hs. by apply Hne.
    + rewrite IH. destruct (decide (image img = k)) as [<-|Hne]; [|done].
      by rewrite Ht.
Qed.

Lemma filterDuplicates_sublist (l : list A) : ∀ seen,
  (filterDuplicates seen l).1 `sublist_of` l.
Proof.
  induction l as [|img l IH]; intros seen; simpl; [constructor|].
  destruct (negb _ || _).
  - apply sublist_cons, IH.
  - specialize (IH ({[ image img ]} ∪ seen)).
    destruct (Dedup.filterDuplicates _ _ _ l). by apply sublist_skip.
Qed.

(** The calls that share [seenUrls] amount to one call on the
    concatenation of their arguments. *)
Lemma filterDuplicates_app (l1 l2 : list A) : ∀ seen,
  filterDuplicates seen (l1 ++ l2) =
    let '(kept1, seen1) := filterDuplicates seen l1 in
    let '(kept2, seen2) := filterDuplicates seen1 l2 in
    (kept1 ++ kept2, seen2).
Proof.
  induction l1 as [|img l1 IH]; intros seen; simpl.
  - by destruct (Dedup.filterDuplicates _ _ seen l2).
  - destruct (negb _ || _); [apply IH|].
    rewrite IH. destruct (Dedup.filterDuplicates _ _ _ l1).
    by destruct (Dedup.filterDuplicates _ _ _ l2).
Qed.

Lemma filterDuplicatesAll_concat (batches : list (list A)) : ∀ seen,
  filterDuplicates seen (concat batches) =
    (concat (filterDuplicatesAll seen batches).1,
     (filterDuplicatesAll seen batches).2).
Proof.
  induction batches as [|l batches IH]; intros seen; simpl; [done|].
  rewrite filterDuplicates_app.
  destruct (Dedup.filterDuplicates _ _ seen l) as [kept seen1].
  rewrite IH.
  by destruct (Dedup.filterDuplicatesAll _ _ seen1 batches) as [kepts seen2].
Qed.

Lemma filterDuplicatesAll_with_key k (batches : list (list A)) :
  with_key k (concat (filterDuplicatesAll ∅ batches).1) =
    if truthy k then option_list (earliest k (concat batches)) else [].
Proof.
  pose proof (filterDuplicatesAll_concat batches ∅) as Hc.
  pose proof (filterDuplicates_with_key k (concat batches) ∅) as Hk.
  rewrite Hc in Hk. simpl in Hk. rewrite Hk.
  rewrite bool_decide_eq_true_2 by apply not_elem_of_empty.
  by rewrite andb_true_r.
Qed.

Lemma filterDuplicatesAll_sublist (batches : list (list A)) :
  concat (filterDuplicatesAll ∅ batches).1 `sublist_of` concat batches.
Proof.
  pose proof (filterDuplicatesAll_concat batches ∅) as Hc.
  pose proof (filterDuplicates_sublist (concat batches) ∅) as Hs.
  by rewrite Hc in Hs.
Qed.

End dedup_facts.

(** The six calls of the handler of [unnamed/part_000] keep what
    [filterDuplicatesAll] keeps, each batch under its category. *)
Lemma categorize_filterDuplicatesAll
    (platforms enhanced color main colorF vector psd ai : list Item) :
  Enhanced.categorize platforms enhanced color main colorF vector psd ai =
    zip_with (λ tag kept, tag <$> kept)
      [with_category "Combined Inspiration";
       with_category "Downloadable Design Resources";
       with_category "Downloadable Color Inspiration";
       with_category_format "Downloadable Vector Resources" "vector";
       with_category_format "Downloadable PSD Templates" "psd";
       with_category_format "AI Generated Designs" "AI Image"]
      (Dedup.filterDuplicatesAll image JS.truthy ∅
         [platforms ++ enhanced ++ color; main; colorF; vector; psd; ai]).1.
Proof.
  unfold Enhanced.categorize, Enhanced.filterDuplicates. simpl.
  repeat match goal with
  | |- context [Dedup.filterDuplicates image JS.truthy ?s ?l] =>
      destruct (Dedup.filterDuplicates image JS.truthy s l)
  end.
  reflexivity.
Qed.

(** C1, as stated, fails on [filterDuplicates]: of two items whose image
    URL is missing, which share the key [undefined], none is kept. *)
Lemma filterDuplicates_drops_items_without_url :
  let first := mkItem None (Some "AI Generated Design") (Some "Freepik AI")
                 None (Some "AI Image") None [("id", "")] in
  let second := mkItem None (Some "AI Generated Design") (Some "Freepik AI")
                  None (Some "AI Image") None [("id", ""); ("n", "2")] in
  (Enhanced.filterDuplicates ∅ [first; second]).1 = []
  ∧ ¬ Dedup.one_per_key_earliest image [first; second]
        (Enhanced.filterDuplicates ∅ [first; second]).1.
Proof.
  simpl. split; [reflexivity|].
  intros Hone. destruct (Hone None) as [img [Hkept _]].
  - simpl. apply elem_of_cons. by left.
  - discriminate Hkept.
Qed.

(** C1 (amended): in [updatedserver.txt] the deduplicated output holds, for
    every key of the input, exactly one item, the earliest of the input with
    that key.  In [unnamed/part_000], over the batches that the calls of
    [filterDuplicates] receive in turn, the output holds for every key that
    is a non-empty URL exactly the earliest item of the concatenated input
    with that key, whichever batch it came from, and no item whose URL is
    missing or empty. *)
Theorem dedup_keeps_earliest_item_per_key :
  (∀ allImages : list Item,
     Dedup.one_per_key_earliest image allImages
       (Dedup.uniqueImages image allImages))
  ∧ (∀ (batches : list (list Item)) (k : JS.value),
       Dedup.with_key image k
         (concat (Dedup.filterDuplicatesAll image JS.truthy ∅ batches).1)
       = if JS.truthy k
         then option_list (Dedup.earliest image k (concat batches))
         else []).
Proof.
  split.
  - intros allImages. apply uniqueImages_one_per_key.
  - intros batches k. apply filterDuplicatesAll_with_key.
Qed.

(** C10: the output of the deduplication step is a subsequence of its
    input: the loop of [updatedserver.txt], one call of [filterDuplicates]
    whatever has been seen, and the calls of one request over the
    concatenation of their inputs. *)
Theorem dedup_output_is_subsequence :
  (∀ allImages : list Item,
     Dedup.uniqueImages image allImages `sublist_of` allImages)
  ∧ (∀ (seenUrls : gset JS.value) (images : list Item),
       (Enhanced.filterDuplicates seenUrls images).1 `sublist_of` images)
  ∧ (∀ batches : list (list Item),
       concat (Dedup.filterDuplicatesAll image JS.truthy ∅ batches).1
         `sublist_of` concat batches).
Proof.
  split; [|split].
  - intros allImages. rewrite uniqueImages_fresh. apply fresh_sublist.
  - intros seenUrls images. apply filterDuplicates_sublist.
  - intros batches. apply filterDuplicatesAll_sublist.
Qed.

(** The amended claim on three items from two providers: the first and the
    third share a URL. *)
Lemma dedup_keeps_earliest_item_per_key_witness :
  let a := item "https://x/1.png" "One" "Pinterest" in
  let b := item "https://x/2.png" "Two" "Google Images" in
  let c := item "https://x/1.png" "One again" "Freepik" in
  Dedup.with_key image (Some "https://x/1.png")
    (concat (Dedup.filterDuplicatesAll image JS.truthy ∅ [[a; b]; [c]]).1)
  = [a]
  ∧ Dedup.one_per_key_earliest image [a; b; c]
      (Dedup.uniqueImages image [a; b; c]).
Proof.
  cbv zeta. split.
  - rewrite (proj2 dedup_keeps_earliest_item_per_key). reflexivity.
  - apply (proj1 dedup_keeps_earliest_item_per_key).
Defined.

Example dedup_example :
  let a := item "https://x/1.png" "One" "Pinterest" in
  let b := item "https://x/2.png" "Two" "Google Images" in
  let c := item "https://x/1.png" "One again" "Freepik" in
  Dedup.uniqueImages image [a; b; c] = [a; b]
  ∧ (Dedup.filterDuplicatesAll image JS.truthy ∅ [[a; b]; [c]]).1
    = [[a; b]; []].
Proof. split; reflexivity. Qed.

(** ** Suggestion extractor *)

Lemma setSpread_NoDup (l : list string) : NoDup (Dedup.setSpread l).
Proof.
  unfold Dedup.setSpread. rewrite uniqueImages_fresh.
  destruct (fresh_keys id l ∅) as [Hnd _].
  by rewrite list_fmap_id in Hnd.
Qed.

Lemma is_lf_line_terminator (c : ascii) :
  JS.is_lf c = true → JS.is_line_terminator c = true.
Proof.
  unfold JS.is_lf, JS.is_line_terminator, JS.in_codes. simpl.
  rewrite !orb_false_r. intros ->. reflexivity.
Qed.

Lemma startsWith_hash (s : string) :
  JS.startsWith s "#" = false → Extract.afterHash s = None.
Proof.
  destruct s as [|c r]; [done|]. unfold JS.startsWith.
  cbn [String.prefix Extract.afterHash].
  destruct (ascii_dec "#" c) as [<-|Hne].
  - by destruct r.
  - intros _. destruct (Ascii.eqb_spec c "#") as [->|]; [done|reflexivity].
Qed.

(** The third alternative needs a line feed. *)
Lemma lazyLine_without_line_feed (s : string) :
  JS.allChars (λ c, negb (JS.is_lf c)) s = true → Extract.lazyLine s = None.
Proof.
  induction s as [|c r IH]; [done|]. simpl.
  intros [Hc Hr]%andb_prop.
  destruct (JS.is_line_terminator c); [done|].
  destruct r as [|c' r']; [done|].
  specialize (IH Hr). simpl in Hr. apply andb_prop in Hr as [Hc' _].
  apply negb_true_iff in Hc'. rewrite Hc'. by rewrite IH.
Qed.

(** The third alternative captures the first line. *)
Lemma lazyLine_first_line (line rest : string) :
  line ≠ "" →
  JS.allChars (λ c, negb (JS.is_line_terminator c)) line = true →
  Extract.lazyLine (line +:+ String JS.LF rest) = Some line.
Proof.
  induction line as [|c l IH]; [done|]. intros _ [Hc Hl]%andb_prop.
  apply negb_true_iff in Hc. simpl. rewrite Hc.
  destruct l as [|c' l'].
  - reflexivity.
  - specialize (IH ltac:(done) Hl). simpl in Hl.
    apply andb_prop in Hl as [Hc' _]. apply negb_true_iff in Hc'.
    change (String c' l' +:+ String JS.LF rest)
      with (String c' (l' +:+ String JS.LF rest)) in *.
    assert (JS.is_lf c' = false) as Hlf.
    { destruct (JS.is_lf c') eqn:Hlf; [|done].
      apply is_lf_line_terminator in Hlf. congruence. }
    cbv beta iota. rewrite Hlf, IH. reflexivity.
Qed.

Lemma extractHeading_third_alternative (text : string) :
  JS.startsWith text "#" = false →
  Extract.extractHeading text =
    match Extract.lazyLine text with
    | Some g3 => JS.trim g3
    | None => "Design Recommendations"
    end.
Proof.
  intros Hhash%startsWith_hash.
  unfold Extract.extractHeading, Extract.headingMatch, Extract.alternative1,
    Extract.alternative2, Extract.alternative3.
  rewrite Hhash. simpl.
  destruct (Extract.lazyLine text) as [g3|] eqn:Hg; [|done]. simpl.
  assert (g3 ≠ "") as Hne.
  { intros ->. destruct text as [|c r]; [done|]. simpl in Hg.
    destruct (JS.is_line_terminator c); [done|].
    destruct r as [|c' r']; [done|].
    destruct (JS.is_lf c'); [done|].
    by destruct (Extract.lazyLine (String c' r')). }
  unfold JS.or_else. simpl. by destruct g3.
Qed.

(** The group [[^\n]+] on a line: the line, to its line feed or to the
    end of the text. *)
Lemma restOfLine_line (line rest : string) :
  JS.allChars (λ c, negb (JS.is_lf c)) line = true →
  Extract.restOfLine (line +:+ String JS.LF rest) = line
  ∧ Extract.restOfLine line = line.
Proof.
  induction line as [|c l IH]; [done|]. intros [Hc Hl]%andb_prop.
  apply negb_true_iff in Hc.
  change (String c l +:+ String JS.LF rest)
    with (String c (l +:+ String JS.LF rest)).
  cbn [Extract.restOfLine]. rewrite Hc.
  destruct (IH Hl) as [-> ->]. done.
Qed.

Lemma trimEnd_not_empty (s : string) :
  JS.trimEnd s ≠ "" → s ≠ "".
Proof. by destruct s. Qed.

(** [\s*([^\n]+)] on a title that is not blank, whatever follows its
    line: the white space goes, and the group is the title from its first
    character that is no white space. *)
Lemma spacesThenLine_title (title tail : string) :
  JS.allChars (λ c, negb (JS.is_lf c)) title = true →
  JS.trim title ≠ "" →
  tail = "" ∨ (∃ rest, tail = String JS.LF rest) →
  ∃ g, Extract.spacesThenLine (title +:+ tail) = Some g
       ∧ g ≠ "" ∧ JS.trim g = JS.trim title.
Proof.
  intros Hline Hblank Htail.
  induction title as [|c t IH]; [done|].
  apply andb_prop in Hline as [Hc Ht].
  change (String c t +:+ tail) with (String c (t +:+ tail)).
  assert (Extract.linePlus (String c (t +:+ tail)) = Some (String c t))
    as Hgroup.
  { unfold Extract.linePlus.
    assert (Extract.restOfLine (String c (t +:+ tail)) = String c t) as ->;
      [|done].
    change (String c (t +:+ tail)) with (String c t +:+ tail).
    assert (JS.allChars (λ c, negb (JS.is_lf c)) (String c t) = true)
      as Hline by (apply andb_true_intro; split; [exact Hc|exact Ht]).
    destruct Htail as [->|[rest ->]].
    - rewrite string_app_nil_r. by apply (restOfLine_line _ "").
    - by apply restOfLine_line. }
  cbn [Extract.spacesThenLine].
  destruct (JS.is_space c) eqn:Hspace.
  - assert (JS.trim (String c t) = JS.trim t) as Htrim
      by (unfold JS.trim; cbn [JS.trimStart]; by rewrite Hspace).
    rewrite Htrim in Hblank |- *.
    destruct (IH Ht Hblank) as (g & -> & Hg & Hgt). by exists g.
  - rewrite Hgroup. by exists (String c t).
Qed.

Lemma spacesThenLine_spaces (ws s g : string) :
  JS.allChars JS.is_space ws = true →
  Extract.spacesThenLine s = Some g →
  Extract.spacesThenLine (ws +:+ s) = Some g.
Proof.
  intros Hws Hs. induction ws as [|c ws IH]; [done|].
  apply andb_prop in Hws as [Hc Hws].
  change (String c ws +:+ s) with (String c (ws +:+ s)).
  cbn [Extract.spacesThenLine]. by rewrite Hc, (IH Hws).
Qed.

(** [\s+([^\n]+)] on white space and a title. *)
Lemma spacePlusThenLine_title (ws title tail : string) :
  ws ≠ "" →
  JS.allChars JS.is_space ws = true →
  JS.allChars (λ c, negb (JS.is_lf c)) title = true →
  JS.trim title ≠ "" →
  tail = "" ∨ (∃ rest, tail = String JS.LF rest) →
  ∃ g, Extract.spacePlusThenLine (ws +:+ title +:+ tail) = Some g
       ∧ g ≠ "" ∧ JS.trim g = JS.trim title.
Proof.
  intros Hne Hws Hline Hblank Htail.
  destruct ws as [|c ws]; [done|]. apply andb_prop in Hws as [Hc Hws].
  destruct (spacesThenLine_title title tail Hline Hblank Htail)
    as (g & Hg & Hgne & Hgt).
  exists g. split; [|done].
  change (String c ws +:+ title +:+ tail)
    with (String c (ws +:+ (title +:+ tail))).
  cbn [Extract.spacePlusThenLine]. rewrite Hc.
  by apply spacesThenLine_spaces.
Qed.

Lemma extractHeading_group1 (text g : string) :
  Extract.alternative1 text = Some g → g ≠ "" →
  Extract.extractHeading text = JS.trim g.
Proof.
  intros Hg Hne. unfold Extract.extractHeading, Extract.headingMatch.
  rewrite Hg. unfold JS.or_else. by destruct g.
Qed.

Lemma extractHeading_group2 (text g : string) :
  Extract.alternative1 text = None →
  Extract.alternative2 text = Some g → g ≠ "" →
  Extract.extractHeading text = JS.trim g.
Proof.
  intros Hnone Hg Hne. unfold Extract.extractHeading, Extract.headingMatch.
  rewrite Hnone, Hg. unfold JS.or_else. by destruct g.
Qed.

(** A line [# title] or [## title] at the start of the text. *)
Lemma heading_of_marked_line (ws title tail : string) :
  ws ≠ "" →
  JS.allChars JS.is_space ws = true →
  JS.allChars (λ c, negb (JS.is_lf c)) title = true →
  JS.trim title ≠ "" →
  tail = "" ∨ (∃ rest, tail = String JS.LF rest) →
  Extract.extractHeading ("#" +:+ ws +:+ title +:+ tail) = JS.trim title
  ∧ Extract.extractHeading ("##" +:+ ws +:+ title +:+ tail) = JS.trim title.
Proof.
  intros Hne Hws Hline Hblank Htail.
  destruct (spacePlusThenLine_title ws title tail Hne Hws Hline Hblank Htail)
    as (g & Hg & Hgne & <-).
  split.
  - by apply extractHeading_group1.
  - by apply extractHeading_group2.
Qed.

(** A carriage return before the first line feed stops the third
    alternative. *)
Lemma lazyLine_carriage_return (before after : string) :
  JS.allChars (λ c, negb (JS.is_lf c)) before = true →
  Extract.lazyLine (before +:+ String "013" after) = None.
Proof.
  induction before as [|c b IH]; [done|]. intros [Hc Hb]%andb_prop.
  apply negb_true_iff in Hc.
  change (String c b +:+ String "013" after)
    with (String c (b +:+ String "013" after)).
  cbn [Extract.lazyLine].
  destruct (JS.is_line_terminator c); [done|].
  destruct b as [|c' b'].
  - reflexivity.
  - specialize (IH Hb). apply andb_prop in Hb as [Hc' _].
    apply negb_true_iff in Hc'.
    change (String c' b' +:+ String "013" after)
      with (String c' (b' +:+ String "013" after)) in *.
    cbv beta iota. by rewrite Hc', IH.
Qed.

Lemma startsWith_hash_app (line rest : string) :
  line ≠ "" →
  JS.startsWith line "#" = false →
  JS.startsWith (line +:+ rest) "#" = false.
Proof.
  destruct line as [|c l]; [done|]. intros _. unfold JS.startsWith.
  change (String c l +:+ rest) with (String c (l +:+ rest)).
  cbn [String.prefix].
  destruct (ascii_dec "#" c); [|done]. by destruct l.
Qed.

(** C5, as stated, fails on a text without a line feed: the default comes
    back, not the trimmed text. *)
Lemma heading_of_single_line_is_default :
  Extract.extractHeading "Bold Modern Branding" = "Design Recommendations"
  ∧ Extract.extractHeading "Bold Modern Branding"
    ≠ JS.trim "Bold Modern Branding".
Proof. split; [reflexivity|discriminate]. Qed.

(** C5 (amended): the heading of a text that begins with a line [# title]
    or [## title] (the marker, white space, and a title that is not blank)
    is the title, trimmed, whether a line feed or the end of the text
    follows the line; a text with no leading [#] and no line feed gives
    the default "Design Recommendations"; a text with no leading [#] whose
    first line is not empty, holds no carriage return and ends in a line
    feed gives that line, trimmed; a text with no leading [#] and a
    carriage return before its first line feed gives the default; the empty
    text gives the default. *)
Theorem heading_extraction :
  (∀ ws title tail,
     ws ≠ "" →
     JS.allChars JS.is_space ws = true →
     JS.allChars (λ c, negb (JS.is_lf c)) title = true →
     JS.trim title ≠ "" →
     tail = "" ∨ (∃ rest, tail = String JS.LF rest) →
     Extract.extractHeading ("#" +:+ ws +:+ title +:+ tail) = JS.trim title
     ∧ Extract.extractHeading ("##" +:+ ws +:+ title +:+ tail) = JS.trim title)
  ∧ (∀ text,
       JS.startsWith text "#" = false →
       JS.allChars (λ c, negb (JS.is_lf c)) text = true →
       Extract.extractHeading text = "Design Recommendations")
  ∧ (∀ line rest,
       JS.startsWith line "#" = false →
       line ≠ "" →
       JS.allChars (λ c, negb (JS.is_line_terminator c)) line = true →
       Extract.extractHeading (line +:+ String JS.LF rest) = JS.trim line)
  ∧ (∀ before after,
       JS.startsWith (before +:+ String "013" after) "#" = false →
       JS.allChars (λ c, negb (JS.is_lf c)) before = true →
       Extract.extractHeading (before +:+ String "013" after)
       = "Design Recommendations")
  ∧ Extract.extractHeading "" = "Design Recommendations".
Proof.
  split; [exact heading_of_marked_line|].
  split; [|split; [|split; [|reflexivity]]].
  - intros text Hhash Hlf.
    rewrite extractHeading_third_alternative by done.
    by rewrite lazyLine_without_line_feed.
  - intros line rest Hhash Hne Hline.
    rewrite extractHeading_third_alternative
      by by apply startsWith_hash_app.
    by rewrite lazyLine_first_line.
  - intros before after Hhash Hlf.
    rewrite extractHeading_third_alternative by done.
    by rewrite lazyLine_carriage_return.
Qed.

(** The amended claim on the text of the claim, on a second-level heading
    at the end of a text, on a first line, and on a line that a carriage
    return ends. *)
Lemma heading_extraction_witness :
  Extract.extractHeading
    ("# Bold Modern Branding" +:+ String JS.LF "## COLOR PALETTE...")
  = "Bold Modern Branding"
  ∧ Extract.extractHeading "##  Layout " = "Layout"
  ∧ Extract.extractHeading "Bold Modern Branding" = "Design Recommendations"
  ∧ Extract.extractHeading ("  Bold  " +:+ String JS.LF "more") = "Bold"
  ∧ Extract.extractHeading ("Bold" +:+ String "013" (String JS.LF "more"))
    = "Design Recommendations".
Proof.
  split; [|split; [|split; [|split]]].
  - apply (proj1 (proj1 heading_extraction " " "Bold Modern Branding"
                    (String JS.LF "## COLOR PALETTE...")
                    ltac:(discriminate) eq_refl eq_refl ltac:(discriminate)
                    (or_intror (ex_intro _ "## COLOR PALETTE..." eq_refl)))).
  - apply (proj2 (proj1 heading_extraction "  " "Layout " ""
                    ltac:(discriminate) eq_refl eq_refl ltac:(discriminate)
                    (or_introl eq_refl))).
  - apply (proj1 (proj2 heading_extraction) "Bold Modern Branding");
      reflexivity.
  - apply (proj1 (proj2 (proj2 heading_extraction)) "  Bold  " "more");
      [reflexivity|discriminate|reflexivity].
  - apply (proj1 (proj2 (proj2 (proj2 heading_extraction))) "Bold"
             (String JS.LF "more")); reflexivity.
Defined.

(** C4, as stated, fails on [extractAdvancedColorPalette]: with two codes
    found, fewer than three, the colour-theory step adds two entries,
    whichever scheme is drawn. *)
Lemma advanced_palette_of_two_codes_has_four_entries :
  let text := "Primary: #FF5733, Secondary: #33FF57" in
  Extract.extractAdvancedColorPalette Extract.complementary text None
  = ["#FF5733"; "#33FF57"; "#FF5733"; "#FF5733"]
  ∧ Extract.extractAdvancedColorPalette Extract.analogous text None
    = ["#FF5733"; "#33FF57"; "#FF5733"; "#FF5733"]
  ∧ Extract.extractAdvancedColorPalette Extract.triadic text None
    = ["#FF5733"; "#33FF57"; "#FF5733"; "#FF5733"]
  ∧ Extract.extractAdvancedColorPalette Extract.complementary text None
    ≠ ["#FF5733"; "#33FF57"].
Proof. repeat split; try reflexivity. discriminate. Qed.

Lemma extractAdvancedColorPalette_length scheme text inputColor :
  length (Extract.extractAdvancedColorPalette scheme text inputColor) ≤ 5.
Proof.
  unfold Extract.extractAdvancedColorPalette, JS.slice0.
  rewrite length_take. lia.
Qed.

Lemma extractAdvancedColorPalette_enough scheme text inputColor :
  3 ≤ length (Extract.combinedColors text inputColor) →
  Extract.extractAdvancedColorPalette scheme text inputColor
  = JS.slice0 5 (Extract.combinedColors text inputColor).
Proof.
  intros Hlen. unfold Extract.extractAdvancedColorPalette.
  destruct (Extract.combinedColors text inputColor) as [|baseColor rest] eqn:Hc;
    [done|].
  destruct (Nat.ltb_spec (length (baseColor :: rest)) 3); [lia|done].
Qed.

(** C4 (amended): on "Primary: #FF5733, Secondary: #33FF57" the extractor
    of the first server of [unnamed/part_000] returns exactly the two codes,
    and the one of [server.js] a list that begins with them, in this order;
    on a text with no hex code and no colour name, and with no input colour,
    both return the empty list; the palette of [server.js] has at most 5
    entries and the other at most 3; the entries of the palette of
    [server.js] are distinct whenever the text and the input colour give
    three distinct colours or more. *)
Theorem color_extraction :
  let text := "Primary: #FF5733, Secondary: #33FF57" in
  Extract.extractColorPalette text = ["#FF5733"; "#33FF57"]
  ∧ (∀ scheme,
       JS.slice0 2 (Extract.extractAdvancedColorPalette scheme text None)
       = ["#FF5733"; "#33FF57"])
  ∧ (∀ scheme text,
       Extract.matchHexCodes text = [] →
       Extract.matchColorNames text = [] →
       Extract.extractAdvancedColorPalette scheme text None = []
       ∧ Extract.extractColorPalette text = [])
  ∧ (∀ scheme text inputColor,
       length (Extract.extractAdvancedColorPalette scheme text inputColor) ≤ 5
       ∧ length (Extract.extractColorPalette text) ≤ 3)
  ∧ (∀ scheme text inputColor,
       3 ≤ length (Extract.combinedColors text inputColor) →
       NoDup (Extract.extractAdvancedColorPalette scheme text inputColor)).
Proof.
  cbv zeta. split; [reflexivity|]. split; [by intros []|].
  split; [|split].
  - intros scheme text Hhex Hnames.
    unfold Extract.extractAdvancedColorPalette, Extract.combinedColors,
      Extract.extractColorPalette.
    rewrite Hhex, Hnames. split; reflexivity.
  - intros scheme text inputColor. split.
    + apply extractAdvancedColorPalette_length.
    + unfold Extract.extractColorPalette, JS.slice0. rewrite length_take. lia.
  - intros scheme text inputColor Hlen.
    rewrite extractAdvancedColorPalette_enough by done.
    apply (sublist_NoDup _ (Extract.combinedColors text inputColor)).
    + apply setSpread_NoDup.
    + apply sublist_take.
Qed.

(** The amended claim on a text with no colour and on one with three. *)
Lemma color_extraction_witness :
  Extract.extractAdvancedColorPalette Extract.triadic "Keep it plain." None = []
  ∧ NoDup (Extract.extractAdvancedColorPalette Extract.triadic
             "#111 #222 #333 #111" None).
Proof.
  split.
  - apply (proj1 (proj2 (proj2 color_extraction)) Extract.triadic
             "Keep it plain."); reflexivity.
  - apply (proj2 (proj2 (proj2 (proj2 color_extraction))) Extract.triadic
             "#111 #222 #333 #111" None).
    vm_compute. lia.
Defined.

(** ** Sorting *)

Section sort_facts.
Context {A : Type}.

(** A comparator that ranks by a count, the larger count first. *)
Variable count : A → nat.
Variable compare : A → A → Z.
Hypothesis compare_count :
  ∀ a b, compare a b = (Z.of_nat (count b) - Z.of_nat (count a))%Z.

Local Abbreviation insert := (Sort.insert compare).
Local Abbreviation sort := (Sort.sort compare).

Lemma insert_cons a b (rest : list A) :
  insert a (b :: rest) =
    if bool_decide (count b ≤ count a) then a :: b :: rest
    else b :: insert a rest.
Proof.
  simpl. rewrite compare_count.
  destruct (Z.leb_spec (Z.of_nat (count b) - Z.of_nat (count a)) 0);
    case_bool_decide; (done || lia).
Qed.

Lemma insert_Permutation a (l : list A) : insert a l ≡ₚ a :: l.
Proof.
  induction l as [|b l IH]; [done|]. rewrite insert_cons.
  case_bool_decide; [done|]. rewrite IH. apply Permutation_swap.
Qed.

Lemma sort_Permutation (l : list A) : sort l ≡ₚ l.
Proof.
  induction l as [|a l IH]; [done|]. simpl.
  rewrite insert_Permutation. by rewrite IH.
Qed.

Lemma insert_StronglySorted a (l : list A) :
  StronglySorted (λ x y, count y ≤ count x) l →
  StronglySorted (λ x y, count y ≤ count x) (insert a l).
Proof.
  induction 1 as [|b l Hl IH Hb]; [repeat constructor|].
  rewrite insert_cons. case_bool_decide as Hab.
  - constructor; [by constructor|]. constructor; [done|].
    eapply Forall_impl; [exact Hb|]. simpl. lia.
  - constructor; [done|]. rewrite insert_Permutation.
    constructor; [lia|done].
Qed.

Lemma sort_StronglySorted (l : list A) :
  StronglySorted (λ x y, count y ≤ count x) (sort l).
Proof.
  induction l as [|a l IH]; [constructor|]. simpl.
  by apply insert_StronglySorted.
Qed.

(** Stability: the items with a given count come in the order they had. *)
Lemma insert_stable n a (l : list A) :
  filter (λ x, count x = n) (insert a l)
  = filter (λ x, count x = n) (a :: l).
Proof.
  induction l as [|b l IH]; [done|]. rewrite insert_cons.
  case_bool_decide as Hab; [done|].
  rewrite filter_cons, IH, !filter_cons.
  repeat case_decide; (done || lia).
Qed.

Lemma sort_stable n (l : list A) :
  filter (λ x, count x = n) (sort l) = filter (λ x, count x = n) l.
Proof.
  induction l as [|a l IH]; [done|]. simpl.
  rewrite insert_stable, !filter_cons. by rewrite IH.
Qed.

End sort_facts.

(** *** The count of the comparator is the count of the tokens *)

Lemma appearsIn_includes (token text : string) :
  Updated.appearsIn token text = JS.includes text token.
Proof.
  unfold Updated.appearsIn. induction text as [|c text IH].
  - by destruct token.
  - cbn [String.index JS.includes].
    destruct (String.prefix token (String c text)); [done|].
    cbn [orb]. rewrite <- IH.
    by destruct (String.index 0 token text).
Qed.

Lemma tokensFrom_split (current s : string) :
  Updated.tokensFrom current s
  = match JS.split " " s with
    | w :: ws => (current +:+ w) :: ws
    | [] => [current]
    end.
Proof.
  revert current. induction s as [|c s IH]; intros current.
  - cbn [Updated.tokensFrom JS.split]. by rewrite string_app_nil_r.
  - cbn [Updated.tokensFrom JS.split].
    destruct (Ascii.eqb c " ").
    + rewrite string_app_nil_r, IH.
      pose proof (split_not_nil " " s). by destruct (JS.split " " s).
    + rewrite IH. pose proof (split_not_nil " " s).
      destruct (JS.split " " s) as [|w ws]; [done|].
      by rewrite string_app_assoc.
Qed.

Lemma tokens_queryWords (q : string) : Updated.tokens q = Updated.queryWords q.
Proof.
  unfold Updated.tokens, Updated.queryWords. rewrite tokensFrom_split.
  destruct (JS.toLowerCase q) as [|c s]; [done|].
  cbn [JS.split]. destruct (Ascii.eqb c " "); [done|].
  by destruct (JS.split " " s).
Qed.

Lemma sum_list_filter {B} (p : B → bool) (l : list B) :
  sum_list ((λ b, if p b then 1 else 0) <$> l) = length (List.filter p l).
Proof.
  induction l as [|b l IH]; [done|]. cbn [fmap list_fmap sum_list List.filter].
  rewrite IH. by destruct (p b).
Qed.

Lemma tokenMatches_relevance (q : string) (a : Item) :
  Updated.tokenMatches q a
  = default 0 (Updated.relevance (Updated.queryWords q) a).
Proof.
  unfold Updated.tokenMatches, Updated.relevance.
  destruct (title a) as [t|]; [|done]. cbn.
  rewrite tokens_queryWords, sum_list_filter.
  f_equal. apply List.filter_ext. intros token. apply appearsIn_includes.
Qed.

Lemma byRelevance_tokenMatches (q : string) (a b : Item) :
  Updated.byRelevance (Updated.queryWords q) a b
  = (Z.of_nat (Updated.tokenMatches q b)
     - Z.of_nat (Updated.tokenMatches q a))%Z.
Proof. unfold Updated.byRelevance. by rewrite !tokenMatches_relevance. Qed.

Lemma no_missing_title (l : list Item) :
  Forall (λ a, title a ≠ None) l →
  existsb (λ a, bool_decide (title a = None)) l = false.
Proof.
  induction 1 as [|a l Ha _ IH]; [done|]. simpl.
  by rewrite bool_decide_eq_false_2, IH.
Qed.

Lemma a_missing_title (l : list Item) :
  Exists (λ a, title a = None) l →
  existsb (λ a, bool_decide (title a = None)) l = true.
Proof.
  induction 1 as [a l Ha|a l _ IH]; simpl.
  - by rewrite bool_decide_eq_true_2.
  - by rewrite IH, orb_true_r.
Qed.

Lemma sortImages_relevance (q : string) (uniqueImages : list Item) :
  Forall (λ a, title a ≠ None) uniqueImages ∨ length uniqueImages < 2 →
  Updated.sortImages (Some "relevance") q uniqueImages
  = fulfilled (Sort.sort (Updated.byRelevance (Updated.queryWords q))
                 uniqueImages).
Proof.
  intros Htitles. unfold Updated.sortImages.
  rewrite bool_decide_eq_true_2 by done.
  destruct Htitles as [Htitles|Hshort].
  - by rewrite no_missing_title, andb_false_r.
  - by destruct (Nat.leb_spec 2 (length uniqueImages)); [lia|].
Qed.




Example relevance_sort_example :
  Updated.sortImages (Some "relevance") "Logo design"
    [item "a.png" "Logo" "Dribbble"; item "b.png" "Logo design" "Muzli";
     item "c.png" "Design" "Instagram"]
  = fulfilled
      [item "b.png" "Logo design" "Muzli"; item "a.png" "Logo" "Dribbble";
       item "c.png" "Design" "Instagram"].
Proof. reflexivity. Qed.

(** ** Handlers *)

Section traced_facts.
Context {C A B : Type}.

Lemma call_traced (c : C) (p : settled A) : Handler.call c p = Traced [c] p.
Proof. reflexivity. Qed.

Lemma calls_bind_fulfilled cs (a : A) (k : A → traced C B) :
  calls (Traced cs (fulfilled a) ≫= k) = cs ++ calls (k a).
Proof. reflexivity. Qed.

Lemma outcome_bind_fulfilled cs (a : A) (k : A → traced C B) :
  outcome (Traced cs (fulfilled a) ≫= k) = outcome (k a).
Proof. reflexivity. Qed.

Lemma calls_bind_ret (a : A) (k : A → traced C B) :
  calls (mret a ≫= k) = calls (k a).
Proof. reflexivity. Qed.

Lemma outcome_bind_ret (a : A) (k : A → traced C B) :
  outcome (mret a ≫= k) = outcome (k a).
Proof. reflexivity. Qed.

Lemma bind_rejected cs e (k : A → traced C B) :
  Traced cs (rejected e) ≫= k = Traced cs (rejected e).
Proof. reflexivity. Qed.

End traced_facts.

Lemma all_fulfilled {A} (ps : list (settled A)) :
  Forall (λ p, Async.isFulfilled p = true) ps →
  ∃ vs, Async.all ps = fulfilled vs ∧ ps = fulfilled <$> vs.
Proof.
  induction 1 as [|p ps Hp _ [vs [Hall ->]]]; [by exists []|].
  destruct p as [v|e]; [|done]. exists (v :: vs). simpl. by rewrite Hall.
Qed.

Lemma all_rejected {A} (ps : list (settled A)) :
  Exists (λ p, Async.isFulfilled p = false) ps →
  ∃ e, Async.all ps = rejected e.
Proof.
  induction 1 as [p ps Hp|p ps _ [e He]].
  - destruct p as [v|e]; [done|]. by exists e.
  - destruct p as [v|e']; [|by exists e']. exists e. simpl. by rewrite He.
Qed.

(** *** Validation of [q] *)

Ltac trace_step :=
  first [ rewrite call_traced
        | rewrite calls_bind_fulfilled
        | rewrite outcome_bind_fulfilled
        | rewrite calls_bind_ret
        | rewrite outcome_bind_ret
        | rewrite bind_rejected ].

(** [Promise.all] over promises that are all fulfilled. *)
Ltac join_fulfilled Had :=
  match goal with
  | |- context [Handler.await (Async.all ?ps)] =>
      let Hall := fresh "Hall" in
      assert (Forall (λ p, Async.isFulfilled p = true) ps) as Hall
        by (repeat first
              [ apply List.Forall_nil
              | apply List.Forall_cons;
                [first [ reflexivity
                       | match goal with
                         | |- Async.isFulfilled (_ ?c) = true => exact (Had c)
                         end ]|] ]);
      destruct (all_fulfilled ps Hall) as [results [-> _]]
  end.

(** C2, as stated, fails on a [q] of one space: it is truthy, the handlers
    go on to the providers and answer 200. *)
Lemma whitespace_query_reaches_providers :
  let req := Req.only (Some " ") in
  let server :=
    Server.getSearch Sample.noTerms Sample.serverAdapters Extract.triadic req in
  let updated := Updated.getSearch Sample.updatedAdapters req in
  (length server.1 = 8 ∧ Handler.status server.2 = 200)
  ∧ (length updated.1 = 8 ∧ Handler.status updated.2 = 200)
  ∧ ¬ (server.1 = [] ∧ Handler.status server.2 = 400).
Proof.
  cbv zeta. split; [|split].
  - split; reflexivity.
  - split; reflexivity.
  - intros [Hcalls _]. discriminate Hcalls.
Qed.

(** C2 (amended): for every request whose [q] is missing or empty, the
    handler of each server answers 400 and calls no adapter. *)
Theorem empty_query_is_rejected (req : Req.t) :
  JS.truthy (Req.q req) = false →
  (∀ terms ad scheme,
     Server.getSearch terms ad scheme req
     = ([], Handler.failure 400 "Query is required" None))
  ∧ (∀ terms ad,
       Basic.getSearch terms ad req
       = ([], Handler.failure 400 "Query is required" None))
  ∧ (∀ terms ad scheme,
       Enhanced.getSearch terms ad scheme req
       = ([], Handler.failure 400 "Query is required" None))
  ∧ (∀ ad,
       Updated.getSearch ad req
       = ([], Handler.failure 400 "Query is required" None)).
Proof.
  intros Hq. repeat split; intros.
  - unfold Server.getSearch, Server.search. by rewrite Hq.
  - unfold Basic.getSearch, Basic.search. by rewrite Hq.
  - unfold Enhanced.getSearch, Enhanced.search. by rewrite Hq.
  - unfold Updated.getSearch, Updated.search. by rewrite Hq.
Qed.

(** The amended claim on the request [GET /search?q=]. *)
Lemma empty_query_is_rejected_witness :
  JS.truthy (Req.q (Req.only (Some ""))) = false
  ∧ Server.getSearch Sample.noTerms Sample.serverAdapters Extract.triadic
      (Req.only (Some ""))
    = ([], Handler.failure 400 "Query is required" None)
  ∧ Updated.getSearch Sample.updatedAdapters (Req.only (Some ""))
    = ([], Handler.failure 400 "Query is required" None).
Proof.
  split; [reflexivity|]. split.
  - apply (empty_query_is_rejected (Req.only (Some ""))). reflexivity.
  - apply (empty_query_is_rejected (Req.only (Some ""))). reflexivity.
Defined.

(** *** The flag [ai] *)

Section ai_gate.
Variable terms : string → string → JS.value → JS.value → settled (list string).
Variable basicTerms : string → string → JS.value → JS.value → list string.
Variable scheme : Extract.generativeScheme.
Variable req : Req.t.

Lemma server_ai_only_if_flag (ad : Server.adapters) :
  existsb Server.Call.isAI (Server.getSearch terms ad scheme req).1 = true →
  Req.ai req = Some "true".
Proof.
  unfold Server.getSearch, Handler.catch500, Server.search.
  destruct (JS.truthy (Req.q req)); [|done].
  cbv zeta. cbn [negb fst]. trace_step.
  destruct (ad (Server.suggestCall req)) as [aiSuggestions|e];
    [|by trace_step].
  trace_step. unfold Handler.invoke. do 7 trace_step.
  match goal with
  | |- context [Handler.await ?p] => destruct p as [results|e]
  end; unfold Handler.await; [|by trace_step].
  trace_step. unfold Server.freepikAIResults.
  case_bool_decide as Hai; [done|].
  unfold Handler.run. by destruct (terms _ _ _ _).
Qed.

Lemma server_ai_if_flag (ad : Server.adapters) :
  JS.truthy (Req.q req) = true →
  (∀ c, Async.isFulfilled (ad c) = true) →
  Req.ai req = Some "true" →
  existsb Server.Call.isAI (Server.getSearch terms ad scheme req).1 = true.
Proof.
  intros Hq Had Hai.
  unfold Server.getSearch, Handler.catch500, Server.search. rewrite Hq.
  cbv zeta. cbn [negb fst]. trace_step.
  pose proof (Had (Server.suggestCall req)) as Hs.
  destruct (ad (Server.suggestCall req)) as [aiSuggestions|e]; [|done].
  trace_step. unfold Handler.invoke. do 7 trace_step.
  join_fulfilled Had.
  unfold Handler.await. trace_step. unfold Server.freepikAIResults.
  rewrite bool_decide_eq_true_2 by done. trace_step.
  rewrite !existsb_app.
  match goal with
  | |- context [ad (Server.Call.fetchFreepikAIImage ?c)] =>
      destruct (ad (Server.Call.fetchFreepikAIImage c)); cbn;
        by rewrite ?orb_true_r
  end.
Qed.

Lemma basic_ai_only_if_flag (ad : Server.adapters) :
  existsb Server.Call.isAI (Basic.getSearch basicTerms ad req).1 = true →
  Req.ai req = Some "true".
Proof.
  unfold Basic.getSearch, Handler.catch500, Basic.search.
  destruct (JS.truthy (Req.q req)); [|done].
  cbv zeta. cbn [negb fst]. trace_step.
  destruct (ad (Server.suggestCall req)) as [aiSuggestions|e];
    [|by trace_step].
  trace_step. unfold Handler.invoke. do 7 trace_step.
  match goal with
  | |- context [Handler.await ?p] => destruct p as [results|e]
  end; unfold Handler.await; [|by trace_step].
  trace_step. unfold Basic.freepikAIResults.
  case_bool_decide as Hai; done.
Qed.

Lemma basic_ai_if_flag (ad : Server.adapters) :
  JS.truthy (Req.q req) = true →
  (∀ c, Async.isFulfilled (ad c) = true) →
  Req.ai req = Some "true" →
  existsb Server.Call.isAI (Basic.getSearch basicTerms ad req).1 = true.
Proof.
  intros Hq Had Hai.
  unfold Basic.getSearch, Handler.catch500, Basic.search. rewrite Hq.
  cbv zeta. cbn [negb fst]. trace_step.
  pose proof (Had (Server.suggestCall req)) as Hs.
  destruct (ad (Server.suggestCall req)) as [aiSuggestions|e]; [|done].
  trace_step. unfold Handler.invoke. do 7 trace_step.
  join_fulfilled Had.
  unfold Handler.await. trace_step. unfold Basic.freepikAIResults.
  rewrite bool_decide_eq_true_2 by done. trace_step.
  rewrite !existsb_app.
  match goal with
  | |- context [ad (Server.Call.fetchFreepikAIImage ?c)] =>
      destruct (ad (Server.Call.fetchFreepikAIImage c)); cbn;
        by rewrite ?orb_true_r
  end.
Qed.

Lemma enhanced_ai_only_if_flag (ad : Enhanced.adapters) :
  existsb Enhanced.Call.isAI (Enhanced.getSearch terms ad scheme req).1 = true →
  Req.ai req = Some "true".
Proof.
  unfold Enhanced.getSearch, Handler.catch500, Enhanced.search.
  destruct (JS.truthy (Req.q req)); [|done].
  cbv zeta. cbn [negb fst]. trace_step.
  destruct (ad (Enhanced.suggestCall req)) as [aiSuggestions|e];
    [|by trace_step].
  trace_step. unfold Handler.invoke.
  destruct (String.eqb _ "true"); do 7 trace_step.
  all: match goal with
       | |- context [Handler.await ?p] => destruct p as [results|e]
       end; unfold Handler.await; [|by trace_step].
  all: trace_step; unfold Enhanced.freepikAIResults.
  all: case_bool_decide as Hai; [done|].
  all: unfold Handler.run; by destruct (terms _ _ _ _).
Qed.

Lemma enhanced_ai_if_flag (ad : Enhanced.adapters) :
  JS.truthy (Req.q req) = true →
  (∀ c, Async.isFulfilled (ad c) = true) →
  Req.ai req = Some "true" →
  existsb Enhanced.Call.isAI (Enhanced.getSearch terms ad scheme req).1 = true.
Proof.
  intros Hq Had Hai.
  unfold Enhanced.getSearch, Handler.catch500, Enhanced.search. rewrite Hq.
  cbv zeta. cbn [negb fst]. trace_step.
  pose proof (Had (Enhanced.suggestCall req)) as Hs.
  destruct (ad (Enhanced.suggestCall req)) as [aiSuggestions|e]; [|done].
  trace_step. unfold Handler.invoke.
  destruct (String.eqb _ "true"); do 7 trace_step.
  all: join_fulfilled Had.
  all: unfold Handler.await; trace_step; unfold Enhanced.freepikAIResults.
  all: rewrite bool_decide_eq_true_2 by done; trace_step.
  all: rewrite !existsb_app.
  all: match goal with
       | |- context [?f (Enhanced.Call.fetchFreepikAIImage ?c)] =>
           destruct (f (Enhanced.Call.fetchFreepikAIImage c)); cbn;
             by rewrite ?orb_true_r
       end.
Qed.

End ai_gate.

(** C9: in the three handlers that have the flag, a call of the adapter of
    AI images is among the calls of a request only if [ai] is exactly
    "true"; it is, when [ai] is "true", [q] passes validation and no adapter
    rejects; and for any other [ai] line 416 (346, 983) gives the empty list
    and calls nothing. *)
Theorem ai_images_need_flag (req : Req.t) :
  (∀ terms ad scheme,
     (existsb Server.Call.isAI (Server.getSearch terms ad scheme req).1 = true
      → Req.ai req = Some "true")
     ∧ (JS.truthy (Req.q req) = true →
        (∀ c, Async.isFulfilled (ad c) = true) →
        Req.ai req = Some "true" →
        existsb Server.Call.isAI (Server.getSearch terms ad scheme req).1 = true)
     ∧ (Req.ai req ≠ Some "true" →
        ∀ q, Server.freepikAIResults ad (Req.ai req) q = Traced [] (fulfilled [])))
  ∧ (∀ terms ad,
       (existsb Server.Call.isAI (Basic.getSearch terms ad req).1 = true
        → Req.ai req = Some "true")
       ∧ (JS.truthy (Req.q req) = true →
          (∀ c, Async.isFulfilled (ad c) = true) →
          Req.ai req = Some "true" →
          existsb Server.Call.isAI (Basic.getSearch terms ad req).1 = true)
       ∧ (Req.ai req ≠ Some "true" →
          ∀ q, Basic.freepikAIResults ad (Req.ai req) q = Traced [] (fulfilled [])))
  ∧ (∀ terms ad scheme,
       (existsb Enhanced.Call.isAI (Enhanced.getSearch terms ad scheme req).1 = true
        → Req.ai req = Some "true")
       ∧ (JS.truthy (Req.q req) = true →
          (∀ c, Async.isFulfilled (ad c) = true) →
          Req.ai req = Some "true" →
          existsb Enhanced.Call.isAI (Enhanced.getSearch terms ad scheme req).1
          = true)
       ∧ (Req.ai req ≠ Some "true" →
          ∀ prompt,
            Enhanced.freepikAIResults ad (Req.ai req) prompt
            = Traced [] (fulfilled []))).
Proof.
  split; [|split]; intros; (split; [|split]).
  - apply server_ai_only_if_flag.
  - apply server_ai_if_flag.
  - intros Hai q. unfold Server.freepikAIResults.
    by rewrite bool_decide_eq_false_2.
  - apply basic_ai_only_if_flag.
  - apply basic_ai_if_flag.
  - intros Hai q. unfold Basic.freepikAIResults.
    by rewrite bool_decide_eq_false_2.
  - apply enhanced_ai_only_if_flag.
  - apply enhanced_ai_if_flag.
  - intros Hai q. unfold Enhanced.freepikAIResults.
    by rewrite bool_decide_eq_false_2.
Qed.

(** The flag on four requests for "logo": [ai=true], [ai=TRUE], [ai=1] and
    no [ai]. *)
Example ai_images_need_flag_examples :
  let called ai :=
    existsb Server.Call.isAI
      (Server.getSearch Sample.noTerms Sample.serverAdapters Extract.triadic
         (Req.mk (Some "logo") None None None None None None None None None
                 ai None)).1 in
  called (Some "true") = true
  ∧ called (Some "TRUE") = false
  ∧ called (Some "1") = false
  ∧ called None = false.
Proof. repeat split. Qed.

(** *** Fan-out and fan-in *)

Lemma startAll_traced (ad : Updated.adapters) (cs : list Updated.Call.t) :
  Updated.startAll ad cs = Traced cs (fulfilled (Updated.settle ad <$> cs)).
Proof.
  induction cs as [|c cs IH]; [done|]. simpl. rewrite IH.
  unfold Updated.start, Handler.invoke, mbind, traced_bind. simpl.
  by rewrite app_nil_r.
Qed.

(** What the loop of lines 607-617 reads in the promise of an image
    adapter, and in the one of [getFontPairings]. *)
Lemma valuesOf_image (ad : Updated.adapters) (c : Updated.Call.t) :
  Updated.Call.isImageSearch c = true →
  Updated.valuesOf (Updated.settle ad c) = Some <$> Updated.produced ad c.
Proof.
  destruct c; try done; intros _; unfold Updated.settle, Updated.produced;
    by destruct (ad _).
Qed.

Lemma valuesOf_getFontPairings (ad : Updated.adapters) designStyle industry :
  Updated.valuesOf
    (Updated.settle ad (Updated.Call.getFontPairings designStyle industry))
  = match ad (Updated.Call.getFontPairings designStyle industry) with
    | fulfilled pairings => pairings
    | rejected _ => []
    end.
Proof. unfold Updated.settle. by destruct (ad _). Qed.

Lemma combine_gathered (ad : Updated.adapters) (req : Req.t)
    (relatedTerms : list string) :
  Updated.combine req
    (Updated.settle ad <$> Updated.searchCalls req relatedTerms)
  = (Some <$> Updated.gathered ad req relatedTerms)
    ++ Updated.strayPairings ad req.
Proof.
  unfold Updated.gathered, Updated.strayPairings,
    Updated.combine, Updated.searchCalls, Updated.fontQuery,
    Updated.colorQuery, Updated.skipped, JS.slice0.
  destruct (JS.truthy (Req.font req)), (JS.truthy (Req.color req)),
    (2 <? String.length (default "" (Req.q req)));
    destruct relatedTerms as [|t1 [|t2 [|t3 rest]]];
    cbn -[Updated.valuesOf Updated.settle Updated.produced];
    rewrite ?take_0;
    cbn -[Updated.valuesOf Updated.settle Updated.produced];
    rewrite ?valuesOf_getFontPairings, ?valuesOf_image by done;
    rewrite ?fmap_app, ?app_nil_r, <- ?app_assoc;
    cbn [Updated.produced fmap list_fmap app];
    rewrite ?app_nil_r; reflexivity.
Qed.

Lemma objects_items (l : list Item) : Updated.objects (Some <$> l) = fulfilled l.
Proof. induction l as [|a l IH]; [done|]. cbn. by rewrite IH. Qed.

Lemma objects_app (l : list Item) (entries : list (option Item)) :
  Updated.objects ((Some <$> l) ++ entries)
  = imgs ← Updated.objects entries; mret (l ++ imgs).
Proof.
  induction l as [|a l IH]; cbn.
  - by destruct (Updated.objects entries).
  - rewrite IH. by destruct (Updated.objects entries).
Qed.

Lemma objects_null (entries : list (option Item)) :
  None ∈ entries →
  Updated.objects entries
  = rejected "TypeError: Cannot read properties of null (reading 'image')".
Proof.
  induction entries as [|[a|] entries IH]; intros Hin.
  - by apply elem_of_nil in Hin.
  - apply elem_of_cons in Hin as [?|Hin]; [done|]. cbn. by rewrite IH.
  - reflexivity.
Qed.

Lemma dedupe_items (l pairings : list Item) :
  Updated.dedupe ((Some <$> l) ++ (Some <$> pairings))
  = fulfilled (Dedup.uniqueImages image (l ++ pairings)).
Proof. unfold Updated.dedupe. by rewrite <- fmap_app, objects_items. Qed.

Lemma dedupe_null (l : list Item) (entries : list (option Item)) :
  None ∈ entries →
  Updated.dedupe ((Some <$> l) ++ entries)
  = rejected "TypeError: Cannot read properties of null (reading 'image')".
Proof.
  intros Hnull. unfold Updated.dedupe.
  by rewrite objects_app, objects_null.
Qed.

Lemma objects_fulfilled (entries : list (option Item)) (imgs : list Item) :
  Updated.objects entries = fulfilled imgs → entries = Some <$> imgs.
Proof.
  revert imgs. induction entries as [|[a|] entries IH]; intros imgs; cbn.
  - by intros [= <-].
  - destruct (Updated.objects entries) as [rest|e]; [|done].
    cbn. intros [= <-]. by rewrite (IH rest eq_refl).
  - done.
Qed.

Lemma dedupe_fulfilled (l : list Item) (entries : list (option Item))
    (uniqueImages : list Item) :
  Updated.dedupe ((Some <$> l) ++ entries) = fulfilled uniqueImages →
  ∃ pairings,
    entries = Some <$> pairings
    ∧ uniqueImages = Dedup.uniqueImages image (l ++ pairings).
Proof.
  unfold Updated.dedupe. rewrite objects_app.
  destruct (Updated.objects entries) as [pairings|e] eqn:Hentries; [|done].
  cbn. intros [= <-]. exists pairings. split; [|done].
  by apply objects_fulfilled.
Qed.

Lemma updated_getSearch (ad : Updated.adapters) (req : Req.t)
    (relatedTerms : list string) :
  JS.truthy (Req.q req) = true →
  ad (Updated.relatedCall req) = fulfilled relatedTerms →
  (Updated.getSearch ad req).1
  = Updated.relatedCall req :: Updated.searchCalls req relatedTerms
  ∧ (None ∈ Updated.strayPairings ad req →
     (Updated.getSearch ad req).2
     = Handler.failure 500 "Failed to fetch design inspiration"
         (Some "TypeError: Cannot read properties of null (reading 'image')"))
  ∧ ∀ pairings,
      Updated.strayPairings ad req = Some <$> pairings →
      match
        Updated.sortImages (Req.sortBy req) (default "" (Req.q req))
          (Dedup.uniqueImages image
             (Updated.gathered ad req relatedTerms ++ pairings))
      with
      | fulfilled sortedImages =>
          ∃ body,
            (Updated.getSearch ad req).2 = Handler.json 200 body
            ∧ Updated.images body = JS.slice0 12 sortedImages
            ∧ Updated.relatedTerms body = relatedTerms
      | rejected e =>
          (Updated.getSearch ad req).2
          = Handler.failure 500 "Failed to fetch design inspiration" (Some e)
      end.
Proof.
  intros Hq Hrelated.
  unfold Updated.getSearch, Handler.catch500, Updated.search.
  rewrite Hq. cbv zeta. cbn [negb fst snd].
  rewrite call_traced, Hrelated.
  unfold Async.allSettled, Handler.await, Handler.run.
  split; [|split].
  - trace_step. rewrite startAll_traced. do 2 trace_step.
    rewrite combine_gathered.
    destruct (Updated.dedupe _) as [imgs|e]; [|by rewrite app_nil_r].
    trace_step.
    destruct (Updated.sortImages _ _ _); cbn; by rewrite !app_nil_r.
  - intros Hnull.
    trace_step. rewrite startAll_traced. do 2 trace_step.
    rewrite combine_gathered, dedupe_null by done.
    reflexivity.
  - intros pairings Hpairings.
    trace_step. rewrite startAll_traced. do 2 trace_step.
    rewrite combine_gathered, Hpairings, dedupe_items.
    trace_step.
    destruct (Updated.sortImages _ _ _) as [sortedImages|e]; [|reflexivity].
    eexists. split; [reflexivity|]. split; reflexivity.
Qed.

Lemma sortImages_settles (sortBy : JS.value) (q : string)
    (uniqueImages : list Item) :
  sortBy ≠ Some "relevance" ∨ Forall (λ a, title a ≠ None) uniqueImages →
  ∃ sortedImages,
    Updated.sortImages sortBy q uniqueImages = fulfilled sortedImages.
Proof.
  intros [Hsort|Htitles].
  - unfold Updated.sortImages. rewrite bool_decide_eq_false_2 by done.
    case_bool_decide; by eexists.
  - destruct (decide (sortBy = Some "relevance")) as [->|Hsort].
    + rewrite sortImages_relevance by by left. by eexists.
    + unfold Updated.sortImages. rewrite bool_decide_eq_false_2 by done.
      case_bool_decide; by eexists.
Qed.

Lemma server_getSearch_rejected terms (ad : Server.adapters) scheme
    (req : Req.t) (aiSuggestions : string) :
  JS.truthy (Req.q req) = true →
  ad (Server.suggestCall req) = fulfilled aiSuggestions →
  let qs :=
    Server.buildQueries req
      (Extract.extractAdvancedColorPalette scheme aiSuggestions (Req.color req)) in
  Exists (λ p, Async.isFulfilled p = false) (Server.fanOut ad qs) →
  ∃ e,
    Server.getSearch terms ad scheme req
    = (Server.suggestCall req :: Server.fanOutCalls qs,
       Handler.failure 500 "Failed to fetch design resources" (Some e)).
Proof.
  intros Hq Hsuggest qs Hrejected.
  destruct (all_rejected _ Hrejected) as [e He]. exists e.
  unfold Server.getSearch, Handler.catch500, Server.search.
  rewrite Hq. cbv zeta. cbn [negb].
  rewrite call_traced, Hsuggest.
  unfold Handler.invoke, Handler.await. f_equal.
  - do 8 trace_step.
    change (Async.all _) with (Async.all (Server.fanOut ad qs)).
    rewrite He. trace_step. reflexivity.
  - do 8 trace_step.
    change (Async.all _) with (Async.all (Server.fanOut ad qs)).
    rewrite He. trace_step. reflexivity.
Qed.

(** With every adapter fulfilled, the answer of [server.js] hangs on
    [extractRelatedTerms]. *)
Lemma server_getSearch_fulfilled terms (ad : Server.adapters) scheme
    (req : Req.t) (aiSuggestions : string) :
  JS.truthy (Req.q req) = true →
  (∀ c, Async.isFulfilled (ad c) = true) →
  ad (Server.suggestCall req) = fulfilled aiSuggestions →
  Handler.status (Server.getSearch terms ad scheme req).2
  = if Async.isFulfilled
         (terms (default "" (Req.q req)) aiSuggestions (Req.industry req)
            (Req.designStyle req))
    then 200 else 500.
Proof.
  intros Hq Had Hsuggest.
  unfold Server.getSearch, Handler.catch500, Server.search. rewrite Hq.
  cbv zeta. cbn [negb snd]. trace_step. rewrite Hsuggest.
  trace_step. unfold Handler.invoke. do 7 trace_step.
  join_fulfilled Had.
  unfold Handler.await, Handler.run. trace_step.
  unfold Server.freepikAIResults.
  case_bool_decide.
  - trace_step.
    match goal with
    | |- context [ad (Server.Call.fetchFreepikAIImage ?c)] =>
        pose proof (Had (Server.Call.fetchFreepikAIImage c));
        destruct (ad (Server.Call.fetchFreepikAIImage c)); [|done]
    end.
    trace_step. by destruct (terms _ _ _ _).
  - trace_step. by destruct (terms _ _ _ _).
Qed.

(** *** When [nlpUtils.extractEnhancedTerms] throws *)

Section nlp_facts.
Variable tokenize : string → list string.
Variable stem : string → string.

Lemma tokenTerms_settles (industry : JS.value) (token : string) :
  match Terms.tokenTerms industry token with
  | fulfilled terms =>
      ¬ Terms.throws industry ∧ head terms = Some (token +:+ " design")
  | rejected _ => Terms.throws industry
  end.
Proof.
  unfold Terms.tokenTerms, Terms.throws, Terms.industryTerms. cbv zeta.
  destruct (JS.truthy industry); [|split; [by intros [? _]|done]].
  case_bool_decide as Hkey; simpl; [done|]. split; [|done]. by intros [_ ?].
Qed.

Lemma mapM_tokenTerms (industry : JS.value) (tokens : list string) :
  match Enhanced.mapM (Terms.tokenTerms industry) tokens with
  | fulfilled added =>
      (tokens = [] ∨ ¬ Terms.throws industry)
      ∧ ∀ token rest, tokens = token :: rest →
          head (concat added) = Some (token +:+ " design")
  | rejected _ => tokens ≠ [] ∧ Terms.throws industry
  end.
Proof.
  induction tokens as [|token tokens IH]; simpl.
  - split; [by left|done].
  - pose proof (tokenTerms_settles industry token) as Htoken.
    destruct (Terms.tokenTerms industry token) as [terms|e]; simpl; [|done].
    destruct Htoken as [Hthrows Hhead].
    destruct (Enhanced.mapM _ tokens) as [added|e]; simpl.
    + split; [by right|]. intros ? ? [= <- <-].
      by destruct terms.
    + by destruct IH.
Qed.

End nlp_facts.

Lemma extractEnhancedTerms_settles (tokenize : string → list string)
    (stem : string → string) (query : string) (industry designStyle : JS.value) :
  Async.isFulfilled
    (Terms.extractEnhancedTerms tokenize stem query industry designStyle)
  = true
  ↔ tokenize (JS.toLowerCase query) = [] ∨ ¬ Terms.throws industry.
Proof.
  unfold Terms.extractEnhancedTerms. cbv zeta.
  pose proof (mapM_tokenTerms industry
                (stem <$> tokenize (JS.toLowerCase query))) as Hadded.
  destruct (Enhanced.mapM _ _) as [added|e];
    cbn [mbind settled_bind Async.andThen mret settled_ret Async.isFulfilled].
  - destruct Hadded as [[Hnil|Hthrows] _].
    + apply fmap_nil_inv in Hnil. split; [by left|done].
    + split; [by right|done].
  - destruct Hadded as [Hne Hthrows]. split; [done|].
    intros [Hnil|?]; [|done]. by rewrite Hnil in Hne.
Qed.




(** ** Adapters *)

Lemma tryCatch_empty_fulfilled {A} (body : settled (list A)) :
  ∃ items, Async.tryCatch body (λ error, mret []) = fulfilled items.
Proof. destruct body; by eexists. Qed.

Lemma axios_failed {P} (o : Http.outcome P) :
  Http.failed o → ∃ e, Http.axios o = rejected e.
Proof.
  destruct o as [m|m|status data]; simpl; [by eexists..|].
  intros ->. by eexists.
Qed.

Ltac http_cases o :=
  let status := fresh "status" in
  let data := fresh "data" in
  let Hok := fresh "Hok" in
  destruct o as [?|?|status data]; simpl;
    [done..|destruct (Http.statusOk status) eqn:Hok; simpl].

Section adapter_facts.
Variable keyword : string → option string.
Variable JSON_parse : string → option (list string).
Variable base64 : string → string.

Lemma server_fetchSerpAPIImages_soft query limit :
  failsSoft (λ w, Server.fetchSerpAPIImages w query limit)
    (λ w, Http.failedOr (λ d, Server.Serp.images_results d = None)
            (Server.serpapi w query)).
Proof.
  intros w. split; [apply tryCatch_empty_fulfilled|].
  unfold Server.fetchSerpAPIImages.
  http_cases (Server.serpapi w query); [|done].
  intros [?| ->]; [done|reflexivity].
Qed.

Lemma server_fetchFreepikImages_soft query limit format :
  failsSoft (λ w, Server.fetchFreepikImages w query limit format)
    (λ w, Http.failedOr
            (λ body, body = None ∨ body = Some {| Server.Freepik.data := None |})
            (Server.resources w (Server.freepikParams query limit format))).
Proof.
  intros w. split; [apply tryCatch_empty_fulfilled|].
  unfold Server.fetchFreepikImages.
  http_cases (Server.resources w (Server.freepikParams query limit format));
    [|done].
  intros [?|[ -> | -> ]]; [done|reflexivity..].
Qed.

Lemma server_fetchFreepikAIImage_soft seed prompt :
  failsSoft (λ w, Server.fetchFreepikAIImage w seed prompt)
    (λ w, Http.failedOr
            (λ body, body = None
                     ∨ body = Some {| Server.Freepik.images := None |})
            (Server.textToImage w prompt seed)).
Proof.
  intros w. split; [apply tryCatch_empty_fulfilled|].
  unfold Server.fetchFreepikAIImage.
  http_cases (Server.textToImage w prompt seed); [|done].
  intros [?|[ -> | -> ]]; [done|reflexivity..].
Qed.

Lemma updated_fetchSerpAPIImages_soft query limit colorHex designStyle f :
  failsSoft
    (λ w, Updated.fetchSerpAPIImages keyword w query limit colorHex designStyle f)
    (λ w, ∀ params,
       Http.failedOr (λ d, Updated.Serp.images_results d = None)
         (Updated.serpapi w params)).
Proof.
  intros w. split; [apply tryCatch_empty_fulfilled|].
  unfold Updated.fetchSerpAPIImages. intros Hdown.
  match goal with
  | |- context [Updated.serpapi w ?params] =>
      specialize (Hdown params); revert Hdown;
      http_cases (Updated.serpapi w params); [|done]
  end.
  intros [?| ->]; [done|reflexivity].
Qed.

Lemma updated_scrapeDribbble_soft query limit colorHex designStyle :
  failsSoft
    (λ w, Updated.scrapeDribbble w query limit colorHex designStyle)
    (λ w, Async.isFulfilled (Updated.launch (Updated.puppeteer w)) = false
          ∨ ∀ url args, Updated.pageFails (Updated.puppeteer w) url args limit).
Proof.
  intros w. split; [apply tryCatch_empty_fulfilled|].
  unfold Updated.scrapeDribbble.
  destruct (Updated.launch (Updated.puppeteer w)) as [[]|e]; simpl;
    [|done].
  intros [?|Hpage]; [done|].
  match goal with
  | |- context [Updated.evaluate _ ?url ?args] =>
      specialize (Hpage url args); revert Hpage
  end.
  unfold Updated.pageFails.
  destruct (Updated.newPage (Updated.puppeteer w)) as [[]|?]; simpl; [|done].
  destruct (Updated.goto (Updated.puppeteer w) _) as [[]|?]; simpl; [|done].
  destruct (Updated.evaluate (Updated.puppeteer w) _ _ _) as [results|?];
    simpl; [|done].
  destruct (Updated.close (Updated.puppeteer w)) as [[]|?]; simpl; [|done].
  intros [?|[?|[?|?]]]; done.
Qed.

(** The steps of a scraper on the shared browser, after the page is
    open. *)
Ltac page_steps w :=
  repeat match goal with
    | |- context [Updated.newPage (Updated.puppeteer w)] =>
        destruct (Updated.newPage (Updated.puppeteer w)) as [[]|?];
          simpl; [|done]
    | |- context [Updated.setUserAgent (Updated.puppeteer w)] =>
        destruct (Updated.setUserAgent (Updated.puppeteer w)) as [[]|?];
          simpl; [|done]
    | |- context [Updated.goto (Updated.puppeteer w) ?url] =>
        destruct (Updated.goto (Updated.puppeteer w) url) as [[]|?];
          simpl; [|done]
    | |- context [Updated.scrollBy (Updated.puppeteer w)] =>
        destruct (Updated.scrollBy (Updated.puppeteer w)) as [[]|?];
          simpl; [|done]
    | |- context [Updated.waitForTimeout (Updated.puppeteer w)] =>
        destruct (Updated.waitForTimeout (Updated.puppeteer w)) as [[]|?];
          simpl; [|done]
    | |- context [Updated.evaluate (Updated.puppeteer w) ?url ?args ?limit] =>
        destruct (Updated.evaluate (Updated.puppeteer w) url args limit)
          as [?|?]; simpl; [|done]
    | |- context [Updated.close (Updated.puppeteer w)] =>
        destruct (Updated.close (Updated.puppeteer w)) as [[]|?];
          simpl; [|done]
    end.

Lemma updated_scrapeDesignspiration_soft query limit :
  failsSoft (λ w, Updated.scrapeDesignspiration w true query limit)
    (λ w, Async.isFulfilled (Updated.setUserAgent (Updated.puppeteer w)) = false
          ∨ ∀ url args, Updated.pageFails (Updated.puppeteer w) url args limit).
Proof.
  intros w. unfold Updated.scrapeDesignspiration. simpl.
  split; [apply tryCatch_empty_fulfilled|].
  intros [Hagent|Hpage].
  - destruct (Updated.newPage (Updated.puppeteer w)) as [[]|?]; simpl; [|done].
    by destruct (Updated.setUserAgent (Updated.puppeteer w)) as [[]|?].
  - match goal with
    | |- context [Updated.evaluate _ ?url ?args] =>
        specialize (Hpage url args); revert Hpage
    end.
    unfold Updated.pageFails. page_steps w.
    intros [?|[?|[?|?]]]; done.
Qed.

(** With no shared browser yet, a launch that fails is not caught. *)
Lemma updated_scrapeDesignspiration_launch w query limit e :
  Updated.launch (Updated.puppeteer w) = rejected e →
  Updated.scrapeDesignspiration w false query limit = rejected e.
Proof. intros Hlaunch. unfold Updated.scrapeDesignspiration. by rewrite Hlaunch. Qed.

Lemma updated_scrapeMuzli_soft query limit :
  failsSoft (λ w, Routes.scrapeMuzli w true query limit)
    (λ w, Async.isFulfilled (Updated.setUserAgent (Updated.puppeteer w)) = false
          ∨ ∀ url args, Updated.pageFails (Updated.puppeteer w) url args limit).
Proof.
  intros w. unfold Routes.scrapeMuzli. simpl.
  split; [apply tryCatch_empty_fulfilled|].
  intros [Hagent|Hpage].
  - destruct (Updated.newPage (Updated.puppeteer w)) as [[]|?]; simpl; [|done].
    by destruct (Updated.setUserAgent (Updated.puppeteer w)) as [[]|?].
  - match goal with
    | |- context [Updated.evaluate _ ?url ?args] =>
        specialize (Hpage url args); revert Hpage
    end.
    unfold Updated.pageFails. page_steps w.
    intros [?|[?|[?|?]]]; done.
Qed.

Lemma updated_scrapeMuzli_launch w query limit e :
  Updated.launch (Updated.puppeteer w) = rejected e →
  Routes.scrapeMuzli w false query limit = rejected e.
Proof. intros Hlaunch. unfold Routes.scrapeMuzli. by rewrite Hlaunch. Qed.

Lemma updated_scrapeInstagram_soft query limit :
  failsSoft (λ w, Routes.scrapeInstagram w true query limit)
    (λ w, Async.isFulfilled (Updated.setUserAgent (Updated.puppeteer w)) = false
          ∨ Async.isFulfilled (Updated.scrollBy (Updated.puppeteer w)) = false
          ∨ Async.isFulfilled (Updated.waitForTimeout (Updated.puppeteer w))
            = false
          ∨ ∀ url args, Updated.pageFails (Updated.puppeteer w) url args limit).
Proof.
  intros w. unfold Routes.scrapeInstagram. simpl.
  split; [apply tryCatch_empty_fulfilled|].
  intros Hdown.
  assert (Updated.pageFails (Updated.puppeteer w)
            ("https://www.instagram.com/explore/tags/"
             +:+ Routes.hashtag query +:+ "/") [] limit
          ∨ Async.isFulfilled (Updated.setUserAgent (Updated.puppeteer w))
            = false
          ∨ Async.isFulfilled (Updated.scrollBy (Updated.puppeteer w)) = false
          ∨ Async.isFulfilled (Updated.waitForTimeout (Updated.puppeteer w))
            = false) as Hsteps
    by (destruct Hdown as [?|[?|[?|Hpage]]];
          [by right; left|by right; right; left|by right; right; right
          |left; apply Hpage]).
  clear Hdown. revert Hsteps. unfold Updated.pageFails. page_steps w.
  intros [[?|[?|[?|?]]]|[?|[?|?]]]; done.
Qed.

Lemma updated_scrapeInstagram_launch w query limit e :
  Updated.launch (Updated.puppeteer w) = rejected e →
  Routes.scrapeInstagram w false query limit = rejected e.
Proof. intros Hlaunch. unfold Routes.scrapeInstagram. by rewrite Hlaunch. Qed.

(** The text adapter answers a failure with a fixed message. *)
Lemma updated_getDesignSuggestions_soft w args :
  (∃ text, Updated.getDesignSuggestions w args = fulfilled text)
  ∧ (Http.failedOr (λ data, data = None)
       (Updated.generateContent w "design suggestions" args) →
     Updated.getDesignSuggestions w args
     = fulfilled "Could not generate AI suggestions due to an error.").
Proof.
  unfold Updated.getDesignSuggestions.
  split; [destruct (_ ≫= _); by eexists|].
  http_cases (Updated.generateContent w "design suggestions" args); [|done].
  intros [?| ->]; [done|reflexivity].
Qed.

(** The palette adapter throws what it catches. *)
Lemma updated_generateColorPalette_rejects w baseColor theme industry :
  Http.failedOr (λ data, data = None)
    (Updated.generateContent w "color palette" [Some baseColor; theme; industry]) →
  ∃ e, Updated.generateColorPalette keyword JSON_parse w baseColor theme industry
       = rejected e.
Proof.
  intros Hdown. unfold Updated.generateColorPalette.
  match goal with
  | |- context [Http.axios ?o] =>
      change (Http.failedOr (λ data, data = None) o) in Hdown;
      destruct o as [m|m|status data]
  end; simpl in *; [by eexists..|].
  destruct (Http.statusOk status); simpl; [|by eexists].
  destruct Hdown as [?| ->]; [done|by eexists].
Qed.

Lemma axios_noItems (o : Http.outcome (option Enhanced.Cse.body)) :
  Http.failedOr Enhanced.noItems o →
  (∃ e, Http.axios o = rejected e)
  ∨ (∃ status body, Http.axios o = fulfilled (status, body) ∧ Enhanced.noItems body).
Proof.
  destruct o as [m|m|status data]; simpl; [left; by eexists..|].
  destruct (Http.statusOk status); [|left; by eexists].
  intros [?|Hbody]; [done|]. right. by eexists _, _.
Qed.

Lemma enhanced_fetchGoogleImages_soft query limit :
  failsSoft (λ w, Enhanced.fetchGoogleImages base64 w query limit)
    (λ w, ∀ params, Http.failedOr Enhanced.noItems (Enhanced.customsearch w params)).
Proof.
  intros w. split; [apply tryCatch_empty_fulfilled|].
  unfold Enhanced.fetchGoogleImages. intros Hdown.
  match goal with
  | |- context [Http.axios (Enhanced.customsearch w ?params)] =>
      destruct (axios_noItems _ (Hdown params))
        as [[e ->]|[status [body [-> Hbody]]]]; [done|]
  end.
  assert (Async.tryCatch
            (match body with
             | Some {| Enhanced.Cse.items := Some (it :: its) |} =>
                 Enhanced.processGoogleResults base64 (it :: its)
             | _ => mret []
             end) (λ _, mret []) = fulfilled []) as Hprimary
    by (destruct Hbody as [->|[->| ->]]; done).
  destruct Hbody as [->|[->| ->]]; simpl;
    (destruct (3 <? length (JS.split " " query)); [|done]);
    match goal with
    | |- context [Http.axios (Enhanced.customsearch w ?params)] =>
        destruct (axios_noItems _ (Hdown params))
          as [[e ->]|[status2 [body2 [-> Hbody2]]]]; [done|]
    end;
    destruct Hbody2 as [->|[->| ->]]; done.
Qed.

Lemma enhanced_fetchPinterestViaGoogle_soft query limit :
  failsSoft (λ w, Enhanced.fetchPinterestViaGoogle base64 w query limit)
    (λ w, ∀ params, Http.failedOr Enhanced.noItems (Enhanced.customsearch w params)).
Proof.
  intros w. split; [apply tryCatch_empty_fulfilled|].
  unfold Enhanced.fetchPinterestViaGoogle. intros Hdown.
  match goal with
  | |- context [Http.axios (Enhanced.customsearch w ?params)] =>
      destruct (axios_noItems _ (Hdown params))
        as [[e ->]|[status [body [-> Hbody]]]]; [done|]
  end.
  destruct Hbody as [->|[->| ->]]; done.
Qed.

Lemma enhanced_fetchDesignPlatformsInspiration_soft query industry designStyle
    font limit :
  failsSoft
    (λ w, Enhanced.fetchDesignPlatformsInspiration base64 w query industry
            designStyle font limit)
    (λ w, ∀ params, Http.failedOr Enhanced.noItems (Enhanced.customsearch w params)).
Proof.
  intros w. split; [apply tryCatch_empty_fulfilled|].
  unfold Enhanced.fetchDesignPlatformsInspiration. intros Hdown.
  destruct (Enhanced.platformQueries query industry designStyle font)
    as [mainQuery alternateQuery].
  rewrite !(proj2 (enhanced_fetchPinterestViaGoogle_soft _ _ w) Hdown).
  reflexivity.
Qed.

End adapter_facts.

(** C3, as stated, fails on two adapters of [updatedserver.txt] when the
    network is down: [generateColorPalette] rejects, and
    [getDesignSuggestions] settles with a message, not with an empty
    sequence. *)
Lemma palette_adapter_rejects_when_offline :
  Updated.generateColorPalette Sample.noKeyword Sample.noParse
    Sample.updatedOffline "#336699" None None
  = rejected "Network Error"
  ∧ Updated.getDesignSuggestions Sample.updatedOffline []
    = fulfilled "Could not generate AI suggestions due to an error.".
Proof. split; reflexivity. Qed.

(** C3 (amended): every adapter that gives images to a handler of
    [GET /search] settles fulfilled whatever its upstream does, and with
    the empty list when the upstream calls fail (network failure, timeout,
    a status that is not 2xx, or a payload without the field that holds the
    results; for a scraper, a failing step on the page): [fetchSerpAPIImages],
    [fetchFreepikImages] and [fetchFreepikAIImage] of [server.js];
    [fetchSerpAPIImages], [scrapeDribbble] and, once the shared browser is
    up, [scrapeDesignspiration], [scrapeMuzli] and [scrapeInstagram] of
    [updatedserver.txt]; [fetchGoogleImages], [fetchPinterestViaGoogle] and
    [fetchDesignPlatformsInspiration] of [unnamed/part_000].  The text
    adapters differ: [getDesignSuggestions] settles fulfilled with a fixed
    message, [generateColorPalette] rejects; and [scrapeDesignspiration],
    [scrapeMuzli] and [scrapeInstagram] reject when they have to launch the
    browser and the launch fails. *)
Theorem image_adapters_fail_soft
    (keyword : string → option string)
    (JSON_parse : string → option (list string))
    (base64 : string → string) :
  (∀ query limit,
     failsSoft (λ w, Server.fetchSerpAPIImages w query limit)
       (λ w, Http.failedOr (λ d, Server.Serp.images_results d = None)
               (Server.serpapi w query)))
  ∧ (∀ query limit format,
       failsSoft (λ w, Server.fetchFreepikImages w query limit format)
         (λ w, Http.failedOr
                 (λ body, body = None
                          ∨ body = Some {| Server.Freepik.data := None |})
                 (Server.resources w (Server.freepikParams query limit format))))
  ∧ (∀ seed prompt,
       failsSoft (λ w, Server.fetchFreepikAIImage w seed prompt)
         (λ w, Http.failedOr
                 (λ body, body = None
                          ∨ body = Some {| Server.Freepik.images := None |})
                 (Server.textToImage w prompt seed)))
  ∧ (∀ query limit colorHex designStyle f,
       failsSoft
         (λ w, Updated.fetchSerpAPIImages keyword w query limit colorHex
                 designStyle f)
         (λ w, ∀ params,
            Http.failedOr (λ d, Updated.Serp.images_results d = None)
              (Updated.serpapi w params)))
  ∧ (∀ query limit colorHex designStyle,
       failsSoft
         (λ w, Updated.scrapeDribbble w query limit colorHex designStyle)
         (λ w, Async.isFulfilled (Updated.launch (Updated.puppeteer w)) = false
               ∨ ∀ url args,
                   Updated.pageFails (Updated.puppeteer w) url args limit))
  ∧ (∀ query limit,
       failsSoft (λ w, Updated.scrapeDesignspiration w true query limit)
         (λ w, Async.isFulfilled
                 (Updated.setUserAgent (Updated.puppeteer w)) = false
               ∨ ∀ url args,
                   Updated.pageFails (Updated.puppeteer w) url args limit))
  ∧ (∀ query limit,
       failsSoft (λ w, Routes.scrapeMuzli w true query limit)
         (λ w, Async.isFulfilled
                 (Updated.setUserAgent (Updated.puppeteer w)) = false
               ∨ ∀ url args,
                   Updated.pageFails (Updated.puppeteer w) url args limit))
  ∧ (∀ query limit,
       failsSoft (λ w, Routes.scrapeInstagram w true query limit)
         (λ w, Async.isFulfilled
                 (Updated.setUserAgent (Updated.puppeteer w)) = false
               ∨ Async.isFulfilled
                   (Updated.scrollBy (Updated.puppeteer w)) = false
               ∨ Async.isFulfilled
                   (Updated.waitForTimeout (Updated.puppeteer w)) = false
               ∨ ∀ url args,
                   Updated.pageFails (Updated.puppeteer w) url args limit))
  ∧ (∀ query limit,
       failsSoft (λ w, Enhanced.fetchGoogleImages base64 w query limit)
         (λ w, ∀ params,
            Http.failedOr Enhanced.noItems (Enhanced.customsearch w params)))
  ∧ (∀ query limit,
       failsSoft (λ w, Enhanced.fetchPinterestViaGoogle base64 w query limit)
         (λ w, ∀ params,
            Http.failedOr Enhanced.noItems (Enhanced.customsearch w params)))
  ∧ (∀ query industry designStyle font limit,
       failsSoft
         (λ w, Enhanced.fetchDesignPlatformsInspiration base64 w query
                 industry designStyle font limit)
         (λ w, ∀ params,
            Http.failedOr Enhanced.noItems (Enhanced.customsearch w params)))
  ∧ (∀ w args,
       (∃ text, Updated.getDesignSuggestions w args = fulfilled text)
       ∧ (Http.failedOr (λ data, data = None)
            (Updated.generateContent w "design suggestions" args) →
          Updated.getDesignSuggestions w args
          = fulfilled "Could not generate AI suggestions due to an error."))
  ∧ (∀ w baseColor theme industry,
       Http.failedOr (λ data, data = None)
         (Updated.generateContent w "color palette"
            [Some baseColor; theme; industry]) →
       ∃ e, Updated.generateColorPalette keyword JSON_parse w baseColor theme
              industry = rejected e)
  ∧ (∀ w query limit e,
       Updated.launch (Updated.puppeteer w) = rejected e →
       Updated.scrapeDesignspiration w false query limit = rejected e
       ∧ Routes.scrapeMuzli w false query limit = rejected e
       ∧ Routes.scrapeInstagram w false query limit = rejected e).
Proof.
  repeat split.
  all: first
    [ apply server_fetchSerpAPIImages_soft
    | apply server_fetchFreepikImages_soft
    | apply server_fetchFreepikAIImage_soft
    | apply updated_fetchSerpAPIImages_soft
    | apply updated_scrapeDribbble_soft
    | apply updated_scrapeDesignspiration_soft
    | apply updated_scrapeMuzli_soft
    | apply updated_scrapeInstagram_soft
    | apply enhanced_fetchGoogleImages_soft
    | apply enhanced_fetchPinterestViaGoogle_soft
    | apply enhanced_fetchDesignPlatformsInspiration_soft
    | apply updated_getDesignSuggestions_soft
    | apply updated_generateColorPalette_rejects
    | by apply updated_scrapeDesignspiration_launch
    | by apply updated_scrapeMuzli_launch
    | by apply updated_scrapeInstagram_launch ].
Qed.

(** The amended claim on [fetchSerpAPIImages] of [server.js] with SerpAPI
    unreachable, and on [scrapeMuzli] and [scrapeInstagram] when no step on
    a page succeeds. *)
Lemma image_adapters_fail_soft_witness :
  Http.failedOr (λ d, Server.Serp.images_results d = None)
    (Server.serpapi Sample.serverOffline "logo design inspiration")
  ∧ Server.fetchSerpAPIImages Sample.serverOffline "logo design inspiration" 10
    = fulfilled []
  ∧ Routes.scrapeMuzli Sample.updatedOffline true "logo" 2 = fulfilled []
  ∧ Routes.scrapeInstagram Sample.updatedOffline true "logo" 2 = fulfilled []
  ∧ Routes.scrapeMuzli Sample.updatedOffline false "logo" 2
    = rejected "Failed to launch the browser process".
Proof.
  pose proof (image_adapters_fail_soft Sample.noKeyword Sample.noParse id)
    as (Hserp & _ & _ & _ & _ & _ & Hmuzli & Hinstagram & _ & _ & _ & _ & _
        & Hlaunch).
  split; [exact I|]. split; [|split; [|split]].
  - by apply Hserp.
  - apply Hmuzli. by left.
  - apply Hinstagram. by left.
  - by apply Hlaunch.
Defined.

Example fetchSerpAPIImages_online :
  Server.fetchSerpAPIImages Sample.serverOnline "logo design inspiration" 10
  = fulfilled
      [mkItem (Some "https://x/a.png") (Some "Design Inspiration")
         (Some "Google Images") (Some "https://x") None None []].
Proof. reflexivity. Qed.

(** ** Query builder *)

(** *** Occurrences of a word without spaces *)

Section word_facts.
Variable word : string.
Hypothesis word_not_empty : word ≠ "".
Hypothesis word_no_space :
  JS.allChars (λ c, negb (Ascii.eqb c " ")) word = true.

Lemma prefix_app_space (w a b : string) :
  JS.allChars (λ c, negb (Ascii.eqb c " ")) w = true →
  String.prefix w (a +:+ String " " b) = String.prefix w a.
Proof.
  revert w. induction a as [|c a IH]; intros [|x w] Hw; simpl; try done.
  - simpl in Hw. apply andb_prop in Hw as [Hx _].
    destruct (ascii_dec x " ") as [->|]; [done|reflexivity].
  - simpl in Hw. apply andb_prop in Hw as [_ Hw].
    destruct (ascii_dec x c); [by apply IH|reflexivity].
Qed.

Lemma includes_empty : JS.includes "" word = false.
Proof. destruct word; [done|reflexivity]. Qed.

Lemma includes_cons c s :
  JS.includes (String c s) word
  = String.prefix word (String c s) || JS.includes s word.
Proof. destruct word; reflexivity. Qed.

(** An occurrence in [a ++ " " ++ b] lies in [a] or in [b]. *)
Lemma includes_app_space (a b : string) :
  JS.includes (a +:+ String " " b) word
  = JS.includes a word || JS.includes b word.
Proof.
  induction a as [|c a IH].
  - change ("" +:+ String " " b) with (String " " b).
    rewrite includes_cons, includes_empty.
    replace (String.prefix word (String " " b)) with false; [done|].
    destruct word as [|x w]; [done|]. simpl in *.
    apply andb_prop in word_no_space as [Hx _].
    destruct (ascii_dec x " ") as [->|]; [done|reflexivity].
  - change (String c a +:+ String " " b)
      with (String c (a +:+ String " " b)).
    rewrite !includes_cons, IH.
    change (String c (a +:+ String " " b))
      with (String c a +:+ String " " b).
    rewrite prefix_app_space by done. by rewrite orb_assoc.
Qed.

Lemma includes_cons_false c s :
  JS.includes (String c s) word = false → JS.includes s word = false.
Proof. rewrite includes_cons. by intros [_ ?]%orb_false_elim. Qed.

Lemma includes_trimStart s :
  JS.includes s word = false → JS.includes (JS.trimStart s) word = false.
Proof.
  induction s as [|c s IH]; [done|]. intros Hs. simpl.
  destruct (JS.is_space c); [|done]. apply IH.
  by apply (includes_cons_false c).
Qed.

Lemma prefix_trimEnd (w s : string) :
  String.prefix w (JS.trimEnd s) = true → String.prefix w s = true.
Proof.
  revert w. induction s as [|c s IH]; intros [|x w]; simpl; try done.
  destruct (JS.is_space c && String.eqb (JS.trimEnd s) ""); [done|].
  simpl. destruct (ascii_dec x c); [apply IH|done].
Qed.

Lemma includes_trimEnd s :
  JS.includes s word = false → JS.includes (JS.trimEnd s) word = false.
Proof.
  induction s as [|c s IH]; [done|]. intros Hs. simpl.
  destruct (JS.is_space c && String.eqb (JS.trimEnd s) "");
    [apply includes_empty|].
  rewrite includes_cons in Hs |- *.
  apply orb_false_elim in Hs as [Hp Hs].
  rewrite (IH Hs), orb_false_r.
  destruct (String.prefix word (String c (JS.trimEnd s))) eqn:Ht; [|done].
  assert (String.prefix word (String c s) = true); [|congruence].
  destruct word as [|x w]; [done|]. simpl in Ht |- *.
  destruct (ascii_dec x c); [by apply prefix_trimEnd|done].
Qed.

Lemma includes_trim s :
  JS.includes s word = false → JS.includes (JS.trim s) word = false.
Proof. intros Hs. by apply includes_trimEnd, includes_trimStart. Qed.

Local Abbreviation free := (JS.free word).

Lemma free_or_else v s :
  free v → JS.includes s word = false →
  JS.includes (JS.or_else v s) word = false.
Proof.
  intros Hv Hs. unfold JS.or_else. destruct (JS.truthy v); [|done].
  destruct v; [exact Hv|apply includes_empty].
Qed.

Lemma includes_join (parts : list string) :
  Forall (λ s, JS.includes s word = false) parts →
  JS.includes (JS.join " " parts) word = false.
Proof.
  induction 1 as [|s parts Hs Hparts IH]; [apply includes_empty|].
  unfold JS.join in *. simpl.
  destruct parts as [|s' parts]; [done|].
  change (s ++ " " ++ String.concat " " (s' :: parts))%string
    with (s +:+ String " " (String.concat " " (s' :: parts))).
  by rewrite includes_app_space, Hs, IH.
Qed.

Lemma free_filterBoolean (parts : list JS.value) :
  Forall free parts →
  Forall (λ s, JS.includes s word = false) (JS.filterBoolean parts).
Proof.
  induction 1 as [|v parts Hv _ IH]; [constructor|].
  unfold JS.filterBoolean in *. simpl.
  destruct (JS.truthy v); [|done]. destruct v; [|done]. by constructor.
Qed.

Lemma free_join (parts : list JS.value) :
  Forall free parts →
  JS.includes (JS.join " " (JS.filterBoolean parts)) word = false.
Proof. intros. by apply includes_join, free_filterBoolean. Qed.

End word_facts.

(** *** The word "undefined" *)

Lemma clean_app_space (a b : string) :
  clean a → clean b → clean (a +:+ String " " b).
Proof.
  unfold clean. intros Ha Hb.
  rewrite (includes_app_space "undefined") by done. by rewrite Ha, Hb.
Qed.

Lemma clean_trim (s : string) : clean s → clean (JS.trim s).
Proof. by apply (includes_trim "undefined"). Qed.

Lemma clean_or_else v s : JS.free "undefined" v → clean s → clean (JS.or_else v s).
Proof. by apply (free_or_else "undefined"). Qed.

Lemma clean_default v : JS.free "undefined" v → clean (default "" v).
Proof. by destruct v. Qed.

Lemma clean_join (parts : list JS.value) :
  Forall (JS.free "undefined") parts →
  clean (JS.join " " (JS.filterBoolean parts)).
Proof. by apply (free_join "undefined"). Qed.

(** A string without the letter [u] is clean. *)
Lemma clean_without_u (s : string) :
  JS.allChars (λ c, negb (Ascii.eqb c "u")) s = true → clean s.
Proof.
  unfold clean. induction s as [|c s IH]; [done|]. cbn [JS.allChars].
  intros [Hc Hs]%andb_prop.
  rewrite (includes_cons "undefined") by done.
  rewrite (IH Hs), orb_false_r.
  change "undefined" with (String "u" "ndefined"). cbn [String.prefix].
  destruct (ascii_dec "u" c) as [<-|]; [done|reflexivity].
Qed.

Lemma hexDigits_without_u (n : nat) : ∀ s h,
  Extract.hexDigits n s = Some h →
  JS.allChars (λ c, negb (Ascii.eqb c "u")) h = true.
Proof.
  induction n as [|n IH]; intros s h; simpl.
  - by intros [= <-].
  - destruct s as [|c r]; [done|].
    destruct (JS.is_hex c) eqn:Hc; [|done].
    destruct (Extract.hexDigits n r) as [h'|] eqn:Hh; [|done].
    intros [= <-]. simpl. rewrite (IH _ _ Hh), andb_true_r.
    destruct (Ascii.eqb_spec c "u") as [->|]; [done|reflexivity].
Qed.

Lemma hexCodeAt_clean (s m : string) : Extract.hexCodeAt s = Some m → clean m.
Proof.
  destruct s as [|c r]; [done|]. cbn [Extract.hexCodeAt].
  destruct (Ascii.eqb c "#"); [|done].
  destruct (Extract.hexDigits 6 r) as [h|] eqn:H6.
  - intros [= <-]. apply clean_without_u. simpl.
    by rewrite (hexDigits_without_u _ _ _ H6).
  - destruct (Extract.hexDigits 3 r) as [h|] eqn:H3; [|done].
    intros [= <-]. apply clean_without_u. simpl.
    by rewrite (hexDigits_without_u _ _ _ H3).
Qed.

Lemma matchHexCodes_clean (text : string) :
  Forall clean (Extract.matchHexCodes text).
Proof.
  unfold Extract.matchHexCodes. generalize 0.
  induction text as [|c r IH]; intros skip; [constructor|].
  cbn [Extract.matchHexFrom]. destruct skip as [|k]; [|apply IH].
  destruct (Extract.hexCodeAt (String c r)) as [m|] eqn:Hm; [|apply IH].
  constructor; [by eapply hexCodeAt_clean|apply IH].
Qed.

Lemma colorMap_clean (name : string) : Forall clean (Extract.colorMap name).
Proof.
  unfold Extract.colorMap.
  repeat (destruct (String.eqb name _); [by repeat constructor|]).
  constructor.
Qed.

Lemma generateColorFromNames_clean (names : list string) :
  Forall clean (Extract.generateColorFromNames names).
Proof.
  unfold Extract.generateColorFromNames.
  induction names as [|name names IH]; [constructor|]. simpl.
  apply Forall_app. split; [apply colorMap_clean|done].
Qed.

Lemma setSpread_subseteq (l : list string) : Dedup.setSpread l ⊆ l.
Proof.
  unfold Dedup.setSpread. rewrite uniqueImages_fresh.
  apply sublist_subseteq, fresh_sublist.
Qed.

Lemma combinedColors_clean text (inputColor : JS.value) :
  JS.free "undefined" inputColor →
  Forall clean (Extract.combinedColors text inputColor).
Proof.
  intros Hcolor. unfold Extract.combinedColors.
  apply Forall_forall. intros x Hx%setSpread_subseteq. revert x Hx.
  apply Forall_forall.
  apply Forall_app. split; [apply matchHexCodes_clean|].
  apply Forall_app. split; [|apply generateColorFromNames_clean].
  destruct (JS.truthy inputColor); [|constructor].
  destruct inputColor; repeat constructor; done.
Qed.

(** The first colour of the palette does not depend on the draw. *)
Lemma extractAdvancedColorPalette_head scheme text inputColor :
  head (Extract.extractAdvancedColorPalette scheme text inputColor)
  = head (Extract.combinedColors text inputColor).
Proof.
  unfold Extract.extractAdvancedColorPalette.
  destruct (Extract.combinedColors text inputColor) as [|baseColor rest];
    [done|].
  by destruct (length (baseColor :: rest) <? 3).
Qed.

Lemma head_clean (l : list string) : Forall clean l → clean (default "" (head l)).
Proof. by destruct 1. Qed.

Lemma server_buildQueries_head req (p1 p2 : list string) :
  head p1 = head p2 → Server.buildQueries req p1 = Server.buildQueries req p2.
Proof.
  unfold Server.buildQueries.
  destruct p1, p2; simpl; intros [=]; by subst.
Qed.

Lemma enhanced_buildQueries_head req (p1 p2 : list string) :
  head p1 = head p2 →
  Enhanced.buildQueries req p1 = Enhanced.buildQueries req p2.
Proof. unfold Enhanced.buildQueries. by intros ->. Qed.

Section clean_queries.
Variable req : Req.t.
Variable colorPalette : list string.
Hypothesis clean_q : JS.free "undefined" (Req.q req).
Hypothesis clean_industry : JS.free "undefined" (Req.industry req).
Hypothesis clean_font : JS.free "undefined" (Req.font req).
Hypothesis clean_color : JS.free "undefined" (Req.color req).
Hypothesis clean_designStyle : JS.free "undefined" (Req.designStyle req).
Hypothesis clean_first : clean (default "" (head colorPalette)).

Lemma server_queries_clean :
  Forall clean (Server.queryList (Server.buildQueries req colorPalette)).
Proof.
  pose proof (clean_default _ clean_q) as Hq.
  pose proof (clean_or_else _ "" clean_industry eq_refl) as Hindustry.
  pose proof (clean_or_else _ "" clean_font eq_refl) as Hfont.
  pose proof (clean_or_else _ "" clean_color eq_refl) as Hcolor.
  pose proof (clean_or_else _ "" clean_designStyle eq_refl) as Hstyle.
  unfold Server.queryList, Server.buildQueries.
  cbn [Server.industryFontQuery Server.colorStyleQuery
       Server.topIndustriesQuery Server.mainFreepikQuery
       Server.colorFreepikQuery Server.vectorQuery Server.psdQuery].
  change (" " +:+ ?x) with (String " " x).
  repeat apply List.Forall_cons; try apply List.Forall_nil.
  - by repeat apply clean_app_space.
  - by repeat apply clean_app_space.
  - change ("Top industries using " +:+ ?x)
      with ("Top industries using" +:+ String " " x).
    by repeat apply clean_app_space.
  - apply clean_trim. by repeat apply clean_app_space.
  - destruct colorPalette as [|first rest]; apply clean_trim;
      by repeat apply clean_app_space.
  - apply clean_trim. by repeat apply clean_app_space.
  - apply clean_trim. by repeat apply clean_app_space.
Qed.

Lemma enhanced_queries_clean :
  Forall clean (Enhanced.queryList (Enhanced.buildQueries req colorPalette)).
Proof.
  assert (JS.free "undefined"
            (JS.or (Req.color req) (Some (default "" (head colorPalette)))))
    as Hterm by (unfold JS.or; by destruct (JS.truthy (Req.color req))).
  unfold Enhanced.queryList, Enhanced.buildQueries.
  cbn [Enhanced.enhancedQuery Enhanced.colorQuery Enhanced.mainFreepikQuery
       Enhanced.colorFreepikQuery Enhanced.vectorQuery Enhanced.templateQuery
       Enhanced.aiPrompt].
  repeat apply List.Forall_cons; try apply List.Forall_nil;
    apply clean_join; repeat apply List.Forall_cons;
    try apply List.Forall_nil; done.
Qed.

End clean_queries.



Example query_builder_example :
  Server.queryList
    (Server.buildQueries
       (Req.mk (Some "logo") (Some "tech") None None None None None None None
               None None None)
       (Extract.extractAdvancedColorPalette Extract.analogous
          "Primary: #FF5733" None))
  = ["logo tech  design inspiration"; "logo   design inspiration";
     "Top industries using  design"; "logo tech"; "logo #FF5733"; "logo";
     "logo tech"].
Proof. reflexivity. Qed.

(** * Part III: further properties of the code *)
(** [Array.prototype.filter] with a boolean test. *)
Lemma List_filter_elem_of {A} (f : A → bool) (l : list A) (x : A) :
  x ∈ List.filter f l ↔ f x = true ∧ x ∈ l.
Proof. rewrite !list_elem_of_In, List.filter_In. tauto. Qed.

Lemma List_filter_length {A} (f : A → bool) (l : list A) :
  length (List.filter f l) ≤ length l.
Proof.
  induction l as [|a l IH]; simpl; [lia|]. destruct (f a); simpl; lia.
Qed.


(** ** Deduplication, again *)

Section dedup_more.
Context {A K : Type} `{Countable K}.
Variable image : A → K.
Variable truthy : K → bool.

Lemma fresh_unseen (l : list A) : ∀ seen,
  (∀ k, k ∈ image <$> l → k ∉ seen) →
  NoDup (image <$> l) →
  Dedup.fresh image seen l = l.
Proof.
  induction l as [|img l IH]; intros seen Hseen Hnd; [done|].
  simpl. rewrite fmap_cons in Hnd. apply NoDup_cons in Hnd as [Hnotin Hnd].
  rewrite bool_decide_eq_false_2.
  - f_equal. apply IH; [|done].
    intros k Hk. rewrite elem_of_union, elem_of_singleton.
    intros [->|Hin]; [done|].
    apply (Hseen k); [|done]. rewrite fmap_cons. by apply list_elem_of_further.
  - apply Hseen. rewrite fmap_cons. apply list_elem_of_here.
Qed.

Lemma uniqueImages_idempotent (l : list A) :
  Dedup.uniqueImages image (Dedup.uniqueImages image l)
  = Dedup.uniqueImages image l.
Proof.
  rewrite !uniqueImages_fresh.
  destruct (fresh_keys image l ∅) as [Hnd _].
  apply fresh_unseen; [|done]. intros k _. apply not_elem_of_empty.
Qed.

(** The keys that [filterDuplicates] keeps are truthy, distinct and were
    not seen before; the set it leaves holds them all. *)
Lemma filterDuplicates_keys (l : list A) : ∀ seen,
  let r := Dedup.filterDuplicates image truthy seen l in
  NoDup (image <$> r.1)
  ∧ (∀ k, k ∈ image <$> r.1 → truthy k = true ∧ k ∉ seen)
  ∧ (∀ k, k ∈ r.2 ↔ k ∈ seen ∨ k ∈ image <$> r.1).
Proof.
  induction l as [|img l IH]; intros seen; cbv zeta.
  - simpl. split; [constructor|]. split.
    + intros k Hk. by apply elem_of_nil in Hk.
    + intros k. split; [by left|]. intros [?|Hk]; [done|].
      by apply elem_of_nil in Hk.
  - simpl. destruct (truthy (image img)) eqn:Htruthy; simpl.
    + case_bool_decide as Hin; [apply IH|].
      specialize (IH ({[ image img ]} ∪ seen)). cbv zeta in IH.
      destruct (Dedup.filterDuplicates image truthy _ l) as [kept seen'].
      simpl in *. destruct IH as (Hnd & Hkeys & Hseen).
      split; [|split].
      * apply NoDup_cons. split; [|done].
        intros Hk. apply Hkeys in Hk as [_ Hk]. apply Hk.
        apply elem_of_union. left. by apply elem_of_singleton.
      * intros k [->|Hk]%elem_of_cons; [done|].
        apply Hkeys in Hk as [? Hk]. split; [done|].
        intros Hs. apply Hk, elem_of_union. by right.
      * intros k. rewrite Hseen, elem_of_union, elem_of_singleton, elem_of_cons.
        tauto.
    + apply IH.
Qed.

(** A second pass over the same images, with the set the first pass left,
    keeps nothing. *)
Lemma filterDuplicates_again (l l' : list A) (seen : gset K) :
  l' `sublist_of` l →
  (Dedup.filterDuplicates image truthy
     (Dedup.filterDuplicates image truthy seen l).2 l').1 = [].
Proof.
  intros Hsub.
  assert (∀ seen2 : gset K,
            (∀ img, img ∈ l' → truthy (image img) = true → image img ∈ seen2) →
            (Dedup.filterDuplicates image truthy seen2 l').1 = []) as Hnone.
  { clear. induction l' as [|img l' IH]; intros seen2 Hall; [done|].
    simpl. destruct (truthy (image img)) eqn:Ht; simpl.
    - rewrite bool_decide_eq_true_2.
      + apply IH. intros ???. apply Hall; [by apply list_elem_of_further|done].
      + apply Hall; [apply list_elem_of_here|done].
    - apply IH. intros ???. apply Hall; [by apply list_elem_of_further|done]. }
  apply Hnone. intros img Himg Ht.
  pose proof (filterDuplicates_keys l seen) as (_ & _ & Hseen). cbv zeta in Hseen.
  apply Hseen.
  destruct (decide (image img ∈ seen)) as [?|Hnot]; [by left|right].
  pose proof (filterDuplicates_with_key image truthy (image img) l seen) as Hk.
  rewrite Ht, bool_decide_eq_true_2 in Hk by done. simpl in Hk.
  assert (img ∈ l) as Hl by (by eapply elem_of_sublist).
  destruct (earliest_Some image (image img) l) as [first Hfirst].
  { by apply list_elem_of_fmap_2. }
  rewrite Hfirst in Hk. simpl in Hk.
  assert (first ∈ Dedup.with_key image (image img)
                    (Dedup.filterDuplicates image truthy seen l).1) as Hin
    by (rewrite Hk; apply list_elem_of_here).
  unfold Dedup.with_key in Hin. apply list_elem_of_filter in Hin as [Hkey Hin].
  rewrite <- Hkey. by apply list_elem_of_fmap_2.
Qed.

End dedup_more.
(** ** The response of the second server of [unnamed/part_000] *)

Lemma enhanced_getSearch_body terms (ad : Enhanced.adapters) scheme
    (req : Req.t) (body : Enhanced.body) :
  (Enhanced.getSearch terms ad scheme req).2 = Handler.json 200 body →
  ∃ platforms enhanced color main colorF vector psd ai,
    Enhanced.images body
    = concat (Enhanced.categorize platforms enhanced color main colorF vector
                psd ai)
    ∧ Enhanced.totalImages (Enhanced.statistics body)
      = length (Enhanced.images body)
    ∧ Enhanced.sources (Enhanced.statistics body)
      = Dedup.uniqueImages id (source <$> Enhanced.images body).
Proof.
  unfold Enhanced.getSearch, Handler.catch500, Enhanced.search.
  destruct (JS.truthy (Req.q req)); [|discriminate].
  cbv zeta. cbn [negb snd]. rewrite call_traced.
  destruct (ad (Enhanced.suggestCall req)) as [aiSuggestions|e]; [|discriminate].
  trace_step. unfold Handler.invoke, Handler.await.
  destruct (String.eqb _ "true"); do 7 trace_step.
  all: match goal with
       | |- context [Async.all ?ps] => destruct (Async.all ps) as [results|e]
       end; [|discriminate].
  all: trace_step; unfold Enhanced.freepikAIResults.
  all: case_bool_decide; repeat trace_step.
  all: try match goal with
       | |- context [?f (Enhanced.Call.fetchFreepikAIImage ?c)] =>
           destruct (f (Enhanced.Call.fetchFreepikAIImage c)); [|discriminate]
       end.
  all: repeat trace_step.
  all: unfold Handler.run;
       destruct (terms _ _ _ _) as [relatedTerms|e]; [|discriminate].
  all: repeat trace_step.
  all: cbn [outcome mret traced_ret]; intros [= <-].
  all: do 8 eexists; cbn [Enhanced.images Enhanced.statistics
                           Enhanced.totalImages Enhanced.sources];
       split; [reflexivity|]; split; reflexivity.
Qed.

Lemma filterDuplicatesAll_length {A K} `{Countable K} (image : A → K)
    (truthy : K → bool) (batches : list (list A)) : ∀ seen,
  length (Dedup.filterDuplicatesAll image truthy seen batches).1
  = length batches.
Proof.
  induction batches as [|l batches IH]; intros seen; [done|]. simpl.
  destruct (Dedup.filterDuplicates image truthy seen l) as [kept seen1].
  specialize (IH seen1).
  destruct (Dedup.filterDuplicatesAll image truthy seen1 batches). simpl in *.
  by rewrite IH.
Qed.

(** Tagging the batches with a category leaves the URLs as they are. *)
Lemma tagged_images (tags : list (Item → Item)) :
  Forall (λ tag, ∀ img, image (tag img) = image img
                        ∧ category (tag img) ≠ None) tags →
  ∀ kepts, length kepts = length tags →
    let tagged := concat (zip_with (λ tag kept, tag <$> kept) tags kepts) in
    image <$> tagged = image <$> concat kepts
    ∧ Forall (λ img, category img ≠ None) tagged.
Proof.
  induction 1 as [|tag tags Htag _ IH]; intros [|kept kepts] Hlen;
    try discriminate; [by split|].
  injection Hlen as Hlen. destruct (IH kepts Hlen) as [Himages Hcats].
  cbn [zip_with concat]. rewrite !fmap_app, Himages. split.
  - f_equal. rewrite <- list_fmap_compose. apply list_fmap_ext.
    intros ? img _. apply Htag.
  - apply Forall_app. split; [|done].
    apply Forall_fmap, Forall_forall. intros img _. apply Htag.
Qed.

(** The images that the six calls of [filterDuplicates] leave have URLs
    that are truthy and distinct, and each has a category. *)
Lemma categorize_keys (platforms enhanced color main colorF vector psd ai
    : list Item) :
  let images :=
    concat (Enhanced.categorize platforms enhanced color main colorF vector
              psd ai) in
  NoDup (image <$> images)
  ∧ Forall (λ img, JS.truthy (image img) = true) images
  ∧ Forall (λ img, category img ≠ None) images.
Proof.
  cbv zeta. rewrite categorize_filterDuplicatesAll.
  set (batches := [platforms ++ enhanced ++ color; main; colorF; vector; psd; ai]).
  pose proof (filterDuplicatesAll_concat image JS.truthy batches ∅) as Hc.
  pose proof (filterDuplicates_keys image JS.truthy (concat batches) ∅)
    as (Hnd & Hkeys & _).
  rewrite Hc in Hnd, Hkeys. cbn [fst] in Hnd, Hkeys.
  pose proof (filterDuplicatesAll_length image JS.truthy batches ∅) as Hlen.
  match goal with
  | |- context [zip_with _ ?tags _] =>
      destruct (tagged_images tags) with
        (kepts := (Dedup.filterDuplicatesAll image JS.truthy ∅ batches).1)
        as [Himages Hcats]
  end.
  { repeat apply List.Forall_cons; try apply List.Forall_nil;
      intros img; (split; [reflexivity|discriminate]). }
  { by rewrite Hlen. }
  cbv zeta in Himages, Hcats. split; [by rewrite Himages|]. split; [|done].
  apply Forall_forall. intros img Himg.
  apply (Hkeys (image img)). rewrite <- Himages. by apply list_elem_of_fmap_2.
Qed.
(** ** The response of [updatedserver.txt] *)

Lemma updated_getSearch_body (ad : Updated.adapters) (req : Req.t)
    (body : Updated.body) :
  (Updated.getSearch ad req).2 = Handler.json 200 body →
  ∃ relatedTerms pairings sortedImages,
    JS.truthy (Req.q req) = true
    ∧ ad (Updated.relatedCall req) = fulfilled relatedTerms
    ∧ Updated.strayPairings ad req = Some <$> pairings
    ∧ Updated.sortImages (Req.sortBy req) (default "" (Req.q req))
        (Dedup.uniqueImages image
           (Updated.gathered ad req relatedTerms ++ pairings))
      = fulfilled sortedImages
    ∧ Updated.images body = JS.slice0 12 sortedImages
    ∧ Updated.relatedTerms body = relatedTerms
    ∧ Updated.fontPairings body
      = match UpdatedMore.lastResult ad req relatedTerms with
        | Some (fulfilled value) =>
            if negb (JS.truthy (Req.font req)) then value else Updated.Items []
        | _ => Updated.Items []
        end
    ∧ Updated.colorPalette body
      = match UpdatedMore.lastResult ad req relatedTerms with
        | Some (fulfilled value) =>
            if JS.truthy (Req.color req) then value else Updated.Items []
        | _ => Updated.Items []
        end.
Proof.
  unfold Updated.getSearch, Handler.catch500, Updated.search,
    UpdatedMore.lastResult.
  destruct (JS.truthy (Req.q req)); [|discriminate].
  cbv zeta. cbn [negb snd]. rewrite call_traced.
  destruct (ad (Updated.relatedCall req)) as [relatedTerms|e]; [|discriminate].
  trace_step. rewrite startAll_traced.
  unfold Async.allSettled, Handler.await, Handler.run. do 2 trace_step.
  rewrite combine_gathered.
  destruct (Updated.dedupe _) as [uniqueImages|e] eqn:Hunique; [|discriminate].
  apply dedupe_fulfilled in Hunique as (pairings & Hpairings & ->).
  trace_step.
  destruct (Updated.sortImages _ _ _) as [sortedImages|e] eqn:Hsorted;
    [|discriminate].
  trace_step. cbn [outcome mret traced_ret]. intros Hbody.
  apply (f_equal (λ r, match r with
                       | Handler.json _ b => b
                       | Handler.failure _ _ _ => body
                       end)) in Hbody.
  cbv beta iota in Hbody. subst body.
  exists relatedTerms, pairings, sortedImages.
  cbn [Updated.images Updated.relatedTerms Updated.fontPairings
       Updated.colorPalette].
  rewrite last_lookup, Nat.sub_1_r, length_fmap.
  split; [done|]. split; [done|]. split; [exact Hpairings|].
  split; [exact Hsorted|].
  repeat split; reflexivity.
Qed.

(** *** Sorting by source *)

Lemma indexOf_range (l : list string) (x : JS.value) :
  (-1 ≤ JS.indexOf l x < Z.of_nat (length l))%Z.
Proof.
  induction l as [|y l IH]; simpl; [lia|].
  case_bool_decide; [lia|].
  destruct (Z.ltb_spec (JS.indexOf l x) 0); lia.
Qed.

Lemma indexOf_absent (l : list string) (x : JS.value) :
  x ∉ Some <$> l → JS.indexOf l x = (-1)%Z.
Proof.
  induction l as [|y l IH]; simpl; [done|]. intros Hx.
  rewrite bool_decide_eq_false_2.
  - rewrite IH; [done|]. intros Hin. apply Hx. by apply list_elem_of_further.
  - intros ->. apply Hx. apply list_elem_of_here.
Qed.

Lemma indexOf_present (l : list string) (x : JS.value) :
  x ∈ Some <$> l → (0 ≤ JS.indexOf l x)%Z.
Proof.
  induction l as [|y l IH]; simpl.
  - intros Hx. by apply elem_of_nil in Hx.
  - intros Hx. case_bool_decide as Hxy; [lia|].
    apply elem_of_cons in Hx as [->|Hx]; [done|].
    specialize (IH Hx). destruct (Z.ltb_spec (JS.indexOf l x) 0); lia.
Qed.

(** The count that the comparator of line 644 ranks by. *)
Lemma bySource_count (a b : Item) :
  Updated.bySource a b
  = (Z.of_nat (Z.to_nat (5 - UpdatedMore.sourceRank b))
     - Z.of_nat (Z.to_nat (5 - UpdatedMore.sourceRank a)))%Z.
Proof.
  unfold Updated.bySource, UpdatedMore.sourceRank.
  pose proof (indexOf_range Updated.sourceOrder (source a)) as Ha.
  pose proof (indexOf_range Updated.sourceOrder (source b)) as Hb.
  simpl length in *. lia.
Qed.

Lemma StronglySorted_impl {A} (R R' : A → A → Prop) (l : list A) :
  (∀ a b, R a b → R' a b) → StronglySorted R l → StronglySorted R' l.
Proof.
  intros HR. induction 1 as [|a l _ IH Ha]; constructor; [done|].
  eapply Forall_impl; [exact Ha|]. apply HR.
Qed.

Lemma sortImages_Permutation (sortBy : JS.value) (q : string)
    (uniqueImages sortedImages : list Item) :
  Updated.sortImages sortBy q uniqueImages = fulfilled sortedImages →
  sortedImages ≡ₚ uniqueImages.
Proof.
  unfold Updated.sortImages. case_bool_decide.
  - destruct (_ && _); [discriminate|]. intros [= <-].
    apply (sort_Permutation (Updated.tokenMatches q)).
    apply byRelevance_tokenMatches.
  - case_bool_decide; intros [= <-]; [|done].
    apply (sort_Permutation (λ a, Z.to_nat (5 - UpdatedMore.sourceRank a))).
    apply bySource_count.
Qed.

Lemma filterDuplicates_unseen {A K} `{Countable K} (image : A → K)
    (truthy : K → bool) (l : list A) : ∀ seen,
  NoDup (image <$> l) →
  (∀ k, k ∈ image <$> l → truthy k = true ∧ k ∉ seen) →
  (Dedup.filterDuplicates image truthy seen l).1 = l.
Proof.
  induction l as [|img l IH]; intros seen Hnd Hkeys; [done|].
  rewrite fmap_cons in Hnd. apply NoDup_cons in Hnd as [Hnotin Hnd].
  destruct (Hkeys (image img)) as [Ht Hs]; [apply list_elem_of_here|].
  simpl. rewrite Ht, bool_decide_eq_false_2 by done. simpl.
  specialize (IH ({[ image img ]} ∪ seen) Hnd).
  destruct (Dedup.filterDuplicates image truthy _ l) as [kept seen']. simpl in *.
  f_equal. apply IH. intros k Hk.
  destruct (Hkeys k) as [? ?]; [by apply list_elem_of_further|].
  split; [done|]. rewrite elem_of_union, elem_of_singleton.
  intros [->|?]; done.
Qed.

(** X1: deduplicating twice changes nothing more: the loop of
    [updatedserver.txt] and [filterDuplicates] (with a new set) give their
    own output back; and a further call of [filterDuplicates] on images
    that a call has gone through, with the set that call left, keeps
    none. *)
Theorem dedup_is_idempotent :
  (∀ allImages : list Item,
     Dedup.uniqueImages image (Dedup.uniqueImages image allImages)
     = Dedup.uniqueImages image allImages)
  ∧ (∀ (seenUrls : gset JS.value) (images : list Item),
       (Enhanced.filterDuplicates ∅
          (Enhanced.filterDuplicates seenUrls images).1).1
       = (Enhanced.filterDuplicates seenUrls images).1)
  ∧ (∀ (seenUrls : gset JS.value) (images : list Item),
       (Enhanced.filterDuplicates
          (Enhanced.filterDuplicates seenUrls images).2 images).1 = []).
Proof.
  split; [|split].
  - intros allImages. apply uniqueImages_idempotent.
  - intros seenUrls images. unfold Enhanced.filterDuplicates.
    pose proof (filterDuplicates_keys image JS.truthy images seenUrls)
      as (Hnd & Hkeys & _). cbv zeta in Hnd, Hkeys.
    apply filterDuplicates_unseen; [done|].
    intros k Hk. split; [by apply Hkeys|]. apply not_elem_of_empty.
  - intros seenUrls images. by apply filterDuplicates_again.
Qed.

(** X2: in a 200 answer of the second server of [unnamed/part_000], the
    images have URLs that are non-empty and pairwise distinct across all the
    categories, every image has a category, [stats.totalImages] is their
    number and [stats.sources] lists no source twice. *)
Theorem enhanced_response_has_distinct_urls
    terms (ad : Enhanced.adapters) scheme (req : Req.t) (body : Enhanced.body) :
  (Enhanced.getSearch terms ad scheme req).2 = Handler.json 200 body →
  NoDup (image <$> Enhanced.images body)
  ∧ Forall (λ img, JS.truthy (image img) = true) (Enhanced.images body)
  ∧ Forall (λ img, category img ≠ None) (Enhanced.images body)
  ∧ Enhanced.totalImages (Enhanced.statistics body)
    = length (Enhanced.images body)
  ∧ NoDup (Enhanced.sources (Enhanced.statistics body)).
Proof.
  intros Hbody.
  destruct (enhanced_getSearch_body _ _ _ _ _ Hbody)
    as (platforms & enhanced & color & main & colorF & vector & psd & ai
        & Himages & Htotal & Hsources).
  destruct (categorize_keys platforms enhanced color main colorF vector psd ai)
    as (Hnd & Htruthy & Hcats). cbv zeta in Hnd, Htruthy, Hcats.
  rewrite <- Himages in Hnd, Htruthy, Hcats.
  repeat split; try done.
  rewrite Hsources, uniqueImages_fresh.
  destruct (fresh_keys id (source <$> Enhanced.images body) ∅) as [Hs _].
  by rewrite list_fmap_id in Hs.
Qed.

(** A request for "logo": the two Freepik searches run on the same query
    and give the same image, which the answer holds once. *)
Lemma enhanced_response_has_distinct_urls_witness :
  ∃ body,
    (Enhanced.getSearch Sample.noTerms Sample.enhancedAdapters Extract.triadic
       (Req.only (Some "logo"))).2 = Handler.json 200 body
    ∧ NoDup (image <$> Enhanced.images body)
    ∧ Enhanced.totalImages (Enhanced.statistics body) = 5.
Proof.
  eexists. split; [reflexivity|].
  match goal with
  | |- context [Enhanced.images ?body] =>
      pose proof (enhanced_response_has_distinct_urls Sample.noTerms
                    Sample.enhancedAdapters Extract.triadic
                    (Req.only (Some "logo")) body eq_refl)
        as (Hnd & _ & _ & Htotal & _)
  end.
  split; [exact Hnd|]. rewrite Htotal. reflexivity.
Defined.

(** The palette call is the last of [searchPromises] when the request has
    a colour. *)
Lemma searchCalls_last (req : Req.t) (relatedTerms : list string) :
  JS.truthy (Req.color req) = true →
  last (Updated.searchCalls req relatedTerms)
  = Some (Updated.Call.generateColorPalette (default "" (Req.color req))
            (Req.designStyle req) (Req.industry req)).
Proof.
  intros Hcolor. unfold Updated.searchCalls. cbv zeta. rewrite Hcolor.
  rewrite !app_assoc. apply last_snoc.
Qed.

(** X3: a 200 answer of [GET /search] of [updatedserver.txt] holds at most
    12 images, no two of them with the same [image] property. *)
Theorem updated_response_has_at_most_12_distinct_images
    (ad : Updated.adapters) (req : Req.t) (body : Updated.body) :
  (Updated.getSearch ad req).2 = Handler.json 200 body →
  length (Updated.images body) ≤ 12
  ∧ NoDup (image <$> Updated.images body).
Proof.
  intros Hbody.
  destruct (updated_getSearch_body _ _ _ Hbody)
    as (relatedTerms & pairings & sortedImages & _ & _ & _ & Hsorted & -> & _).
  unfold JS.slice0. split; [rewrite length_take; lia|].
  apply sortImages_Permutation in Hsorted.
  apply (sublist_NoDup _ (image <$> sortedImages)).
  - rewrite Hsorted, uniqueImages_fresh.
    apply (fresh_keys image
             (Updated.gathered ad req relatedTerms ++ pairings) ∅).
  - rewrite fmap_take. apply sublist_take.
Qed.

(** The request [Sample.logo], where Dribbble and Google give the same
    image "d1.png". *)
Lemma updated_response_has_at_most_12_distinct_images_witness :
  ∃ body,
    (Updated.getSearch Sample.updatedAdapters Sample.logo).2
    = Handler.json 200 body
    ∧ length (Updated.images body) ≤ 12
    ∧ NoDup (image <$> Updated.images body).
Proof.
  eexists. split; [reflexivity|].
  exact (updated_response_has_at_most_12_distinct_images
           Sample.updatedAdapters Sample.logo _ eq_refl).
Defined.

(** X4: in a 200 answer of [GET /search] of [updatedserver.txt] to a
    request with a colour and no font, [fontPairings] is what
    [colorPalette] is, the value of the call of [generateColorPalette]
    (the empty list when that call rejects): lines 603-604 both read the
    last entry of [results]. *)
Theorem updated_font_pairings_are_the_palette
    (ad : Updated.adapters) (req : Req.t) (body : Updated.body) :
  (Updated.getSearch ad req).2 = Handler.json 200 body →
  JS.truthy (Req.color req) = true →
  JS.truthy (Req.font req) = false →
  Updated.fontPairings body = Updated.colorPalette body
  ∧ Updated.colorPalette body
    = match ad (Updated.Call.generateColorPalette (default "" (Req.color req))
                  (Req.designStyle req) (Req.industry req)) with
      | fulfilled palette => Updated.Items palette
      | rejected _ => Updated.Items []
      end.
Proof.
  intros Hbody Hcolor Hfont.
  destruct (updated_getSearch_body _ _ _ Hbody)
    as (relatedTerms & pairings & sortedImages & _ & _ & _ & _ & _ & _
        & Hfonts & Hpalette).
  rewrite Hfonts, Hpalette, Hcolor, Hfont. split; [done|].
  unfold UpdatedMore.lastResult.
  rewrite fmap_last, searchCalls_last by done.
  cbn [fmap option_fmap option_map]. unfold Updated.settle.
  by destruct (ad _).
Qed.

(** A request for "logo" in the colour "#336699", with no font: the entry
    of the palette comes back as the font pairings. *)
Lemma updated_font_pairings_are_the_palette_witness :
  ∃ body,
    (Updated.getSearch Scenario.withPalette Scenario.logoInBlue).2
    = Handler.json 200 body
    ∧ Updated.fontPairings body = Updated.colorPalette body
    ∧ Updated.colorPalette body
      = Updated.Items
          [mkItem None None None None None None
             [("hex", "#336699"); ("name", "Custom"); ("role", "Primary")]].
Proof.
  eexists. split; [reflexivity|].
  exact (updated_font_pairings_are_the_palette Scenario.withPalette
           Scenario.logoInBlue _ eq_refl eq_refl eq_refl).
Defined.

(** X5: with [sortBy=source] the images come in the order of the places of
    their sources in [sourceOrder], a source that is not listed (or is
    missing) before all the listed ones; the sort never throws, only
    rearranges, and images of the same place keep their relative order. *)
Theorem source_sort_is_stable (q : string) (uniqueImages : list Item) :
  (∃ sortedImages,
     Updated.sortImages (Some "source") q uniqueImages = fulfilled sortedImages
     ∧ sortedImages ≡ₚ uniqueImages
     ∧ StronglySorted
         (λ a b, (UpdatedMore.sourceRank a ≤ UpdatedMore.sourceRank b)%Z)
         sortedImages
     ∧ ∀ place,
         filter (λ a, UpdatedMore.sourceRank a = place) sortedImages
         = filter (λ a, UpdatedMore.sourceRank a = place) uniqueImages)
  ∧ (∀ a, source a ∉ Some <$> Updated.sourceOrder →
          UpdatedMore.sourceRank a = (-1)%Z)
  ∧ (∀ a, source a ∈ Some <$> Updated.sourceOrder →
          (0 ≤ UpdatedMore.sourceRank a)%Z).
Proof.
  split; [|split; intros a; [apply indexOf_absent|apply indexOf_present]].
  exists (Sort.sort Updated.bySource uniqueImages).
  set (count := λ a, Z.to_nat (5 - UpdatedMore.sourceRank a)).
  assert (∀ a, (-1 ≤ UpdatedMore.sourceRank a < 6)%Z) as Hrange
    by (intros a; apply (indexOf_range Updated.sourceOrder)).
  split; [reflexivity|]. split; [|split].
  - apply (sort_Permutation count), bySource_count.
  - eapply StronglySorted_impl;
      [|apply (sort_StronglySorted count), bySource_count].
    intros a b. unfold count. simpl.
    pose proof (Hrange a). pose proof (Hrange b). lia.
  - intros place.
    destruct (decide (-1 ≤ place < 6)%Z) as [Hplace|Hplace].
    + rewrite (list_filter_iff _ (λ a, count a = Z.to_nat (5 - place))).
      * rewrite (list_filter_iff (λ a, UpdatedMore.sourceRank a = place)
                   (λ a, count a = Z.to_nat (5 - place))).
        -- apply (sort_stable count), bySource_count.
        -- intros a. unfold count. pose proof (Hrange a). lia.
      * intros a. unfold count. pose proof (Hrange a). lia.
    + assert (∀ l : list Item,
                filter (λ a, UpdatedMore.sourceRank a = place) l = []) as Hnone.
      { induction l as [|a l IH]; [done|]. rewrite filter_cons, IH.
        case_decide; [|done]. pose proof (Hrange a). lia. }
      by rewrite !Hnone.
Qed.

(** ** The handler and the adapters of [server.js] *)

Lemma all_third_unused {A} (p1 p2 p4 p5 p6 p7 : settled (list A))
    (v3 v3' : list A) :
  (∀ results,
     Async.all [p1; p2; fulfilled v3; p4; p5; p6; p7] = fulfilled results →
     ∃ results',
       Async.all [p1; p2; fulfilled v3'; p4; p5; p6; p7] = fulfilled results'
       ∧ ∀ i, i ≠ 2 → results' !! i = results !! i)
  ∧ (∀ e,
       Async.all [p1; p2; fulfilled v3; p4; p5; p6; p7] = rejected e →
       Async.all [p1; p2; fulfilled v3'; p4; p5; p6; p7] = rejected e).
Proof.
  destruct p1, p2; try done. simpl.
  destruct p4; [|done]. destruct p5; [|done]. destruct p6; [|done].
  destruct p7; [|done]. simpl. split; [|done].
  intros results [= <-]. eexists. split; [reflexivity|].
  intros [|[|[|i]]] Hi; done.
Qed.

(** X6: the answer of [GET /search] of [server.js] does not depend on what
    the search for the top industries finds: between two configurations of
    adapters that differ only in what this search (the one call of
    [fetchSerpAPIImages] with a limit of 8) is fulfilled with, the calls
    and the answer are the same. *)
Theorem top_industries_results_are_unused
    terms (ad ad' : Server.adapters) scheme (req : Req.t) :
  (∀ c, (∀ query, c ≠ Server.Call.fetchSerpAPIImages query 8) →
        ad' c = ad c) →
  (∀ query,
     Async.isFulfilled (ad (Server.Call.fetchSerpAPIImages query 8)) = true
     ∧ Async.isFulfilled (ad' (Server.Call.fetchSerpAPIImages query 8)) = true) →
  Server.getSearch terms ad' scheme req = Server.getSearch terms ad scheme req.
Proof.
  intros Hsame Hthird.
  unfold Server.getSearch, Handler.catch500, Server.search.
  destruct (JS.truthy (Req.q req)); [|done].
  cbv zeta. cbn [negb]. rewrite !call_traced.
  rewrite (Hsame (Server.suggestCall req)) by (intros ?; discriminate).
  destruct (ad (Server.suggestCall req)) as [aiSuggestions|e]; [|done].
  unfold Handler.invoke, Handler.await. repeat trace_step.
  match goal with
  | |- context [Server.buildQueries req ?palette] =>
      set (qs := Server.buildQueries req palette)
  end.
  rewrite !(Hsame (Server.Call.fetchSerpAPIImages _ 10))
    by (intros ?; discriminate).
  rewrite !(Hsame (Server.Call.fetchFreepikImages _ _ _))
    by (intros ?; discriminate).
  destruct (Hthird (Server.topIndustriesQuery qs)) as [H3 H3'].
  destruct (ad (Server.Call.fetchSerpAPIImages (Server.topIndustriesQuery qs) 8))
    as [v3|?]; [|discriminate].
  destruct (ad' (Server.Call.fetchSerpAPIImages (Server.topIndustriesQuery qs) 8))
    as [v3'|?]; [|discriminate].
  assert (Server.freepikAIResults ad' (Req.ai req) (default "" (Req.q req))
          = Server.freepikAIResults ad (Req.ai req) (default "" (Req.q req)))
    as -> by (unfold Server.freepikAIResults;
              by rewrite Hsame by (intros ?; discriminate)).
  cbn [Server.Call.result] in *.
  match goal with
  | |- context [Async.all [?p1; ?p2; fulfilled v3; ?p4; ?p5; ?p6; ?p7]] =>
      pose proof (all_third_unused (A := Item) p1 p2 p4 p5 p6 p7 v3 v3')
        as [Hall Hall']
  end.
  match type of Hall' with
  | ∀ e, ?join = _ → _ => destruct join as [results|e]
  end.
  - destruct (Hall results eq_refl) as (results' & -> & Hresults).
    repeat trace_step. by rewrite !Hresults by done.
  - by rewrite (Hall' e eq_refl).
Qed.

(** Two configurations that differ in what the search for the top
    industries finds, on a request for "logo". *)
Lemma top_industries_results_are_unused_witness :
  Scenario.otherTopIndustries
    (Server.Call.fetchSerpAPIImages "Top industries using  design" 8)
  ≠ Sample.serverAdapters
      (Server.Call.fetchSerpAPIImages "Top industries using  design" 8)
  ∧ Server.getSearch Sample.noTerms Scenario.otherTopIndustries
      Extract.triadic (Req.only (Some "logo"))
    = Server.getSearch Sample.noTerms Sample.serverAdapters
        Extract.triadic (Req.only (Some "logo")).
Proof.
  split; [discriminate|].
  apply top_industries_results_are_unused.
  - intros c Hc. destruct c as [| query limit | |]; try reflexivity.
    do 9 (destruct limit as [|limit]; try reflexivity).
    by destruct (Hc query).
  - intros query. split; reflexivity.
Defined.


(** X7: [fetchSerpAPIImages] of [server.js] gives at most [limit] images,
    each from Google Images and each with a URL that [validateImage]
    accepted; and [validateImage] accepts a URL exactly when the [HEAD]
    request is answered with status 200 and a [content-type] that begins
    with "image". *)
Theorem serp_images_are_validated (w : Server.world) :
  (∀ query limit images,
     Server.fetchSerpAPIImages w query limit = fulfilled images →
     length images ≤ limit
     ∧ Forall (λ img, Server.validateImage w (image img) = true
                      ∧ source img = Some "Google Images"
                      ∧ JS.truthy (title img) = true) images)
  ∧ (∀ url,
       Server.validateImage w url = true ↔
       ∃ contentType,
         Server.head w url
         = Http.response 200 {| Server.content_type := Some contentType |}
         ∧ JS.startsWith contentType "image" = true).
Proof.
  split.
  - intros query limit images. unfold Server.fetchSerpAPIImages.
    destruct (Http.axios (Server.serpapi w query)) as [[status data]|e];
      [|intros [= <-]; split; [simpl; lia|apply List.Forall_nil]].
    cbn [mbind settled_bind Async.andThen Async.tryCatch snd].
    destruct (Server.Serp.images_results data) as [results|];
      [|intros [= <-]; split; [simpl; lia|apply List.Forall_nil]].
    cbn [Async.property Async.andThen Async.tryCatch mret settled_ret].
    intros [= <-]. split.
    + etransitivity; [apply List_filter_length|].
      rewrite length_fmap. unfold JS.slice0. rewrite length_take. lia.
    + apply Forall_forall. intros img [Hvalid Himg]%List_filter_elem_of.
      split; [done|].
      apply list_elem_of_fmap in Himg as (r & -> & _). split; [done|].
      unfold Server.serpItem, JS.or_else. simpl.
      destruct (JS.truthy (Server.Serp.title r)) eqn:Ht; [|done].
      destruct (Server.Serp.title r); [|done]. exact Ht.
  - intros url. unfold Server.validateImage. split.
    + destruct (Server.head w url) as [m|m|status h]; simpl; try done.
      destruct (Http.statusOk status); [|done].
      destruct (Nat.eqb_spec status 200) as [->|]; [|done]. simpl.
      destruct h as [[contentType|]]; [|done]. simpl.
      intros Hprefix. by exists contentType.
    + intros (contentType & -> & Hprefix). exact Hprefix.
Qed.

(** The providers of [Sample.serverOnline], whose one image passes. *)
Lemma serp_images_are_validated_witness :
  Server.fetchSerpAPIImages Sample.serverOnline "logo" 10
  = fulfilled [mkItem (Some "https://x/a.png") (Some "Design Inspiration")
                 (Some "Google Images") (Some "https://x") None None []]
  ∧ Server.validateImage Sample.serverOnline (Some "https://x/a.png") = true.
Proof.
  split; [reflexivity|].
  destruct (proj1 (serp_images_are_validated Sample.serverOnline) "logo" 10 _
              eq_refl) as [_ Hall].
  apply Forall_cons in Hall as [[Hvalid _] _]. exact Hvalid.
Defined.

(** X8: [fetchFreepikImages] sends a [format] parameter only for the
    formats "vector" and "psd", in any case of the letters, and sends it in
    lower case; every image it gives has a non-empty URL, the source
    "Freepik" and a non-empty format, and it gives no more images than the
    payload holds. *)
Theorem freepik_images_have_a_url (w : Server.world) (query : string)
    (limit : nat) (wanted : string) :
  (Server.Freepik.format (Server.freepikParams query limit wanted)
   = if bool_decide (JS.toLowerCase wanted ∈ ["vector"; "psd"])
     then Some (JS.toLowerCase wanted) else None)
  ∧ (∀ images,
       Server.fetchFreepikImages w query limit wanted = fulfilled images →
       Forall (λ img, JS.truthy (image img) = true
                      ∧ source img = Some "Freepik"
                      ∧ JS.truthy (format img) = true) images
       ∧ ∀ status data,
           Server.resources w (Server.freepikParams query limit wanted)
           = Http.response status (Some {| Server.Freepik.data := Some data |}) →
           length images ≤ length data).
Proof.
  split.
  - unfold Server.freepikParams. simpl.
    destruct wanted as [|c r]; [|done]. by rewrite bool_decide_eq_false_2
      by (intros Hin; repeat (apply elem_of_cons in Hin as [Hin|Hin];
                              [discriminate|]); by apply elem_of_nil in Hin).
  - intros images. unfold Server.fetchFreepikImages.
    destruct (Server.resources w _) as [m|m|status body]; simpl;
      [intros [= <-]; split; [apply List.Forall_nil|intros; simpl; lia]..|].
    destruct (Http.statusOk status); simpl;
      [|intros [= <-]; split; [apply List.Forall_nil|intros; simpl; lia]].
    destruct body as [[[data|]]|]; simpl;
      try (intros [= <-]; split; [apply List.Forall_nil|intros; simpl; lia]).
    intros [= <-]. split.
    + apply Forall_forall. intros img [Himage Himg]%List_filter_elem_of.
      split; [done|].
      apply list_elem_of_fmap in Himg as (r & -> & _). split; [done|].
      unfold Server.freepikItem, JS.or_else. cbn [format].
      destruct (JS.truthy (Server.Freepik.resource_format r)) eqn:Hf.
      * destruct (Server.Freepik.resource_format r); [exact Hf|done].
      * destruct (JS.truthy (Some wanted)) eqn:Hw; [exact Hw|done].
    + intros status' data' [= _ <-].
      etransitivity; [apply List_filter_length|]. by rewrite length_fmap.
Qed.

(** A search for vectors, written "Vector", where Freepik answers with two
    resources, one without an image. *)
Lemma freepik_images_have_a_url_witness :
  Server.Freepik.format (Server.freepikParams "logo" 8 "Vector") = Some "vector"
  ∧ ∃ images,
      Server.fetchFreepikImages Scenario.freepikOnline "logo" 8 "Vector"
      = fulfilled images
      ∧ length images = 1
      ∧ Forall (λ img, JS.truthy (image img) = true
                       ∧ source img = Some "Freepik"
                       ∧ JS.truthy (format img) = true) images.
Proof.
  split; [reflexivity|]. eexists. split; [reflexivity|]. split; [reflexivity|].
  exact (proj1 (proj2 (freepik_images_have_a_url Scenario.freepikOnline
                         "logo" 8 "Vector") _ eq_refl)).
Defined.

(** ** The short ids of the second server of [unnamed/part_000] *)

Lemma list_ascii_of_string_app (a b : string) :
  list_ascii_of_string (a +:+ b)
  = list_ascii_of_string a ++ list_ascii_of_string b.
Proof. induction a as [|c a IH]; [done|]. simpl. by rewrite IH. Qed.

Lemma bytes_app (a b : string) :
  Node.bytes (a +:+ b) = Node.bytes a ++ Node.bytes b.
Proof.
  unfold Node.bytes. by rewrite list_ascii_of_string_app, flat_map_app.
Qed.

(** The first twelve digits are those of the first nine bytes. *)
Lemma encode_nine (b1 b2 b3 b4 b5 b6 b7 b8 b9 : nat) (rest : list nat) :
  String.substring 0 12
    (Node.encode (b1 :: b2 :: b3 :: b4 :: b5 :: b6 :: b7 :: b8 :: b9 :: rest))
  = Node.encode [b1; b2; b3; b4; b5; b6; b7; b8; b9].
Proof.
  cbn [Node.encode String.substring]. by destruct (Node.encode rest).
Qed.

Lemma bytes_ascii (s : string) :
  Node.isAscii s = true →
  Node.bytes s = nat_of_ascii <$> list_ascii_of_string s.
Proof.
  unfold Node.isAscii, Node.bytes.
  induction s as [|c s IH]; [done|]. simpl.
  intros [Hc Hs]%andb_prop. unfold Node.utf8 at 1. rewrite Hc. simpl.
  f_equal. by apply IH.
Qed.

Lemma shortId_prefix (prefix tail : string) :
  String.length prefix = 9 →
  Node.isAscii prefix = true →
  Enhanced.shortId Node.base64 (Some (prefix +:+ tail))
  = fulfilled (Node.base64 prefix).
Proof.
  intros Hlen Hascii. unfold Enhanced.shortId, Node.base64.
  rewrite bytes_app, (bytes_ascii prefix Hascii).
  do 9 (destruct prefix as [|? prefix]; [discriminate|]).
  destruct prefix; [|discriminate].
  cbn [list_ascii_of_string fmap list_fmap app mret settled_ret].
  by rewrite encode_nine.
Qed.

(** When every key is [k], the loop keeps the first item only. *)
Lemma uniqueImages_one_key {A K} `{Countable K} (key : A → K) (k : K)
    (l : list A) :
  Forall (λ a, key a = k) l → Dedup.uniqueImages key l = take 1 l.
Proof.
  rewrite uniqueImages_fresh. intros Hall.
  destruct Hall as [|a l Ha Hl]; [done|]. simpl.
  rewrite bool_decide_eq_false_2 by apply not_elem_of_empty. f_equal.
  generalize ({[key a]} ∪ (∅ : gset K)), (elem_of_union_l (key a) {[key a]} (∅ : gset K)
    (proj2 (elem_of_singleton (key a) (key a)) eq_refl)).
  intros seen Hseen. rewrite Ha in Hseen.
  induction Hl as [|b l Hb _ IH]; [done|]. simpl.
  by rewrite Hb, bool_decide_eq_true_2.
Qed.

Lemma mapM_fulfilled {A B} (f : A → settled B) (l : list A) (bs : list B) :
  Enhanced.mapM f l = fulfilled bs → Forall2 (λ a b, f a = fulfilled b) l bs.
Proof.
  revert bs. induction l as [|a l IH]; intros bs; simpl.
  - intros [= <-]. constructor.
  - destruct (f a) as [b|e] eqn:Hb; [|done]. simpl.
    destruct (Enhanced.mapM f l) as [bs'|e]; [|done]. simpl.
    intros [= <-]. constructor; [done|]. by apply IH.
Qed.

Lemma mapM_all {A B} (f : A → settled B) (l : list A) :
  Forall (λ a, ∃ b, f a = fulfilled b) l →
  ∃ bs, Enhanced.mapM f l = fulfilled bs.
Proof.
  induction 1 as [|a l [b Hb] _ [bs Hbs]]; [by exists []|].
  exists (b :: bs). simpl. by rewrite Hb, Hbs.
Qed.

(** X9: the id that [processGoogleResults] gives an image rests on the
    first nine bytes of its link only: two links that begin with the same
    nine ASCII characters get the same id.  So of results whose links all
    begin with the same nine characters ("https://w", say) the function
    keeps the first one alone; and whatever the links, no two images it
    returns have the same id. *)
Theorem short_ids_rest_on_nine_characters :
  (∀ prefix tail,
     String.length prefix = 9 →
     Node.isAscii prefix = true →
     Enhanced.shortId Node.base64 (Some (prefix +:+ tail))
     = fulfilled (Node.base64 prefix))
  ∧ (∀ prefix first rest,
       String.length prefix = 9 →
       Node.isAscii prefix = true →
       (∀ it, it ∈ first :: rest →
              ∃ tail, Enhanced.Cse.link it = Some (prefix +:+ tail)) →
       ∃ img,
         Enhanced.googleItem Node.base64 first = fulfilled img
         ∧ Enhanced.processGoogleResults Node.base64 (first :: rest)
           = fulfilled [img])
  ∧ (∀ (base64 : string → string) items images,
       Enhanced.processGoogleResults base64 items = fulfilled images →
       NoDup (Enhanced.itemId <$> images)).
Proof.
  split; [exact shortId_prefix|]. split.
  - intros prefix first rest Hlen Hascii Hlinks.
    assert (∀ it, it ∈ first :: rest →
              ∃ img, Enhanced.googleItem Node.base64 it = fulfilled img
                     ∧ Enhanced.itemId img = Some (Node.base64 prefix))
      as Hitems.
    { intros it [tail Hlink]%Hlinks. unfold Enhanced.googleItem.
      rewrite Hlink, shortId_prefix by done. by eexists. }
    destruct (Hitems first) as (img & Himg & _); [apply list_elem_of_here|].
    exists img. split; [done|].
    unfold Enhanced.processGoogleResults.
    destruct (mapM_all (Enhanced.googleItem Node.base64) (first :: rest))
      as [images Himages].
    { apply Forall_forall. intros it Hit.
      destruct (Hitems it Hit) as (img' & ? & _). by exists img'. }
    rewrite Himages. cbn [mbind settled_bind Async.andThen mret settled_ret].
    f_equal. rewrite (uniqueImages_one_key _ (Some (Node.base64 prefix))).
    + apply mapM_fulfilled in Himages.
      apply Forall2_cons_inv_l in Himages as (img' & images' & Himg' & _ & ->).
      rewrite Himg in Himg'. by injection Himg' as ->.
    + apply mapM_fulfilled in Himages. apply Forall_forall. intros img' Himg'.
      apply list_elem_of_lookup in Himg' as [i Hi].
      destruct (Forall2_lookup_r _ _ _ _ _ Himages Hi) as (it & Hit & Hgoogle).
      destruct (Hitems it) as (img'' & Hsame & Hid);
        [by eapply list_elem_of_lookup_2|].
      rewrite Hgoogle in Hsame. by injection Hsame as ->.
  - intros base64 items images. unfold Enhanced.processGoogleResults.
    destruct (Enhanced.mapM _ items) as [mapped|e]; [|done].
    cbn [mbind settled_bind Async.andThen mret settled_ret]. intros [= <-].
    rewrite uniqueImages_fresh. apply (fresh_keys Enhanced.itemId mapped ∅).
Qed.

(** Two results on two sites whose links begin with "https://w". *)
Lemma short_ids_rest_on_nine_characters_witness :
  ∃ img,
    Enhanced.googleItem Node.base64 Scenario.resultA = fulfilled img
    ∧ Enhanced.processGoogleResults Node.base64
        [Scenario.resultA; Scenario.resultB] = fulfilled [img]
    ∧ Enhanced.itemId img = Some "aHR0cHM6Ly93".
Proof.
  destruct (proj1 (proj2 short_ids_rest_on_nine_characters) "https://w"
              Scenario.resultA [Scenario.resultB] eq_refl eq_refl)
    as (img & Himg & Hall).
  { intros it [->|[->|Hit]%elem_of_cons]%elem_of_cons.
    - by exists "ww.a.com/1.png".
    - by exists "ww.b.org/2.png".
    - by apply elem_of_nil in Hit. }
  exists img. split; [done|]. split; [done|].
  injection Himg as <-. reflexivity.
Defined.

Lemma fresh_all_seen {A K} `{Countable K} (key : A → K) (l : list A)
    (seen : gset K) :
  Forall (λ a, key a ∈ seen) l → Dedup.fresh key seen l = [].
Proof.
  induction 1 as [|a l Ha _ IH]; [done|]. simpl.
  by rewrite bool_decide_eq_true_2.
Qed.

(** What [fetchPinterestViaGoogle] gives: pins with a URL, and the id of
    that URL. *)
Lemma fetchPinterestViaGoogle_ids (base64 : string → string)
    (w : Enhanced.world) (query : string) (limit : nat) (images : list Item) :
  Enhanced.fetchPinterestViaGoogle base64 w query limit = fulfilled images →
  Forall (λ img, ∃ url, image img = Some url
                        ∧ Enhanced.itemId img
                          = Some (String.substring 0 12 (base64 url))
                        ∧ source img = Some "Pinterest") images.
Proof.
  unfold Enhanced.fetchPinterestViaGoogle.
  destruct (Http.axios _) as [[status body]|e];
    [|intros [= <-]; apply List.Forall_nil].
  cbn [mbind settled_bind Async.andThen snd].
  destruct body as [[[items|]]|]; try (intros [= <-]; apply List.Forall_nil).
  destruct (Enhanced.mapM _ items) as [mapped|e] eqn:Hmapped;
    [|intros [= <-]; apply List.Forall_nil].
  cbn [mbind settled_bind Async.andThen mret settled_ret Async.tryCatch].
  intros [= <-]. apply mapM_fulfilled in Hmapped.
  apply Forall_forall. intros img [_ Himg]%List_filter_elem_of.
  apply list_elem_of_lookup in Himg as [i Hi].
  destruct (Forall2_lookup_r _ _ _ _ _ Hmapped Hi) as (it & _ & Hpin).
  unfold Enhanced.pinterestItem, Enhanced.shortId in Hpin.
  destruct (Enhanced.Cse.link it) as [url|]; [|done].
  injection Hpin as <-. by exists url.
Qed.

(** X10: [fetchDesignPlatformsInspiration] drops the results of its
    second Pinterest search whenever the first search found something and
    the URLs of all the pins begin with the same nine ASCII characters
    (as the URLs of one image host do): their ids are then the same, and the
    loop of lines 717-722 takes every pin of the second search for a
    duplicate.  The pins of the first search are all kept. *)
Theorem alternate_pins_are_dropped
    (w : Enhanced.world) (query : string) (industry designStyle font : JS.value)
    (limit : nat) (prefix : string) (mainResults alternateResults : list Item) :
  String.length prefix = 9 →
  Node.isAscii prefix = true →
  Enhanced.fetchPinterestViaGoogle Node.base64 w
    (Enhanced.platformQueries query industry designStyle font).1
    (Nat.div2 (limit + 1)) = fulfilled mainResults →
  Enhanced.fetchPinterestViaGoogle Node.base64 w
    (Enhanced.platformQueries query industry designStyle font).2
    (Nat.div2 limit) = fulfilled alternateResults →
  mainResults ≠ [] →
  (∀ img, img ∈ mainResults ++ alternateResults →
          ∃ tail, image img = Some (prefix +:+ tail)) →
  Enhanced.fetchDesignPlatformsInspiration Node.base64 w query industry
    designStyle font limit
  = fulfilled (Enhanced.with_source "Pinterest" <$> mainResults).
Proof.
  intros Hlen Hascii Hmain Halt Hne Hprefix.
  assert (∀ images query limit,
            Enhanced.fetchPinterestViaGoogle Node.base64 w query limit
            = fulfilled images →
            (∀ img, img ∈ images → ∃ tail, image img = Some (prefix +:+ tail)) →
            Forall (λ img, Enhanced.itemId img = Some (Node.base64 prefix))
              images) as Hids.
  { intros images q n Hfetch Hall.
    apply fetchPinterestViaGoogle_ids in Hfetch.
    apply Forall_forall. intros img Himg.
    destruct (proj1 (Forall_forall _ _) Hfetch img Himg)
      as (url & Hurl & Hid & _).
    destruct (Hall img Himg) as [tail Htail].
    rewrite Hurl in Htail. injection Htail as ->. rewrite Hid.
    pose proof (shortId_prefix prefix tail Hlen Hascii) as Hshort.
    unfold Enhanced.shortId in Hshort. by injection Hshort as ->. }
  unfold Enhanced.fetchDesignPlatformsInspiration.
  destruct (Enhanced.platformQueries query industry designStyle font)
    as [mainQuery alternateQuery]. cbn [fst snd] in Hmain, Halt.
  rewrite Hmain, Halt.
  cbn [Async.all Async.andThen mbind settled_bind mret settled_ret
       Async.tryCatch lookup list_lookup default].
  f_equal. f_equal. rewrite uniqueLoop_fresh, fresh_all_seen.
  - apply app_nil_r.
  - pose proof (Hids mainResults _ _ Hmain) as Hm.
    pose proof (Hids alternateResults _ _ Halt) as Ha.
    eapply Forall_impl; [apply Ha|].
    + intros img Himg. apply Hprefix, elem_of_app. by right.
    + intros img ->. simpl.
      destruct mainResults as [|first more]; [done|].
      apply Forall_cons in Hm as [Hfirst _].
      { rewrite fmap_cons, Hfirst. set_solver. }
      intros img' Himg'. apply Hprefix, elem_of_app. by left.
Qed.

(** A search of the platforms for "logo", where Google Custom Search gives
    one pin for each of the two Pinterest queries, both on "i.pinimg.com":
    the pin of the second query is missing from the result. *)
Lemma alternate_pins_are_dropped_witness :
  ∃ main alternate,
    Enhanced.fetchPinterestViaGoogle Node.base64 Scenario.pinterestOnline
      "logo design" 10 = fulfilled [main]
    ∧ Enhanced.fetchPinterestViaGoogle Node.base64 Scenario.pinterestOnline
        "logo inspiration" 10 = fulfilled [alternate]
    ∧ image alternate = Some "https://i.pinimg.com/736x/bb.jpg"
    ∧ Enhanced.fetchDesignPlatformsInspiration Node.base64
        Scenario.pinterestOnline "logo" None None None 20
      = fulfilled [main].
Proof.
  do 2 eexists. split; [reflexivity|]. split; [reflexivity|].
  split; [reflexivity|].
  rewrite (alternate_pins_are_dropped Scenario.pinterestOnline "logo" None
             None None 20 "https://i" _ _ eq_refl eq_refl eq_refl eq_refl).
  - reflexivity.
  - discriminate.
  - intros img [->|[->|Himg]%elem_of_cons]%elem_of_cons.
    + by exists ".pinimg.com/736x/aa.jpg".
    + by exists ".pinimg.com/736x/bb.jpg".
    + by apply elem_of_nil in Himg.
Defined.

(** ** The text of the suggestions *)

Lemma dropPrefix_prefix (p s r : string) :
  JS.dropPrefix p s = Some r → String.prefix p s = true.
Proof.
  revert s. induction p as [|a p IH]; intros [|c s]; simpl; try done.
  destruct (Ascii.eqb_spec a c) as [->|]; [|done].
  destruct (ascii_dec c c); [apply IH|done].
Qed.

Lemma dropPrefix_length (p s r : string) :
  JS.dropPrefix p s = Some r →
  String.length s = String.length p + String.length r.
Proof.
  revert s. induction p as [|a p IH]; intros [|c s]; simpl; try done.
  - by intros [= <-].
  - by intros [= <-].
  - destruct (Ascii.eqb a c); [|done]. intros Hr. by rewrite (IH _ Hr).
Qed.

Lemma prefix_append (p1 p2 s : string) :
  String.prefix (p1 +:+ p2) s = true → String.prefix p1 s = true.
Proof.
  revert s. induction p1 as [|a p1 IH]; intros [|c s]; simpl; try done.
  destruct (ascii_dec a c); [apply IH|done].
Qed.

Lemma run_length (p : ascii → bool) (s : string) :
  String.length (Markup.run p s) ≤ String.length s.
Proof.
  induction s as [|c s IH]; simpl; [done|]. destruct (p c); simpl; lia.
Qed.

Lemma run_all (p : ascii → bool) (s : string) :
  JS.allChars p s = true → Markup.run p s = s.
Proof.
  induction s as [|c s IH]; simpl; [done|].
  intros [-> Hs]%andb_prop. by rewrite IH.
Qed.

Lemma urlAfter_Some (scheme s url : string) :
  Markup.urlAfter scheme s = Some url →
  String.prefix scheme s = true
  ∧ 1 ≤ String.length url ≤ String.length s.
Proof.
  unfold Markup.urlAfter.
  destruct (JS.dropPrefix scheme s) as [r|] eqn:Hr; [|done]. simpl.
  pose proof (run_length (λ c, negb (JS.is_space c)) r) as Hlen.
  destruct (Markup.run _ r) as [|c rest] eqn:Hrun; [done|].
  intros [= <-]. split; [by eapply dropPrefix_prefix|].
  rewrite (dropPrefix_length _ _ _ Hr), string_app_length. simpl in *. lia.
Qed.

Lemma urlAt_Some (s url : string) :
  Markup.urlAt s = Some url →
  String.prefix "http" s = true ∧ 1 ≤ String.length url ≤ String.length s.
Proof.
  unfold Markup.urlAt.
  destruct (Markup.urlAfter "https://" s) as [url'|] eqn:Hs.
  - intros [= <-]. apply urlAfter_Some in Hs as [Hp ?].
    split; [|done]. by apply (prefix_append "http" "s://").
  - intros [Hp ?]%urlAfter_Some.
    split; [|done]. by apply (prefix_append "http" "://").
Qed.

Lemma includes_http (c : ascii) (s : string) :
  JS.includes (String c s) "http"
  = String.prefix "http" (String c s) || JS.includes s "http".
Proof. reflexivity. Qed.

Lemma linkFrom_plain (s : string) :
  Markup.plain s → Markup.linkFrom 0 s = s.
Proof.
  unfold Markup.plain. induction s as [|c s IH]; [done|].
  rewrite includes_http. intros [Hp Hs]%orb_false_elim.
  cbn [Markup.linkFrom].
  destruct (Markup.urlAt (String c s)) as [url|] eqn:Hurl.
  - apply urlAt_Some in Hurl as [Hurl _]. congruence.
  - by rewrite IH.
Qed.

Lemma linkFrom_covered (s : string) : ∀ skip,
  String.length s ≤ skip → Markup.linkFrom skip s = "".
Proof.
  induction s as [|c s IH]; intros [|k] Hk; simpl in *; try done; [lia|].
  apply IH. lia.
Qed.

(** White space ends every match. *)
Section white_space.
Variable ws : ascii.
Hypothesis ws_space : JS.is_space ws = true.

Lemma dropPrefix_app_space (p a b : string) :
  JS.allChars (λ c, negb (JS.is_space c)) p = true →
  JS.dropPrefix p (a +:+ String ws b)
  = (λ r, r +:+ String ws b) <$> JS.dropPrefix p a.
Proof.
  revert a. induction p as [|x p IH]; intros a Hp; [done|].
  simpl in Hp. apply andb_prop in Hp as [Hx Hp].
  destruct a as [|c a]; simpl.
  - destruct (Ascii.eqb_spec x ws) as [->|]; [|done].
    by rewrite ws_space in Hx.
  - destruct (Ascii.eqb x c); [by apply IH|done].
Qed.

Lemma run_app_space (r b : string) :
  Markup.run (λ c, negb (JS.is_space c)) (r +:+ String ws b)
  = Markup.run (λ c, negb (JS.is_space c)) r.
Proof.
  induction r as [|c r IH]; simpl; [by rewrite ws_space|].
  destruct (JS.is_space c); simpl; [done|]. by rewrite IH.
Qed.

Lemma urlAfter_app_space (scheme a b : string) :
  JS.allChars (λ c, negb (JS.is_space c)) scheme = true →
  Markup.urlAfter scheme (a +:+ String ws b) = Markup.urlAfter scheme a.
Proof.
  intros Hscheme. unfold Markup.urlAfter.
  rewrite dropPrefix_app_space by done.
  destruct (JS.dropPrefix scheme a) as [r|]; [|done]. simpl.
  by rewrite run_app_space.
Qed.

Lemma urlAt_app_space (a b : string) :
  Markup.urlAt (a +:+ String ws b) = Markup.urlAt a.
Proof. unfold Markup.urlAt. by rewrite !urlAfter_app_space. Qed.

Lemma linkFrom_app_space (a b : string) : ∀ skip,
  skip ≤ String.length a →
  Markup.linkFrom skip (a +:+ String ws b)
  = Markup.linkFrom skip a +:+ String ws (Markup.linkFrom 0 b).
Proof.
  induction a as [|c a IH]; intros skip Hskip.
  - simpl in Hskip. assert (skip = 0) as -> by lia.
    change ("" +:+ String ws b) with (String ws b).
    cbn [Markup.linkFrom].
    change (String ws b) with ("" +:+ String ws b) at 1.
    by rewrite urlAt_app_space.
  - change (String c a +:+ String ws b) with (String c (a +:+ String ws b)).
    destruct skip as [|k]; cbn [Markup.linkFrom].
    + change (String c (a +:+ String ws b)) with (String c a +:+ String ws b).
      rewrite urlAt_app_space.
      destruct (Markup.urlAt (String c a)) as [url|] eqn:Hurl.
      * apply urlAt_Some in Hurl as [_ Hlen]. simpl in Hlen.
        rewrite IH by lia. by rewrite string_app_assoc.
      * by rewrite IH by lia.
    + simpl in Hskip. apply IH. lia.
Qed.

End white_space.

(** X11: [makeLinksClickable] leaves a text without "http" as it is,
    turns a word that is a URL (a scheme [http://] or [https://] and at
    least one more character, with no white space) into a link to itself,
    and works on the words on the two sides of a white-space character
    apart: no match goes across white space. *)
Theorem links_are_made_word_by_word :
  (∀ text, Markup.plain text → Markup.makeLinksClickable text = text)
  ∧ (∀ scheme rest,
       scheme = "http://" ∨ scheme = "https://" →
       rest ≠ "" →
       JS.allChars (λ c, negb (JS.is_space c)) rest = true →
       Markup.makeLinksClickable (scheme +:+ rest)
       = Markup.anchor (scheme +:+ rest) (scheme +:+ rest))
  ∧ (∀ ws before after,
       JS.is_space ws = true →
       Markup.makeLinksClickable (before +:+ String ws after)
       = Markup.makeLinksClickable before
         +:+ String ws (Markup.makeLinksClickable after)).
Proof.
  split; [exact linkFrom_plain|]. split.
  - intros scheme rest Hscheme Hne Hrest.
    assert (Markup.urlAt (scheme +:+ rest) = Some (scheme +:+ rest)) as Hurl.
    { unfold Markup.urlAt, Markup.urlAfter.
      destruct Hscheme as [->| ->]; simpl; rewrite run_all by done;
        by destruct rest. }
    unfold Markup.makeLinksClickable.
    destruct (scheme +:+ rest) as [|c url] eqn:Happ.
    { by destruct Hscheme as [->| ->]. }
    cbn [Markup.linkFrom]. rewrite Hurl, linkFrom_covered by (simpl; lia).
    apply string_app_nil_r.
  - intros ws before after Hws. unfold Markup.makeLinksClickable.
    apply linkFrom_app_space; [done|lia].
Qed.

(** A sentence with a link in it. *)
Lemma links_are_made_word_by_word_witness :
  Markup.makeLinksClickable "see https://a.b/c"
  = "see " +:+ Markup.anchor "https://a.b/c" "https://a.b/c".
Proof.
  destruct links_are_made_word_by_word as (Hplain & Hurl & Hwords).
  change "see https://a.b/c" with ("see" +:+ String " " "https://a.b/c").
  rewrite (Hwords " "%char "see" "https://a.b/c" eq_refl).
  rewrite (Hplain "see" eq_refl).
  change "https://a.b/c" with ("https://" +:+ "a.b/c") at 1.
  rewrite (Hurl "https://" "a.b/c" (or_intror eq_refl)); [reflexivity|done..].
Defined.

(** *** The replacements of [getDesignSuggestions] *)

Section replace_facts.
Variable matchAt : string → option (string * nat).

Lemma replaceAll_skip (u v : string) :
  Markup.replaceAll matchAt (String.length u) (u +:+ v)
  = Markup.replaceAll matchAt 0 v.
Proof. induction u as [|c u IH]; [done|]. exact IH. Qed.

Lemma replaceAll_match (c : ascii) (r replacement : string) (covered : nat) :
  matchAt (String c r) = Some (replacement, covered) →
  Markup.replaceAll matchAt 0 (String c r)
  = replacement +:+ Markup.replaceAll matchAt (covered - 1) r.
Proof. intros Hm. cbn [Markup.replaceAll]. by rewrite Hm. Qed.

Lemma replaceAll_no_match (c : ascii) (r : string) :
  matchAt (String c r) = None →
  Markup.replaceAll matchAt 0 (String c r)
  = String c (Markup.replaceAll matchAt 0 r).
Proof. intros Hm. cbn [Markup.replaceAll]. by rewrite Hm. Qed.

(** No match starts at a character that is not a [trigger]. *)
Variable trigger : ascii → bool.
Hypothesis matchAt_trigger :
  ∀ c r, trigger c = false → matchAt (String c r) = None.

Lemma replaceAll_inert (u v : string) :
  JS.allChars (λ c, negb (trigger c)) u = true →
  Markup.replaceAll matchAt 0 (u +:+ v)
  = u +:+ Markup.replaceAll matchAt 0 v.
Proof.
  induction u as [|c u IH]; [done|]. simpl.
  intros [Hc Hu]%andb_prop. apply negb_true_iff in Hc.
  change (matchAt (String c (u +:+ v))) with (matchAt (String c (u +:+ v))).
  rewrite matchAt_trigger by done. by rewrite IH.
Qed.

End replace_facts.

Lemma run_app_stop (p : ascii → bool) (u v : string) (c : ascii) :
  JS.allChars p u = true → p c = false →
  Markup.run p (u +:+ String c v) = u
  ∧ Markup.afterRun p (u +:+ String c v) = String c v.
Proof.
  intros Hu Hc. induction u as [|x u IH]; simpl.
  - by rewrite Hc.
  - simpl in Hu. apply andb_prop in Hu as [-> Hu].
    destruct (IH Hu) as [-> ->]. done.
Qed.

Lemma dropPrefix_first (a c : ascii) (p r : string) :
  Ascii.eqb c a = false → JS.dropPrefix (String a p) (String c r) = None.
Proof.
  intros Hc. cbn [JS.dropPrefix]. rewrite Ascii.eqb_sym in Hc. by rewrite Hc.
Qed.

Lemma starsAt_trigger (c : ascii) (r : string) :
  Ascii.eqb c "*" = false → Markup.starsAt (String c r) = None.
Proof.
  intros Hc. unfold Markup.starsAt. by rewrite dropPrefix_first.
Qed.

Lemma markdownLinkAt_trigger (c : ascii) (r : string) :
  Ascii.eqb c "[" = false → Markup.markdownLinkAt (String c r) = None.
Proof.
  intros Hc. unfold Markup.markdownLinkAt. by rewrite dropPrefix_first.
Qed.

Lemma headingAt_trigger (marker tag : string) (c : ascii) (r : string) :
  Ascii.eqb c "#" = false →
  Markup.headingAt (String "#" marker) tag (String c r) = None.
Proof.
  intros Hc. unfold Markup.headingAt. by rewrite dropPrefix_first.
Qed.

(** The character classes of a title. *)
Lemma title_chars (t : string) (p : ascii → bool) :
  (∀ c, JS.in_codes [10; 13; 35; 42; 91] c = false → p c = true) →
  JS.allChars (λ c, negb (JS.in_codes [10; 13; 35; 42; 91] c)) t = true →
  JS.allChars p t = true.
Proof.
  intros Hp. induction t as [|c t IH]; [done|]. simpl.
  intros [Hc Ht]%andb_prop. apply negb_true_iff in Hc.
  by rewrite (Hp c Hc), IH.
Qed.

Lemma allChars_app (p : ascii → bool) (a b : string) :
  JS.allChars p (a +:+ b) = JS.allChars p a && JS.allChars p b.
Proof.
  induction a as [|c a IH]; [done|]. simpl. by rewrite IH, andb_assoc.
Qed.

(** A code that is none of the five is not the character of that code. *)
Lemma not_in_codes (c : ascii) (n : nat) :
  n ∈ [10; 13; 35; 42; 91] →
  JS.in_codes [10; 13; 35; 42; 91] c = false →
  Ascii.eqb c (ascii_of_nat n) = false.
Proof.
  intros Hn Hc. destruct (Ascii.eqb_spec c (ascii_of_nat n)) as [->|]; [|done].
  repeat (apply elem_of_cons in Hn as [->|Hn]; [discriminate Hc|]).
  by apply elem_of_nil in Hn.
Qed.

Lemma trimEnd_app (a b : string) :
  JS.trimEnd b ≠ "" → JS.trimEnd (a +:+ b) = a +:+ JS.trimEnd b.
Proof.
  intros Hb. induction a as [|c a IH]; [done|].
  change (String c a +:+ b) with (String c (a +:+ b)).
  cbn [JS.trimEnd]. rewrite IH.
  destruct (String.eqb_spec (a +:+ JS.trimEnd b) "") as [Heq|_].
  - destruct a; [done|discriminate Heq].
  - by rewrite andb_false_r.
Qed.

Section first_line.
Variable t rest : string.
Hypothesis t_title : Markup.title t.

Local Abbreviation LF := (String JS.LF "").

Lemma title_not_empty : String.eqb t "" = false.
Proof. destruct t_title as [Hne _]. by destruct (String.eqb_spec t ""). Qed.

Lemma title_without (n : nat) :
  n ∈ [10; 13; 35; 42; 91] →
  JS.allChars (λ c, negb (Ascii.eqb c (ascii_of_nat n))) t = true.
Proof.
  intros Hn. destruct t_title as (_ & Hchars & _).
  apply (title_chars t); [|done]. intros c Hc.
  by rewrite (not_in_codes c n).
Qed.

Lemma title_one_line :
  JS.allChars (λ c, negb (JS.is_lf c)) t = true
  ∧ JS.allChars (λ c, negb (JS.is_line_terminator c)) t = true.
Proof.
  destruct t_title as (_ & Hchars & _).
  split; (apply (title_chars t); [|done]); intros c;
    unfold JS.in_codes, JS.is_lf, JS.is_line_terminator; cbn [existsb];
    intros Hc; repeat (apply orb_false_elim in Hc as [? Hc]);
    apply negb_true_iff; unfold JS.in_codes; cbn [existsb];
    repeat (apply orb_false_intro; [done|]); done.
Qed.

(** A pass that a character [ascii_of_nat n] triggers leaves the line and
    its line feed as they are, whatever stands before the title ([pre]),
    when no character of [pre] triggers it either. *)
Lemma replaceAll_first_line matchAt (n : nat) (pre : string) :
  n ∈ [10; 13; 35; 42; 91] → n ≠ 10 →
  (∀ c r, Ascii.eqb c (ascii_of_nat n) = false →
          matchAt (String c r) = None) →
  JS.allChars (λ c, negb (Ascii.eqb c (ascii_of_nat n))) pre = true →
  Markup.replaceAll matchAt 0 (pre +:+ t +:+ String JS.LF rest)
  = pre +:+ t +:+ String JS.LF (Markup.replaceAll matchAt 0 rest).
Proof.
  intros Hn Hlf Htrigger Hpre.
  change (String JS.LF rest) with (LF +:+ rest).
  rewrite <- !string_app_assoc.
  rewrite (replaceAll_inert matchAt (λ c, Ascii.eqb c (ascii_of_nat n)))
    by (try done; rewrite !allChars_app, Hpre, title_without by done;
        cbn [JS.allChars andb]; rewrite andb_true_r; apply negb_true_iff;
        repeat (apply elem_of_cons in Hn as [->|Hn]; [done|]);
        by apply elem_of_nil in Hn).
  by rewrite !string_app_assoc.
Qed.

Lemma title_plain (pre : string) :
  pre = "# " ∨ pre = "## " → Markup.plain (pre +:+ t).
Proof.
  destruct t_title as (_ & _ & Hplain).
  intros [->| ->]; unfold Markup.plain.
  - change ("# " +:+ t) with (String "#" (String " " t)).
    rewrite !includes_http. exact Hplain.
  - change ("## " +:+ t) with (String "#" (String "#" (String " " t))).
    rewrite !includes_http. exact Hplain.
Qed.

Lemma links_first_line (pre : string) :
  pre = "# " ∨ pre = "## " →
  Markup.makeLinksClickable (pre +:+ t +:+ String JS.LF rest)
  = pre +:+ t +:+ String JS.LF (Markup.makeLinksClickable rest).
Proof.
  intros Hpre. rewrite <- string_app_assoc.
  unfold Markup.makeLinksClickable.
  rewrite linkFrom_app_space by (done || lia).
  rewrite linkFrom_plain by by apply title_plain.
  by rewrite string_app_assoc.
Qed.

Lemma h1_first_line :
  Markup.replaceAll (Markup.headingAt "# " "h1") 0
    ("# " +:+ t +:+ String JS.LF rest)
  = "<h1>" +:+ t +:+ "</h1>"
    +:+ String JS.LF (Markup.replaceAll (Markup.headingAt "# " "h1") 0 rest).
Proof.
  destruct (run_app_stop (λ c, negb (JS.is_lf c)) t rest JS.LF) as [Hrun _];
    [apply title_one_line|done|].
  change ("# " +:+ t +:+ String JS.LF rest)
    with (String "#" (String " " (t +:+ String JS.LF rest))).
  rewrite (replaceAll_match _ _ _ ("<h1>" +:+ t +:+ "</h1>")
             (2 + String.length t)).
  - change (2 + String.length t - 1) with (String.length (String " " t)).
    change (String " " (t +:+ String JS.LF rest))
      with (String " " t +:+ String JS.LF rest).
    rewrite replaceAll_skip, replaceAll_no_match
      by (by apply headingAt_trigger).
    by rewrite !string_app_assoc.
  - unfold Markup.headingAt.
    change (JS.dropPrefix "# "
              (String "#" (String " " (t +:+ String JS.LF rest))))
      with (Some (t +:+ String JS.LF rest)).
    cbn [mbind option_bind]. by rewrite Hrun, title_not_empty.
Qed.

Lemma h1_second_level :
  Markup.replaceAll (Markup.headingAt "# " "h1") 0
    ("## " +:+ t +:+ String JS.LF rest)
  = "#<h1>" +:+ t +:+ "</h1>"
    +:+ String JS.LF (Markup.replaceAll (Markup.headingAt "# " "h1") 0 rest).
Proof.
  change ("## " +:+ t +:+ String JS.LF rest)
    with (String "#" ("# " +:+ t +:+ String JS.LF rest)).
  rewrite replaceAll_no_match by reflexivity.
  by rewrite h1_first_line.
Qed.

Lemma h2_first_line (pre : string) :
  pre = "" ∨ pre = "#" →
  Markup.replaceAll (Markup.headingAt "## " "h2") 0
    (pre +:+ "<h1>" +:+ t +:+ "</h1>" +:+ String JS.LF rest)
  = pre +:+ "<h1>" +:+ t +:+ "</h1>"
    +:+ String JS.LF (Markup.replaceAll (Markup.headingAt "## " "h2") 0 rest).
Proof.
  assert (Markup.replaceAll (Markup.headingAt "## " "h2") 0
            ("<h1>" +:+ t +:+ "</h1>" +:+ String JS.LF rest)
          = "<h1>" +:+ t +:+ "</h1>"
            +:+ String JS.LF
                  (Markup.replaceAll (Markup.headingAt "## " "h2") 0 rest))
    as Hinert.
  { change (String JS.LF rest) with (LF +:+ rest).
    rewrite <- !string_app_assoc.
    rewrite (replaceAll_inert _ (λ c, Ascii.eqb c "#"));
      [by rewrite !string_app_assoc|apply headingAt_trigger|].
    pose proof (title_without 35 ltac:(set_solver)) as Hhash.
    change (ascii_of_nat 35) with "#"%char in Hhash.
    rewrite !allChars_app, Hhash. reflexivity. }
  intros [->| ->]; [exact Hinert|].
  change ("#" +:+ "<h1>" +:+ t +:+ "</h1>" +:+ String JS.LF rest)
    with (String "#" ("<h1>" +:+ t +:+ "</h1>" +:+ String JS.LF rest)).
  rewrite replaceAll_no_match by reflexivity.
  by rewrite Hinert.
Qed.

End first_line.

Lemma formatSuggestions_first_line (t rest : string) :
  Markup.title t →
  Markup.formatSuggestions ("# " +:+ t +:+ String JS.LF rest)
  = "<h1>" +:+ t +:+ "</h1>"
    +:+ String JS.LF (Markup.formatSuggestions rest).
Proof.
  intros Ht. unfold Markup.formatSuggestions. cbv zeta.
  rewrite (replaceAll_first_line t _ Ht Markup.starsAt 42 "# "
             ltac:(set_solver) ltac:(done) starsAt_trigger eq_refl).
  rewrite (replaceAll_first_line t _ Ht Markup.markdownLinkAt 91 "# "
             ltac:(set_solver) ltac:(done) markdownLinkAt_trigger eq_refl).
  rewrite links_first_line by (done || by left).
  rewrite h1_first_line by done. apply (h2_first_line t _ Ht ""). by left.
Qed.

Lemma formatSuggestions_second_level (t rest : string) :
  Markup.title t →
  Markup.formatSuggestions ("## " +:+ t +:+ String JS.LF rest)
  = "#<h1>" +:+ t +:+ "</h1>"
    +:+ String JS.LF (Markup.formatSuggestions rest).
Proof.
  intros Ht. unfold Markup.formatSuggestions. cbv zeta.
  rewrite (replaceAll_first_line t _ Ht Markup.starsAt 42 "## "
             ltac:(set_solver) ltac:(done) starsAt_trigger eq_refl).
  rewrite (replaceAll_first_line t _ Ht Markup.markdownLinkAt 91 "## "
             ltac:(set_solver) ltac:(done) markdownLinkAt_trigger eq_refl).
  rewrite links_first_line by (done || by right).
  rewrite h1_second_level by done. apply (h2_first_line t _ Ht "#"). by right.
Qed.

Lemma heading_of_tagged_line (t tail : string) :
  Markup.title t →
  Extract.extractHeading ("<h1>" +:+ t +:+ "</h1>" +:+ String JS.LF tail)
  = "<h1>" +:+ t +:+ "</h1>".
Proof.
  intros Ht. rewrite extractHeading_third_alternative by reflexivity.
  rewrite <- !string_app_assoc.
  rewrite lazyLine_first_line.
  - rewrite !string_app_assoc. unfold JS.trim.
    change (JS.trimStart ("<h1>" +:+ t +:+ "</h1>"))
      with ("<h1>" +:+ t +:+ "</h1>").
    rewrite <- string_app_assoc, trimEnd_app by discriminate.
    by rewrite string_app_assoc.
  - done.
  - rewrite !allChars_app. by rewrite (proj2 (title_one_line t Ht)).
Qed.

(** X12: [getDesignSuggestions] of [server.js] turns the markdown of the
    suggestions into HTML before the handler extracts the heading.  A first
    line [# Title] comes out as [<h1>Title</h1>], the rest of the text
    being converted on its own, and [extractHeading] on the converted text
    gives the title with its tags; a first line [## Title] comes out as
    [#<h1>Title</h1>], because the replacement for [# ] runs first. *)
Theorem headings_are_tagged_before_extraction (t rest : string) :
  Markup.title t →
  Markup.formatSuggestions ("# " +:+ t +:+ String JS.LF rest)
  = "<h1>" +:+ t +:+ "</h1>" +:+ String JS.LF (Markup.formatSuggestions rest)
  ∧ Extract.extractHeading
      (Markup.formatSuggestions ("# " +:+ t +:+ String JS.LF rest))
    = "<h1>" +:+ t +:+ "</h1>"
  ∧ Markup.formatSuggestions ("## " +:+ t +:+ String JS.LF rest)
    = "#<h1>" +:+ t +:+ "</h1>"
      +:+ String JS.LF (Markup.formatSuggestions rest)
  ∧ ∀ status,
      Http.statusOk status = true →
      Markup.getDesignSuggestions
        (Http.response status
           (Some {| Markup.text := Some ("# " +:+ t +:+ String JS.LF rest) |}))
      = fulfilled
          ("<h1>" +:+ t +:+ "</h1>"
           +:+ String JS.LF (Markup.formatSuggestions rest)).
Proof.
  intros Ht. split; [by apply formatSuggestions_first_line|].
  split; [|split].
  - rewrite formatSuggestions_first_line by done.
    by apply heading_of_tagged_line.
  - by apply formatSuggestions_second_level.
  - intros status Hstatus. unfold Markup.getDesignSuggestions.
    cbn [Http.axios]. rewrite Hstatus.
    cbn [mbind settled_bind Async.andThen Async.property Async.tryCatch snd
         mret settled_ret Markup.text].
    replace (JS.or_else (Some ("# " +:+ t +:+ String JS.LF rest))
               "No AI suggestions available.")
      with ("# " +:+ t +:+ String JS.LF rest) by reflexivity.
    by rewrite formatSuggestions_first_line.
Qed.

(** The suggestions of the specification's example. *)
Lemma headings_are_tagged_before_extraction_witness :
  Markup.title "Bold Modern Branding"
  ∧ Extract.extractHeading
      (Markup.formatSuggestions
         ("# " +:+ "Bold Modern Branding"
          +:+ String JS.LF "## COLOR PALETTE..."))
    = "<h1>Bold Modern Branding</h1>".
Proof.
  assert (Markup.title "Bold Modern Branding") as Ht
    by (split; [discriminate|split; reflexivity]).
  split; [exact Ht|].
  exact (proj1 (proj2 (headings_are_tagged_before_extraction
                         "Bold Modern Branding" "## COLOR PALETTE..." Ht))).
Defined.

(** X13: [getDesignSuggestions] of [server.js] never rejects: when the
    request to Gemini fails, or the payload is missing, it gives the text
    "Could not generate AI suggestions."; when the payload holds no text it
    gives "No AI suggestions available."; neither text has a line feed, so
    the heading of both is the default one. *)
Theorem suggestions_fall_back_to_a_message
    (gemini : Http.outcome (option Markup.payload)) :
  (∃ aiText, Markup.getDesignSuggestions gemini = fulfilled aiText)
  ∧ (Http.failedOr (λ data, data = None) gemini →
     Markup.getDesignSuggestions gemini
     = fulfilled "Could not generate AI suggestions.")
  ∧ (∀ status,
       Http.statusOk status = true →
       Markup.getDesignSuggestions
         (Http.response status (Some {| Markup.text := None |}))
       = fulfilled "No AI suggestions available.")
  ∧ Extract.extractHeading "Could not generate AI suggestions."
    = "Design Recommendations"
  ∧ Extract.extractHeading "No AI suggestions available."
    = "Design Recommendations".
Proof.
  unfold Markup.getDesignSuggestions. split; [|split; [|split]].
  - destruct gemini as [m|m|status [data|]]; simpl; try by eexists.
    + destruct (Http.statusOk status); by eexists.
    + destruct (Http.statusOk status); by eexists.
  - destruct gemini as [m|m|status data]; simpl; try done.
    intros [->| ->]; [done|]. by destruct (Http.statusOk status).
  - intros status Hstatus. simpl. by rewrite Hstatus.
  - split; reflexivity.
Qed.

(** Gemini unreachable. *)
Lemma suggestions_fall_back_to_a_message_witness :
  Markup.getDesignSuggestions (Http.networkError "Network Error")
  = fulfilled "Could not generate AI suggestions.".
Proof.
  exact (proj1 (proj2 (suggestions_fall_back_to_a_message
                         (Http.networkError "Network Error"))) I).
Defined.

(** ** Related terms *)

Lemma lower_idempotent (c : ascii) : JS.lower (JS.lower c) = JS.lower c.
Proof. destruct c as [[] [] [] [] [] [] [] []]; reflexivity. Qed.

Lemma toLowerCase_idempotent (s : string) :
  JS.toLowerCase (JS.toLowerCase s) = JS.toLowerCase s.
Proof.
  induction s as [|c s IH]; [done|]. simpl. by rewrite lower_idempotent, IH.
Qed.

Lemma slice0_facts {A} (n : nat) (l : list A) :
  length (JS.slice0 n l) ≤ n
  ∧ JS.slice0 n l `sublist_of` l.
Proof.
  unfold JS.slice0. split; [rewrite length_take; lia|apply sublist_take].
Qed.

(** X14: [extractRelatedTerms] of the first server of [unnamed/part_000]
    gives at most 10 terms, no term twice, and every term is a word
    followed by " design" or by " typography"; the case of the letters of
    the query does not matter. *)
Theorem related_terms_are_few_and_distinct
    (query aiSuggestions : string) (industry designStyle : JS.value) :
  let terms :=
    Terms.extractRelatedTerms query aiSuggestions industry designStyle in
  length terms ≤ 10
  ∧ NoDup terms
  ∧ Forall (λ term, ∃ word, term = word +:+ " design"
                            ∨ term = word +:+ " typography") terms
  ∧ Terms.extractRelatedTerms (JS.toLowerCase query) aiSuggestions industry
      designStyle = terms.
Proof.
  cbv zeta. unfold Terms.extractRelatedTerms.
  destruct (slice0_facts 10
              (Dedup.setSpread
                 (Terms.allTerms query aiSuggestions industry designStyle)))
    as [Hlen Hsub].
  split; [done|]. split; [|split].
  - eapply sublist_NoDup; [apply setSpread_NoDup|exact Hsub].
  - apply Forall_forall. intros term Hterm.
    eapply elem_of_sublist in Hterm; [|exact Hsub].
    apply setSpread_subseteq in Hterm. revert term Hterm.
    apply Forall_forall. unfold Terms.allTerms. cbv zeta.
    repeat (apply Forall_app; split).
    + apply Forall_fmap, Forall_forall. intros word _. exists word. by left.
    + apply Forall_fmap, Forall_forall. intros word _. exists word. by left.
    + apply Forall_fmap, Forall_forall. intros word _. exists word. by right.
    + destruct (JS.truthy industry); repeat constructor.
      exists (default "" industry). by left.
    + destruct (JS.truthy designStyle); repeat constructor.
      exists (default "" designStyle). by left.
  - unfold Terms.allTerms, Terms.queryWords.
    by rewrite toLowerCase_idempotent.
Qed.

(** X15: [nlpUtils.extractEnhancedTerms], whatever the tokenizer and the
    stemmer do, throws a [TypeError] exactly when the query has a token and
    the industry, in lower case, is "constructor" or "__proto__" (names that
    the object literal [contextExpansions] inherits); otherwise it returns
    at most 15 terms, no term twice, the first of them the stem of the first
    token followed by " design". *)
Theorem enhanced_terms_are_few_or_throw
    (tokenize : string → list string) (stem : string → string)
    (query : string) (industry designStyle : JS.value) :
  let tokens := tokenize (JS.toLowerCase query) in
  match Terms.extractEnhancedTerms tokenize stem query industry designStyle with
  | fulfilled terms =>
      (tokens = [] ∨ ¬ Terms.throws industry)
      ∧ length terms ≤ 15
      ∧ NoDup terms
      ∧ ∀ token rest, tokens = token :: rest →
          head terms = Some (stem token +:+ " design")
  | rejected _ => tokens ≠ [] ∧ Terms.throws industry
  end.
Proof.
  cbv zeta. unfold Terms.extractEnhancedTerms. cbv zeta.
  pose proof (mapM_tokenTerms industry
                (stem <$> tokenize (JS.toLowerCase query))) as Hadded.
  destruct (Enhanced.mapM _ _) as [added|e];
    cbn [mbind settled_bind Async.andThen mret settled_ret].
  - destruct Hadded as [Hthrows Hhead].
    match goal with
    | |- context [JS.slice0 15 ?l] =>
        destruct (slice0_facts 15 l) as [Hlen Hsub]
    end.
    split; [|split; [done|split]].
    + destruct Hthrows as [Hnil|?]; [left|by right].
      by apply fmap_nil_inv in Hnil.
    + eapply sublist_NoDup; [apply setSpread_NoDup|exact Hsub].
    + intros token rest Htokens. rewrite Htokens in Hhead.
      specialize (Hhead (stem token) (fmap (M := list) stem rest) eq_refl).
      destruct (concat added) as [|first more]; [done|].
      injection Hhead as ->. unfold Dedup.setSpread.
      rewrite uniqueImages_fresh. simpl.
      by rewrite bool_decide_eq_false_2 by apply not_elem_of_empty.
  - destruct Hadded as [Hne Hthrows]. split; [|done].
    intros Hnil. apply Hne. by rewrite Hnil.
Qed.

(** A query "logo design", cut at the spaces and not stemmed, for the
    industries "Tech" and "Constructor". *)
Example enhanced_terms_examples :
  Terms.extractEnhancedTerms Terms.words id "logo design" (Some "Tech")
    (Some "bold")
  = fulfilled
      ["logo design"; "emblem design"; "mark design"; "insignia design";
       "symbol design"; "logo digital"; "logo interface"; "logo ui";
       "logo ux"; "logo app"; "logo software"; "logo innovation";
       "design design"; "creative design"; "visual design"]
  ∧ Terms.extractEnhancedTerms Terms.words id "logo design"
      (Some "Constructor") (Some "bold")
    = rejected "TypeError: industryTerms.forEach is not a function"
  ∧ Terms.extractRelatedTerms "Modern LOGO for app design"
      "Use a Bold, minimal look with Open Sans and sans-serif; Roboto."
      (Some "tech") None
    = ["modern design"; "logo design"; "design design"; "bold design";
       "minimal design"; "open sans typography"; "sans-serif typography";
       "roboto typography"; "tech design"].
Proof. repeat split. Qed.

(** ** The routes and page scripts of [updatedserver.txt] *)

Lemma split_app (sep : ascii) (a r : string) :
  JS.split sep (a +:+ String sep r) = JS.split sep a ++ JS.split sep r.
Proof.
  induction a as [|c a IH].
  - change ("" +:+ String sep r) with (String sep r).
    cbn [JS.split]. by rewrite Ascii.eqb_refl.
  - change (String c a +:+ String sep r) with (String c (a +:+ String sep r)).
    cbn [JS.split]. rewrite IH.
    destruct (Ascii.eqb c sep); [done|].
    pose proof (split_not_nil sep a). by destruct (JS.split sep a).
Qed.

Lemma toLowerCase_app (a b : string) :
  JS.toLowerCase (a +:+ b) = JS.toLowerCase a +:+ JS.toLowerCase b.
Proof.
  induction a as [|c a IH]; [done|].
  change (String c a +:+ b) with (String c (a +:+ b)).
  cbn [JS.toLowerCase]. rewrite IH. done.
Qed.

Lemma split_two_separators (sep : ascii) (a b : string) :
  "" ∈ JS.split sep (a +:+ String sep (String sep b)).
Proof.
  rewrite split_app. apply elem_of_app. right.
  cbn [JS.split]. rewrite Ascii.eqb_refl. apply list_elem_of_here.
Qed.

Lemma includes_empty_word (s : string) : JS.includes s "" = true.
Proof. by destruct s. Qed.

Lemma relevant_with_empty_word (words : list string) (title : string) :
  "" ∈ words → existsb (λ word, JS.includes title word) words = true.
Proof.
  intros Hin. apply existsb_exists. exists "". split.
  - by apply list_elem_of_In.
  - apply includes_empty_word.
Qed.

(** The items of the nodes that have an image, in the order of the page. *)
Lemma muzliLoop_extends (words : list string) (limit : nat)
    (items : list Routes.node) (data : list Item) :
  ∃ extra,
    Routes.muzliLoop words limit data items = data ++ extra
    ∧ extra `sublist_of` omap (λ n, Routes.muzliItem n <$> Routes.img n) items.
Proof.
  revert data. induction items as [|n items IH]; intros data.
  - exists []. by rewrite app_nil_r.
  - cbn [Routes.muzliLoop omap list_omap].
    destruct (Routes.img n) as [image|]; cbn [fmap option_fmap option_map].
    + destruct (existsb _ words || (2 * length data <? limit)).
      * destruct (limit <=? length (data ++ [Routes.muzliItem n image])).
        -- exists [Routes.muzliItem n image]. split; [done|].
           apply sublist_skip, sublist_nil_l.
        -- destruct (IH (data ++ [Routes.muzliItem n image])) as (extra & -> & Hsub).
           exists (Routes.muzliItem n image :: extra).
           split; [by rewrite <- app_assoc|]. by apply sublist_skip.
      * destruct (limit <=? length data).
        -- exists []. split; [by rewrite app_nil_r|]. apply sublist_nil_l.
        -- destruct (IH data) as (extra & -> & Hsub).
           exists extra. split; [done|]. by apply sublist_cons.
    + destruct (IH data) as (extra & -> & Hsub). exists extra.
      split; [done|]. done.
Qed.

Lemma muzliLoop_length (words : list string) (limit : nat)
    (items : list Routes.node) (data : list Item) :
  length data < limit ∨ data = [] →
  length (Routes.muzliLoop words limit data items) ≤ max 1 limit.
Proof.
  revert data. induction items as [|n items IH]; intros data Hdata.
  - cbn [Routes.muzliLoop]. destruct Hdata as [?| ->]; cbn [length]; lia.
  - cbn [Routes.muzliLoop].
    destruct (Routes.img n) as [image|]; [|by apply IH].
    destruct (existsb _ words || (2 * length data <? limit)).
    + destruct (limit <=? length (data ++ [Routes.muzliItem n image])) eqn:Hfull.
      * rewrite length_app. cbn [length].
        destruct Hdata as [?| ->]; cbn [length]; lia.
      * apply IH. left. by apply Nat.leb_gt in Hfull.
    + destruct (limit <=? length data) eqn:Hfull.
      * destruct Hdata as [?| ->]; cbn [length]; lia.
      * apply IH. left. by apply Nat.leb_gt in Hfull.
Qed.

Lemma muzliLoop_all_relevant (words : list string) (limit : nat)
    (items : list Routes.node) (data : list Item) :
  (∀ title, existsb (λ word, JS.includes title word) words = true) →
  length data < limit →
  Routes.muzliLoop words limit data items
  = data ++ take (limit - length data)
              (omap (λ n, Routes.muzliItem n <$> Routes.img n) items).
Proof.
  intros Hall. revert data. induction items as [|n items IH]; intros data Hdata.
  - cbn [Routes.muzliLoop omap list_omap]. by rewrite take_nil, app_nil_r.
  - cbn [Routes.muzliLoop omap list_omap].
    destruct (Routes.img n) as [image|]; cbn [fmap option_fmap option_map];
      [|by apply IH].
    rewrite Hall. cbn [orb].
    destruct (limit - length data) as [|k] eqn:Hk; [lia|].
    cbn [take].
    destruct (limit <=? length (data ++ [Routes.muzliItem n image])) eqn:Hfull.
    + apply Nat.leb_le in Hfull. rewrite length_app in Hfull.
      cbn [length] in Hfull.
      replace k with 0 by lia. by rewrite take_0.
    + apply Nat.leb_gt in Hfull. rewrite IH by done.
      rewrite length_app in *. cbn [length] in *.
      replace (limit - (length data + 1)) with k by lia.
      by rewrite <- app_assoc.
Qed.

(** X16: the script that [scrapeMuzli] runs in the page gives items of
    grid nodes that have an image only, in the order of the page, and at
    most [limit] of them (one when [limit] is 0). *)
Theorem muzli_items_have_an_image_and_are_few (query : string) (limit : nat)
    (items : list Routes.node) :
  Routes.muzliScript query limit items
    `sublist_of` omap (λ n, Routes.muzliItem n <$> Routes.img n) items
  ∧ length (Routes.muzliScript query limit items) ≤ max 1 limit.
Proof.
  unfold Routes.muzliScript. split.
  - destruct (muzliLoop_extends (JS.split " " (JS.toLowerCase query)) limit
                items []) as (extra & -> & Hsub).
    done.
  - apply muzliLoop_length. by right.
Qed.

Lemma primaryQuery_empty_word (req : Req.t) :
  JS.truthy (Req.industry req) = false ∨ JS.truthy (Req.designStyle req) = false →
  "" ∈ JS.split " " (JS.toLowerCase (Updated.primaryQuery req)).
Proof.
  unfold Updated.primaryQuery, JS.or_else. intros [-> | ->].
  - change (" " +:+ "" +:+ " " +:+ ?rest)
      with (String " " (String " " rest)).
    rewrite toLowerCase_app. cbn [JS.toLowerCase].
    change (JS.lower " ") with " "%char.
    apply split_two_separators.
  - destruct (JS.truthy (Req.industry req)).
    + rewrite <- (string_app_assoc (default "" (Req.q req)) " ").
      rewrite <- (string_app_assoc _ (default "" (Req.industry req))).
      change (" " +:+ "" +:+ " design inspiration")
        with (String " " (String " " "design inspiration")).
      rewrite toLowerCase_app. cbn [JS.toLowerCase].
      change (JS.lower " ") with " "%char.
      apply split_two_separators.
    + change (" " +:+ "" +:+ " " +:+ ?rest)
        with (String " " (String " " rest)).
      rewrite toLowerCase_app. cbn [JS.toLowerCase].
      change (JS.lower " ") with " "%char.
      apply split_two_separators.
Qed.

(** X17: [GET /search] hands Muzli's script the primary query; when the
    request has no industry or no design style that query has two spaces
    in a row, so one of its words is empty, every title includes it, and
    the relevance filter lets every item through: the script gives the
    first [limit] items that have an image. *)
Theorem muzli_filter_is_void_without_industry_or_style (req : Req.t)
    (limit : nat) (items : list Routes.node) :
  JS.truthy (Req.industry req) = false ∨ JS.truthy (Req.designStyle req) = false →
  0 < limit →
  Routes.muzliScript (Updated.primaryQuery req) limit items
  = take limit (omap (λ n, Routes.muzliItem n <$> Routes.img n) items).
Proof.
  intros Hreq Hlimit. unfold Routes.muzliScript.
  rewrite muzliLoop_all_relevant.
  - cbn [length app]. by rewrite Nat.sub_0_r.
  - intros title. by apply relevant_with_empty_word, primaryQuery_empty_word.
  - done.
Qed.

Lemma muzli_filter_is_void_without_industry_or_style_witness :
  Routes.muzliScript (Updated.primaryQuery Sample.logo) 2 Replies.muzliPage
  = [Routes.muzliItem {| Routes.img := Some "https://muz.li/1.png";
                         Routes.caption := Some " Poster ";
                         Routes.href := Some "https://muz.li/1" |}
       "https://muz.li/1.png";
     Routes.muzliItem {| Routes.img := Some "https://muz.li/3.png";
                         Routes.caption := Some "Mountains";
                         Routes.href := None |}
       "https://muz.li/3.png"].
Proof.
  rewrite (muzli_filter_is_void_without_industry_or_style Sample.logo 2
             Replies.muzliPage); [reflexivity | by left | lia].
Defined.

Lemma lower_alnum (c : ascii) :
  Routes.is_alnum c = true →
  (JS.in_range "a" "z" (JS.lower c) || JS.in_range "0" "9" (JS.lower c)) = true
  ∧ Routes.is_alnum (JS.lower c) = true
  ∧ JS.lower (JS.lower c) = JS.lower c.
Proof.
  destruct c as [[] [] [] [] [] [] [] []]; vm_compute; intros H;
    try discriminate H; repeat split.
Qed.

Lemma keep_lower_alnum (s : string) :
  JS.allChars Routes.is_alnum s = true →
  Routes.keep Routes.is_alnum (JS.toLowerCase s) = JS.toLowerCase s.
Proof.
  induction s as [|c s IH]; [done|].
  cbn [JS.allChars JS.toLowerCase Routes.keep].
  intros [Hc Hs]%andb_true_iff.
  destruct (lower_alnum c Hc) as (_ & -> & _). by rewrite IH.
Qed.

Lemma keep_all (p : ascii → bool) (s : string) :
  JS.allChars p (Routes.keep p s) = true.
Proof.
  induction s as [|c s IH]; [done|]. cbn [Routes.keep].
  destruct (p c) eqn:Hc; [|done]. cbn [JS.allChars]. by rewrite Hc, IH.
Qed.

(** X18: the hashtag that [scrapeInstagram] and [scrapeInstagramTrends]
    make of a query holds lower-case letters and digits only, making it
    again changes nothing, and it is empty exactly when the query has no
    letter or digit, however long the query is. *)
Theorem hashtag_is_lower_case_letters_and_digits (query : string) :
  JS.allChars (λ c, JS.in_range "a" "z" c || JS.in_range "0" "9" c)
    (Routes.hashtag query) = true
  ∧ Routes.hashtag (Routes.hashtag query) = Routes.hashtag query
  ∧ (Routes.hashtag query = ""
     ↔ JS.allChars (λ c, negb (Routes.is_alnum c)) query = true).
Proof.
  unfold Routes.hashtag. repeat split.
  - induction query as [|c s IH]; [done|]. cbn [Routes.keep].
    destruct (Routes.is_alnum c) eqn:Hc; [|done].
    cbn [JS.toLowerCase JS.allChars]. rewrite IH.
    by destruct (lower_alnum c Hc) as (-> & _).
  - rewrite keep_lower_alnum by apply keep_all.
    by rewrite toLowerCase_idempotent.
  - induction query as [|c s IH]; [done|]. cbn [Routes.keep JS.allChars].
    destruct (Routes.is_alnum c); [done|]. exact IH.
  - induction query as [|c s IH]; [done|]. cbn [Routes.keep JS.allChars].
    destruct (Routes.is_alnum c); [done|]. exact IH.
Qed.

Section trimming.

Variable p : ascii → bool.

Lemma trimStart_all (s : string) :
  JS.allChars p s = true → JS.allChars p (JS.trimStart s) = true.
Proof.
  induction s as [|c s IH]; [done|]. cbn [JS.trimStart].
  destruct (JS.is_space c); [|done].
  cbn [JS.allChars]. intros [_ Hs]%andb_true_iff. by apply IH.
Qed.

Lemma trimEnd_all (s : string) :
  JS.allChars p s = true → JS.allChars p (JS.trimEnd s) = true.
Proof.
  induction s as [|c s IH]; [done|]. cbn [JS.trimEnd JS.allChars].
  intros [Hc Hs]%andb_true_iff.
  destruct (JS.is_space c && String.eqb (JS.trimEnd s) ""); [done|].
  cbn [JS.allChars]. by rewrite Hc, IH.
Qed.

Lemma trim_all (s : string) :
  JS.allChars p s = true → JS.allChars p (JS.trim s) = true.
Proof. intros Hs. by apply trimEnd_all, trimStart_all. Qed.

End trimming.

Lemma trimEnd_idempotent (s : string) :
  JS.trimEnd (JS.trimEnd s) = JS.trimEnd s.
Proof.
  induction s as [|c s IH]; [done|]. cbn [JS.trimEnd].
  destruct (JS.is_space c && String.eqb (JS.trimEnd s) "") eqn:Hend; [done|].
  cbn [JS.trimEnd]. by rewrite IH, Hend.
Qed.

Lemma trimStart_head (s : string) :
  JS.trimStart s = ""
  ∨ ∃ c r, JS.trimStart s = String c r ∧ JS.is_space c = false.
Proof.
  induction s as [|c s IH]; [by left|]. cbn [JS.trimStart].
  destruct (JS.is_space c) eqn:Hc; [done|]. right. by exists c, s.
Qed.

Lemma trim_idempotent (s : string) : JS.trim (JS.trim s) = JS.trim s.
Proof.
  unfold JS.trim.
  destruct (trimStart_head s) as [-> | (c & r & -> & Hc)]; [done|].
  cbn [JS.trimEnd]. rewrite Hc. cbn [andb JS.trimStart]. rewrite Hc.
  cbn [JS.trimEnd]. rewrite Hc. cbn [andb]. by rewrite trimEnd_idempotent.
Qed.

Lemma split_pieces (sep : ascii) (s : string) :
  Forall (λ piece, JS.allChars (λ c, negb (Ascii.eqb c sep)) piece = true)
         (JS.split sep s).
Proof.
  induction s as [|c s IH]; [by repeat constructor|].
  cbn [JS.split]. destruct (Ascii.eqb c sep) eqn:Hc.
  - by constructor.
  - destruct (JS.split sep s) as [|w ws]; [by repeat constructor; cbn; rewrite Hc|].
    inversion IH as [|? ? Hw Hws]; subst. constructor; [|done].
    cbn [JS.allChars]. by rewrite Hc, Hw.
Qed.

Lemma split_piece (sep : ascii) (s : string) :
  JS.allChars (λ c, negb (Ascii.eqb c sep)) s = true → JS.split sep s = [s].
Proof.
  induction s as [|c s IH]; [done|]. cbn [JS.allChars JS.split].
  intros [Hc Hs]%andb_true_iff. apply negb_true_iff in Hc.
  by rewrite Hc, IH.
Qed.

(** What [getRelatedDesignTerms] makes of the text of the model. *)
Lemma terms_of_text (text : string) :
  Forall (λ term,
            term ≠ "" ∧ JS.trim term = term
            ∧ JS.allChars (λ c, negb (Ascii.eqb c ",")) term = true)
         (List.filter (λ term, 0 <? String.length term)
            (JS.trim <$> JS.split "," text)).
Proof.
  apply Forall_forall. intros term [Hlen Hterm]%List_filter_elem_of.
  apply list_elem_of_fmap in Hterm as (piece & -> & Hpiece).
  pose proof (split_pieces "," text) as Hpieces.
  rewrite Forall_forall in Hpieces.
  repeat split.
  - intros Hempty. by rewrite Hempty in Hlen.
  - apply trim_idempotent.
  - by apply trim_all, Hpieces.
Qed.

(** X19: [getRelatedDesignTerms] never rejects, and each of its terms is
    a non-empty string without a comma and without white space at its
    ends; when the call to the model fails in transport, there is no
    term. *)
Theorem related_design_terms_are_clean (w : Updated.world) (query : string)
    (industry designStyle audience : JS.value) :
  ∃ terms,
    Routes.getRelatedDesignTerms w query industry designStyle audience
    = fulfilled terms
    ∧ Forall (λ term,
                term ≠ "" ∧ JS.trim term = term
                ∧ JS.allChars (λ c, negb (Ascii.eqb c ",")) term = true)
             terms
    ∧ (Http.failed (Updated.generateContent w "related terms"
                      [Some query; industry; designStyle; audience]) →
       terms = []).
Proof.
  unfold Routes.getRelatedDesignTerms.
  destruct (Updated.generateContent w "related terms" _)
    as [m|m|status [data|]]; cbn.
  1,2: by exists [].
  - destruct (Http.statusOk status) eqn:Hstatus; cbn.
    + eexists. split; [reflexivity|]. split; [apply terms_of_text|].
      intros Hfailed. congruence.
    + by exists [].
  - destruct (Http.statusOk status); cbn; by exists [].
Qed.

Lemma related_design_terms_are_clean_witness :
  Routes.getRelatedDesignTerms Sample.updatedOffline "logo" None None None
  = fulfilled [].
Proof.
  destruct (related_design_terms_are_clean Sample.updatedOffline "logo"
              None None None) as (terms & Hterms & _ & Hfailed).
  rewrite Hterms. f_equal. apply Hfailed. exact I.
Defined.

Lemma split_listed (t : string) (terms : list string) :
  Forall (λ term, JS.allChars (λ c, negb (Ascii.eqb c ",")) term = true)
         (t :: terms) →
  JS.split "," (String.concat ", " (t :: terms)) = t :: (String " " <$> terms).
Proof.
  revert t. induction terms as [|u terms IH]; intros t Hall.
  - apply split_piece. by inversion Hall.
  - inversion Hall as [|? ? Ht Hrest]; subst.
    change (String.concat ", " (t :: u :: terms))
      with (t +:+ String "," (String " " (String.concat ", " (u :: terms)))).
    rewrite split_app, (split_piece _ _ Ht).
    cbn [JS.split app]. change (Ascii.eqb " " ",") with false.
    cbv iota. by rewrite (IH u Hrest).
Qed.

Lemma trim_after_space (term : string) :
  JS.trim term = term → JS.trim (String " " term) = term.
Proof. done. Qed.

(** X20: a list of terms that [getRelatedDesignTerms] could give comes
    back as it is when the model answers with the terms separated by a
    comma and a space: splitting, trimming and dropping the empty parts
    undo the joining. *)
Theorem related_design_terms_round_trip (w : Updated.world) (query : string)
    (industry designStyle audience : JS.value) (status : nat)
    (terms : list string) :
  Forall (λ term,
            term ≠ "" ∧ JS.trim term = term
            ∧ JS.allChars (λ c, negb (Ascii.eqb c ",")) term = true)
         terms →
  Http.statusOk status = true →
  Updated.generateContent w "related terms"
    [Some query; industry; designStyle; audience]
  = Http.response status
      (Some {| Updated.Gemini.text := Some (String.concat ", " terms) |}) →
  Routes.getRelatedDesignTerms w query industry designStyle audience
  = fulfilled terms.
Proof.
  intros Hterms Hstatus Hreply. unfold Routes.getRelatedDesignTerms.
  rewrite Hreply. cbn [Http.axios]. rewrite Hstatus.
  cbn [mbind settled_bind Async.andThen Async.tryCatch Async.property snd
       mret settled_ret Updated.Gemini.text].
  f_equal.
  destruct terms as [|t terms]; [done|].
  replace (JS.or_else (Some (String.concat ", " (t :: terms))) "")
    with (String.concat ", " (t :: terms))
    by (unfold JS.or_else, JS.truthy; by destruct (String.concat _ _)).
  rewrite split_listed
    by (eapply Forall_impl; [exact Hterms | by intros ? (_ & _ & ?)]).
  inversion Hterms as [|? ? (Ht & Htrim & _) Hrest]; subst.
  cbn [fmap list_fmap List.filter]. rewrite Htrim.
  destruct t as [|c t]; [done|]. cbn [String.length Nat.ltb Nat.leb].
  f_equal. clear -Hrest.
  induction terms as [|u terms IH]; [done|].
  inversion Hrest as [|? ? (Hu & Htrim & _) Hrest']; subst.
  cbn [fmap list_fmap List.filter].
  rewrite (trim_after_space u Htrim).
  destruct u as [|c u]; [done|]. cbn [String.length Nat.ltb Nat.leb].
  f_equal. by apply IH.
Qed.

Lemma related_design_terms_round_trip_witness :
  Routes.getRelatedDesignTerms
    (Replies.geminiSays "brand identity, logo marks") "logo" None None None
  = fulfilled ["brand identity"; "logo marks"].
Proof.
  apply (related_design_terms_round_trip _ _ _ _ _ 200).
  - repeat constructor; discriminate.
  - reflexivity.
  - reflexivity.
Defined.

Lemma getFontPairings_fulfilled (parse : string → option (list (option Item)))
    (w : Updated.world) (designStyle industry : JS.value) :
  ∃ pairings,
    Routes.getFontPairings parse w designStyle industry = fulfilled pairings
    ∧ (Http.failed (Updated.generateContent w "font pairings"
                      [designStyle; industry]) → pairings = []).
Proof.
  unfold Routes.getFontPairings.
  destruct (Updated.generateContent w "font pairings" _)
    as [m|m|status [data|]]; cbn.
  1,2: by exists [].
  - destruct (Http.statusOk status) eqn:Hstatus; cbn; [|by exists []].
    destruct (Updated.matchArray _) as [array|]; cbn.
    + destruct (parse array) as [pairings|]; cbn.
      * exists pairings. split; [done|]. congruence.
      * exists []. split; [done|]. congruence.
    + exists []. split; [done|]. congruence.
  - destruct (Http.statusOk status); cbn; by exists [].
Qed.

(** X21: [GET /font-pairings] never answers with an error: whatever the
    model's service does (no answer, a status that is not 2xx, a text
    without an array, an array that does not parse), the route answers
    200 with a list of pairings. *)
Theorem font_pairings_route_always_answers_200
    (parse : string → option (list (option Item))) (w : Updated.world)
    (designStyle industry : JS.value) :
  ∃ pairings,
    Routes.getFontPairingsRoute parse w designStyle industry
    = Handler.json 200 pairings.
Proof.
  unfold Routes.getFontPairingsRoute.
  destruct (getFontPairings_fulfilled parse w designStyle industry)
    as (pairings & -> & _).
  by exists pairings.
Qed.

(** X22: when the model's service fails in transport, the two routes
    that depend on it differ: [GET /font-pairings] answers 200 with no
    pairing, [GET /color-palette] with a base colour answers 500 and the
    message of the failure. *)
Theorem model_outage_differs_by_route (keyword : string → option string)
    (parse : string → option (list string))
    (parseObjects : string → option (list (option Item))) (w : Updated.world)
    (baseColor theme designStyle industry : JS.value) :
  (∀ tag args, Http.failed (Updated.generateContent w tag args)) →
  JS.truthy baseColor = true →
  Routes.getFontPairingsRoute parseObjects w designStyle industry
  = Handler.json 200 []
  ∧ ∃ details,
      Routes.getColorPalette keyword parse w baseColor theme industry
      = Handler.failure 500 "Failed to generate color palette" (Some details).
Proof.
  intros Hdown Hbase. split.
  - unfold Routes.getFontPairingsRoute.
    destruct (getFontPairings_fulfilled parseObjects w designStyle industry)
      as (pairings & -> & Hnone).
    by rewrite Hnone.
  - unfold Routes.getColorPalette, Updated.generateColorPalette.
    rewrite Hbase. cbn [negb].
    pose proof (Hdown "color palette"
                  [Some (default "" baseColor); theme; industry]) as Hfailed.
    destruct (Updated.generateContent w "color palette" _)
      as [m|m|status data]; cbn in *.
    + by exists m.
    + by exists m.
    + rewrite Hfailed. cbn. by eexists.
Qed.

Lemma model_outage_differs_by_route_witness :
  Routes.getFontPairingsRoute (λ _, None) Sample.updatedOffline
    (Some "minimal") None
  = Handler.json 200 []
  ∧ ∃ details,
      Routes.getColorPalette Sample.noKeyword Sample.noParse
        Sample.updatedOffline (Some "#336699") None None
      = Handler.failure 500 "Failed to generate color palette" (Some details).
Proof.
  apply model_outage_differs_by_route; [intros tag args; exact I | reflexivity].
Defined.
